(** * rv2aws: sizing and pricing engine of the RVTools to AWS cost estimator

    A shallow embedding of [rv2aws/utils.py], [rv2aws/aws_instance.py],
    [rv2aws/aws_pricing.py], [rv2aws/data_processing.py] and the batch part
    of [rv2aws/main.py], with the properties of the engine stated over it.

    Conventions of the embedding.
    - A Python [int] is a [Z].
    - A Python [float] is embedded twice.  In the sizing engine, the
      loaders and the batch, a float is the rational it denotes ([Q],
      compared with [==]): comparisons and [int()] are exact on floats, and
      products, sums and quotients are taken exactly, that is, without the
      binary rounding of IEEE arithmetic.  In [Module Binary64] a float is
      a binary64 number, a primitive [float] with its own product and sum;
      the cost formulas of [aws_pricing.py] and [find_aws_instance] are
      embedded there again, and the properties of the rounded amounts are
      stated over that module.
    - A raised exception is a value [Raise e] of the type [result].
    - Strings are ASCII: [lower], [strip] and [int] treat the ASCII
      letters, white space and digits.
    - The services behind [boto3] are parameters: the price of an offering
      ([get_price]) and the unit price of storage ([get_storage_cost]); in
      [Module Binary64] the price of an offering may be an exception. *)

From stdpp Require Import base gmap strings list.
From Stdlib Require Import ZArith QArith Qround Qabs Qpower Lia Lqa Ascii Sorted Floats.

Local Open Scope string_scope.
Local Open Scope list_scope.
Local Open Scope Z_scope.

(** ** Exceptions *)

Inductive exn : Set :=
| AssertionError
| ValueError
| IndexError
| OverflowError.

Inductive result (A : Type) : Type :=
| Ok (a : A)
| Raise (e : exn).

Arguments Ok {A} a.
Arguments Raise {A} e.

Definition bind {A B : Type} (c : result A) (k : A -> result B) : result B :=
  match c with
  | Ok a => k a
  | Raise e => Raise e
  end.

Notation "'let*' x ':=' c 'in' k" := (bind c (fun x => k))
  (at level 10, x pattern, c at level 100, k at level 200).

(** [assert b] *)
Definition assert (b : bool) : result unit :=
  if b then Ok tt else Raise AssertionError.

(** ** Numbers *)

Definition Qltb (x y : Q) : bool := negb (Qle_bool y x).

(** [int(x)] on a float: truncation toward zero. *)
Definition int_of_float (x : Q) : Z := Z.quot (Qnum x) (Z.pos (Qden x)).

(** [round(x)] on a float: the nearest integer, ties to the even one. *)
Definition round (x : Q) : Z :=
  let f := Qfloor x in
  match Qcompare (x - inject_Z f) (1 # 2) with
  | Lt => f
  | Gt => f + 1
  | Eq => if Z.even f then f else f + 1
  end.

(** ['%.2f' % x]: the decimal numeral with two fractional digits nearest to
    [x] (ties to even), kept as its number of hundredths. *)
Definition format_2f (x : Q) : Z := round (x * 100).

(** [float(s)] for a numeral [s] written by ['%.2f']. *)
Definition float_of_2f (cents : Z) : Q := inject_Z cents / 100.

(** ** Strings *)

(** White space for [str.strip] and [int]: tab to carriage return, the four
    separators 28 to 31, and the space. *)
Definition is_space (c : ascii) : bool :=
  let n := nat_of_ascii c in
  ((9 <=? n) && (n <=? 13) || (28 <=? n) && (n <=? 32))%nat.

Definition is_digit (c : ascii) : bool :=
  let n := nat_of_ascii c in ((48 <=? n) && (n <=? 57))%nat.

Definition digit_value (c : ascii) : Z := Z.of_nat (nat_of_ascii c) - 48.

Definition lower_ascii (c : ascii) : ascii :=
  let n := nat_of_ascii c in
  if ((65 <=? n) && (n <=? 90))%nat then ascii_of_nat (n + 32) else c.

(** [s.lower()] *)
Fixpoint lower (s : string) : string :=
  match s with
  | EmptyString => EmptyString
  | String c s' => String (lower_ascii c) (lower s')
  end.

Fixpoint lstrip (s : string) : string :=
  match s with
  | EmptyString => EmptyString
  | String c s' => if is_space c then lstrip s' else s
  end.

Fixpoint rstrip (s : string) : string :=
  match s with
  | EmptyString => EmptyString
  | String c s' =>
      match rstrip s' with
      | EmptyString => if is_space c then EmptyString else String c EmptyString
      | r => String c r
      end
  end.

(** [s.strip()] *)
Definition strip (s : string) : string := rstrip (lstrip s).

(** [sub in s] *)
Fixpoint contains (sub s : string) : bool :=
  String.prefix sub s ||
  match s with
  | EmptyString => false
  | String _ s' => contains sub s'
  end.

(** [s.replace(',', '')] *)
Fixpoint remove_commas (s : string) : string :=
  match s with
  | EmptyString => EmptyString
  | String c s' =>
      if Ascii.eqb c "," then remove_commas s' else String c (remove_commas s')
  end.

(** The digits of an integer literal, most significant first; a single
    underscore may separate two digits. [acc] is the value read so far and
    [after_digit] tells whether the previous character was a digit. *)
Fixpoint int_digits (s : string) (acc : Z) (after_digit : bool) : option Z :=
  match s with
  | EmptyString => if after_digit then Some acc else None
  | String c s' =>
      if is_digit c then int_digits s' (10 * acc + digit_value c) true
      else if Ascii.eqb c "_" && after_digit then int_digits s' acc false
      else None
  end.

(** [int(s)] on a string: surrounding white space, an optional sign and
    decimal digits; anything else is a [ValueError]. *)
Definition int_of_string (s : string) : result Z :=
  let body := strip s in
  let signed :=
    match body with
    | String "-" rest => (-1, rest)
    | String "+" rest => (1, rest)
    | _ => (1, body)
    end in
  match int_digits (snd signed) 0 false with
  | Some n => Ok (fst signed * n)
  | None => Raise ValueError
  end.

(** ** Built-in containers and library functions *)

Section Builtins.
Context {A K : Type}.

(** [sorted(l, key=key)]: a stable sort, the keys compared with [<]. *)
Fixpoint insert_by (key : A -> K) (ltb : K -> K -> bool) (x : A) (l : list A) : list A :=
  match l with
  | [] => [x]
  | y :: l' => if ltb (key y) (key x) then y :: insert_by key ltb x l' else x :: l
  end.

Definition sorted (key : A -> K) (ltb : K -> K -> bool) (l : list A) : list A :=
  foldr (insert_by key ltb) [] l.

(** [s.add(x)] on a set, kept as a list without repetition. *)
Definition set_add (eqb : A -> A -> bool) (s : list A) (x : A) : list A :=
  if existsb (eqb x) s then s else s ++ [x].

(** [l.index(x)] *)
Fixpoint index (eqb : A -> A -> bool) (l : list A) (x : A) : result nat :=
  match l with
  | [] => Raise ValueError
  | y :: l' => if eqb y x then Ok O else let* i := index eqb l' x in Ok (S i)
  end.

(** [l[i]] *)
Definition getitem (l : list A) (i : nat) : result A :=
  match l !! i with
  | Some x => Ok x
  | None => Raise IndexError
  end.

(** The loop of [bisect.bisect_left(a, x)]: halve [lo, hi) until it is empty. *)
Fixpoint bisect_loop (ltb : A -> A -> bool) (fuel : nat) (a : list A) (x : A)
    (lo hi : nat) : nat :=
  match fuel with
  | O => lo
  | S fuel' =>
      if (lo <? hi)%nat then
        let mid := ((lo + hi) / 2)%nat in
        match a !! mid with
        | Some y =>
            if ltb y x then bisect_loop ltb fuel' a x (mid + 1)%nat hi
            else bisect_loop ltb fuel' a x lo mid
        | None => lo
        end
      else lo
  end.

Definition bisect_left (ltb : A -> A -> bool) (a : list A) (x : A) : nat :=
  bisect_loop ltb (length a) a x O (length a).
End Builtins.

Definition is_nil {A : Type} (l : list A) : bool :=
  match l with [] => true | _ => false end.

(** The truth value of a number: zero is false. *)
Definition truthy_Z (z : Z) : bool := negb (z =? 0).
Definition truthy_Q (q : Q) : bool := negb (Qeq_bool q 0).

(** [<] on the pairs of integers used as sort keys. *)
Definition pair_ltb (a b : Z * Z) : bool :=
  (fst a <? fst b) || ((fst a =? fst b) && (snd a <? snd b)).

(** A [collections.Counter] keyed by offering identifier. *)
Abbreviation Counter := (gmap string nat).

(** [c[k] += 1] *)
Definition counter_incr (c : Counter) (k : string) : Counter :=
  <[k := S (default O (c !! k))]> c.

(** [c[k]] *)
Definition counter_get (c : Counter) (k : string) : nat := default O (c !! k).

(** [d[k] = v] on a dict, kept in insertion order. *)
Fixpoint dict_set {V : Type} (d : list (string * V)) (k : string) (v : V) : list (string * V) :=
  match d with
  | [] => [(k, v)]
  | (k', v') :: d' => if String.eqb k' k then (k', v) :: d' else (k', v') :: dict_set d' k v
  end.

(** ** rv2aws/utils.py *)

Section Utils.
Context {A : Type} (ltb : A -> A -> bool) (truthy : A -> bool).

Definition find_greater_than_or_equal (a : list A) (key : A) : result A :=
  let* _ := assert (negb (is_nil a) && truthy key) in
  let i := bisect_left ltb a key in
  if (i =? length a)%nat then Raise ValueError else getitem a i.
End Utils.

(** ** rv2aws/aws_instance.py: the catalog and the size resolution *)

(** An entry of the list built by [fetch_instance_types]. *)
Record instance_type : Type := {
  it_type : string;
  it_CPU : Z;
  it_RAM : Q
}.

Definition lookup_type (cpu : Z) (ram : Q) (types : list instance_type) : result (list string) :=
  let* _ := assert (truthy_Z cpu && truthy_Q ram) in
  Ok (map it_type
        (List.filter (fun itype => (it_CPU itype =? cpu) && Qeq_bool (it_RAM itype) ram)
           (sorted (fun i => (it_CPU i, int_of_float (it_RAM i))) pair_ltb types))).

(** [sorted_ram_types[0]] of [get_minimum_ram_size] and [get_minimum_cpu_size]. *)
Definition get_minimum_ram_size (types : list instance_type) : result Q :=
  let* first := getitem (sorted it_RAM Qltb types) O in
  Ok (it_RAM first).

Definition get_minimum_cpu_size (types : list instance_type) : result Z :=
  let* first := getitem (sorted it_CPU Z.ltb types) O in
  Ok (it_CPU first).

Definition get_next_ram_size (sizes : list Q) (ram : Q) : result Q :=
  let* _ := assert (truthy_Q ram && negb (is_nil sizes)) in
  let* current := index Qeq_bool sizes ram in
  let current := S current in
  let* _ := assert (current <? length sizes)%nat in
  getitem sizes current.

(** [extract_list_from_instance_types(key, types)], the key given as the
    projection it selects. *)
Definition extract_list_from_instance_types {V : Type} (eqb ltb : V -> V -> bool)
    (key : instance_type -> V) (types : list instance_type) : list V :=
  sorted id ltb (fold_left (set_add eqb) (map key types) []).

(** The [while not found] loop of [get_correct_instance_size]; [None] when
    the iterations allowed by [fuel] are used up. *)
Fixpoint size_loop (fuel : nat) (types : list instance_type) (sorted_ram_size : list Q)
    (min_cpu : Z) (min_ram : Q) : option (result (list string)) :=
  match fuel with
  | O => None
  | S fuel' =>
      match lookup_type min_cpu min_ram types with
      | Raise e => Some (Raise e)
      | Ok found =>
          match (let* next := get_next_ram_size sorted_ram_size min_ram in
                 find_greater_than_or_equal Qltb truthy_Q sorted_ram_size next) with
          | Raise e => Some (Raise e)
          | Ok min_ram' =>
              if is_nil found
              then size_loop fuel' types sorted_ram_size min_cpu min_ram'
              else Some (Ok found)
          end
      end
  end.

Definition get_correct_instance_size (cpu : Z) (ram : Q) (types : list instance_type)
    : option (result (list string)) :=
  match assert (truthy_Z cpu && truthy_Q ram) with
  | Raise e => Some (Raise e)
  | Ok _ =>
      match find_greater_than_or_equal Z.ltb truthy_Z
              (extract_list_from_instance_types Z.eqb Z.ltb it_CPU types) cpu with
      | Raise e => Some (Raise e)
      | Ok min_cpu =>
          let sorted_ram_size := extract_list_from_instance_types Qeq_bool Qltb it_RAM types in
          match find_greater_than_or_equal Qltb truthy_Q sorted_ram_size ram with
          | Raise e => Some (Raise e)
          | Ok min_ram =>
              size_loop (S (length sorted_ram_size)) types sorted_ram_size min_cpu min_ram
          end
      end
  end.

(** ** rv2aws/aws_pricing.py and the pipeline of one host *)

Inductive pricing_model : Set :=
| onDemand
| one_year_Reserved
| three_year_Reserved.

(** The dict [{"Instance Type": ..., "Instance Cost": ...}]; [None] is Python's. *)
Record type_and_cost : Type := {
  Instance_Type : option string;
  Instance_Cost : option Z
}.

Definition no_type_and_cost : type_and_cost :=
  {| Instance_Type := None; Instance_Cost := None |}.

(** A host record after [process_host_ram]. *)
Record host : Type := {
  host_CPUs : Z;
  host_RAM : Q;
  host_VM : string;
  host_OS : string
}.

(** A host record as [load_host_records_from_csv] builds it: the RAM is
    still the text of the cell. *)
Record raw_host : Type := {
  raw_CPUs : Z;
  raw_RAM : string;
  raw_VM : string;
  raw_OS : string
}.

(** A storage record: both fields are cells of the disk table. *)
Record disk : Type := {
  disk_Capacity : string;
  disk_VM : string
}.

(** The dict [{"Storage": ..., "Storage Cost": ...}]. *)
Record storage_cost : Type := {
  Storage : Q;
  Storage_Cost : Q
}.

(** The "Cost Details" of a priced host, one entry per pricing model. *)
Record cost_details : Type := {
  cd_onDemand : type_and_cost;
  cd_one_year : type_and_cost;
  cd_three_year : type_and_cost
}.

(** The merged dict [host_with_storage_cost], the argument of [get_total_cost]. *)
Record host_with_storage_cost : Type := {
  hs_host : host;
  hs_Instance_Type : option string;
  hs_Instance_Cost : option Z;
  hs_Storage : Q;
  hs_Storage_Cost : option Q
}.

(** The dict returned by [find_aws_instance]. *)
Record host_with_cost_details : Type := {
  hc_fields : host_with_storage_cost;
  hc_Total : Q;
  hc_Cost_Details : cost_details
}.

(** The state of the pricing loop of [get_least_expensive_option]. *)
Record pricing_state : Type := {
  ps_prices : list (string * Q);
  ps_invalid_instances : list string;
  ps_count : Counter
}.

Section Engine.
(** The price of an offering for an operating system under a pricing
    model, memoized by [lru_cache]; [0] when the service has no price. *)
Variable get_price : string -> string -> pricing_model -> Q.
(** The price of a GB-month of storage, or the [ValueError] raised when the
    service lists none. *)
Variable get_storage_cost : result Q.

Definition price_step (os : string) (model : pricing_model) (st : pricing_state)
    (instance : string) : pricing_state :=
  let price := get_price instance os model in
  if Qeq_bool price 0 then
    {| ps_prices := ps_prices st;
       ps_invalid_instances := ps_invalid_instances st ++ [instance];
       ps_count := counter_incr (ps_count st) instance |}
  else
    {| ps_prices := dict_set (ps_prices st) instance price;
       ps_invalid_instances := ps_invalid_instances st;
       ps_count := ps_count st |}.

(** Returns the result pair and the counter as the call leaves it. *)
Definition get_least_expensive_option (instances : list string) (os : string)
    (model : pricing_model) (invalid_instance_types_count : Counter)
    : (type_and_cost * list string) * Counter :=
  if is_nil instances then ((no_type_and_cost, []), invalid_instance_types_count)
  else if String.eqb os "" then ((no_type_and_cost, []), invalid_instance_types_count)
  else
    let st := fold_left (price_step os model) instances
                {| ps_prices := []; ps_invalid_instances := [];
                   ps_count := invalid_instance_types_count |} in
    let sorted_prices := sorted (fun x => int_of_float (snd x)) Z.ltb (ps_prices st) in
    match sorted_prices with
    | best :: _ =>
        (({| Instance_Type := Some (fst best);
             Instance_Cost := Some (int_of_float (snd best)) |},
          ps_invalid_instances st), ps_count st)
    | [] => ((no_type_and_cost, ps_invalid_instances st), ps_count st)
    end.

(** The loop over [disks] of [get_three_year_storage_cost]. *)
Fixpoint storage_mbytes (vm : string) (disks : list disk) (mbytes : Z) : result Z :=
  match disks with
  | [] => Ok mbytes
  | d :: disks' =>
      if String.eqb (disk_VM d) vm then
        let* mbytes' := int_of_string (remove_commas (disk_Capacity d)) in
        storage_mbytes vm disks' mbytes'
      else storage_mbytes vm disks' mbytes
  end.

Definition get_three_year_storage_cost (h : host) (disks : list disk) : result storage_cost :=
  let* _ := assert (negb (is_nil disks)) in
  let* price_per_gb_month := get_storage_cost in
  let vm := host_VM h in
  let* mbytes := storage_mbytes vm disks 0 in
  let gbytes := (inject_Z mbytes / 1000)%Q in
  let monthly_cost := format_2f (price_per_gb_month * gbytes) in
  let yearly_cost := (float_of_2f monthly_cost * 12)%Q in
  let three_year_cost := format_2f (yearly_cost * 3) in
  Ok {| Storage := gbytes; Storage_Cost := float_of_2f three_year_cost |}.

Definition get_total_cost (h : host_with_storage_cost) : Q :=
  let instance_cost :=
    match hs_Instance_Cost h with Some c => inject_Z c | None => 0%Q end in
  let storage_cost :=
    match hs_Storage_Cost h with Some c => c | None => 0%Q end in
  float_of_2f (format_2f (instance_cost + storage_cost)).

(** What one call of [find_aws_instance] computes: the record it returns
    ([None] is Python's) and, beside it, the local counter of invalid
    offerings as it stands when the function returns.  A [host] has all
    its keys, so the two guards on an empty host and on missing "CPUs" or
    "RAM" keys never fire and are left out. *)
Definition find_aws_instance_counting (h : host) (disks : list disk)
    (types : list instance_type)
    : option (result (option host_with_cost_details * Counter)) :=
  match get_correct_instance_size (host_CPUs h) (host_RAM h) types with
  | None => None
  | Some (Raise e) => Some (Raise e)
  | Some (Ok instances) =>
      if is_nil instances then Some (Ok (None, ∅))
      else
        let invalid_instance_types_count : Counter := ∅ in
        let '((c1, inv1), cnt1) :=
          get_least_expensive_option instances (host_OS h) onDemand
            invalid_instance_types_count in
        let '((c2, inv2), cnt2) :=
          get_least_expensive_option instances (host_OS h) one_year_Reserved cnt1 in
        let '((c3, inv3), cnt3) :=
          get_least_expensive_option instances (host_OS h) three_year_Reserved cnt2 in
        let cost_details :=
          {| cd_onDemand := c1; cd_one_year := c2; cd_three_year := c3 |} in
        Some (let* sc := get_three_year_storage_cost h disks in
              let host_with_storage_cost :=
                {| hs_host := h;
                   hs_Instance_Type := Instance_Type c3;
                   hs_Instance_Cost := Instance_Cost c3;
                   hs_Storage := Storage sc;
                   hs_Storage_Cost := Some (Storage_Cost sc) |} in
              Ok (Some {| hc_fields := host_with_storage_cost;
                          hc_Total := get_total_cost host_with_storage_cost;
                          hc_Cost_Details := cost_details |},
                  cnt3))
  end.

(** [find_aws_instance]: the local counter is dropped on return. *)
Definition find_aws_instance (h : host) (disks : list disk) (types : list instance_type)
    : option (result (option host_with_cost_details)) :=
  match find_aws_instance_counting h disks types with
  | None => None
  | Some (Raise e) => Some (Raise e)
  | Some (Ok (r, _)) => Some (Ok r)
  end.

Definition process_host (h : host) (disks : list disk) (types : list instance_type)
    : option (result (option host_with_cost_details)) :=
  find_aws_instance h disks types.
End Engine.

(** ** rv2aws/data_processing.py *)

(** A table is the list of the rows [csv.reader] yields, the header first. *)
Abbreviation row := (list string).

(** The inner loop of [get_csv_column_title]: the first column, counted from
    [column], whose header contains [title]. *)
Fixpoint find_column (title : string) (title_row : row) (column : nat) : option nat :=
  match title_row with
  | [] => None
  | value :: rest =>
      if contains (lower title) (strip (lower value)) then Some column
      else find_column title rest (S column)
  end.

Fixpoint first_column (title_row : row) (titles : list string) : result nat :=
  match titles with
  | [] => Raise ValueError
  | title :: titles' =>
      match find_column title title_row O with
      | Some column => Ok column
      | None => first_column title_row titles'
      end
  end.

Definition get_csv_column_title (title_row : row) (titles : list string) : result nat :=
  let* _ := assert (negb (is_nil title_row) && negb (is_nil titles)) in
  first_column title_row titles.

Definition set_minimum_ram_size_for_instance (ram : string) (min_ram : Q) : result Q :=
  let* n := int_of_string ram in
  let gig_ram := inject_Z (round (inject_Z n / 1000)) in
  Ok (if Qltb min_ram gig_ram then gig_ram else min_ram).

Definition load_host_record (cpu_count_column ram_column vm_column os_column : nat)
    (min_cpu : Z) (r : row) : result raw_host :=
  let* cpu_cell := getitem r cpu_count_column in
  let* cpus := int_of_string cpu_cell in
  let* cpus := (if cpus <? min_cpu then Ok min_cpu else int_of_string cpu_cell) in
  let* ram := getitem r ram_column in
  let* vm := getitem r vm_column in
  let* os := getitem r os_column in
  Ok {| raw_CPUs := cpus; raw_RAM := ram; raw_VM := vm; raw_OS := os |}.

(** A loop that builds one record per element and stops at the first
    exception. *)
Fixpoint for_each {A B : Type} (f : A -> result B) (l : list A) : result (list B) :=
  match l with
  | [] => Ok []
  | x :: l' =>
      let* y := f x in
      let* ys := for_each f l' in
      Ok (y :: ys)
  end.

Definition load_host_records_from_csv (input_csv : list row) (min_cpu : Z)
    : result (list raw_host) :=
  match input_csv with
  | [] => Ok []
  | title_row :: rows =>
      let* cpu_count_column := get_csv_column_title title_row ["CPUs"] in
      let* ram_column := get_csv_column_title title_row ["Max"] in
      let* vm_column := get_csv_column_title title_row ["VM"] in
      let* os_column :=
        get_csv_column_title title_row ["OS according to the configuration file"] in
      for_each (load_host_record cpu_count_column ram_column vm_column os_column min_cpu) rows
  end.

Definition process_one_host_ram (min_ram : Q) (h : raw_host) : result host :=
  let* ram := set_minimum_ram_size_for_instance (remove_commas (raw_RAM h)) min_ram in
  Ok {| host_CPUs := raw_CPUs h; host_RAM := ram; host_VM := raw_VM h; host_OS := raw_OS h |}.

Definition process_host_ram (hosts : list raw_host) (min_ram : Q) : result (list host) :=
  for_each (process_one_host_ram min_ram) hosts.

Definition load_storage_record (capacity_column vm_column : nat) (r : row) : result disk :=
  let* capacity := getitem r capacity_column in
  let* vm := getitem r vm_column in
  Ok {| disk_Capacity := capacity; disk_VM := vm |}.

(** The [try] of [load_storage_records_from_csv]: a [ValueError] of the
    header lookup is caught and answered with no column at all. *)
Definition storage_columns (title_row : row) : result (option (nat * nat)) :=
  match (let* capacity_column :=
           get_csv_column_title title_row ["Capacity MB"; "Capacity MiB"; "Capacity"] in
         let* vm_column := get_csv_column_title title_row ["VM"] in
         Ok (capacity_column, vm_column)) with
  | Ok columns => Ok (Some columns)
  | Raise ValueError => Ok None
  | Raise e => Raise e
  end.

Definition load_storage_records_from_csv (input_csv : list row) : result (list disk) :=
  match input_csv with
  | [] => Ok []
  | title_row :: rows =>
      let* columns := storage_columns title_row in
      match columns with
      | None => Ok []
      | Some (capacity_column, vm_column) =>
          for_each (load_storage_record capacity_column vm_column) rows
      end
  end.

(** ** rv2aws/main.py: the batch *)

(** How [main] ends: with exit status 1 before any host is priced, or with
    the processed records and the tally of invalid offerings it reports. *)
Inductive run : Type :=
| Exit_1
| Processed (processed_host_records : list host_with_cost_details)
            (invalid_instance_types_count : Counter).

Section Batch.
Variable get_price : string -> string -> pricing_model -> Q.
Variable get_storage_cost : result Q.

(** The loop over the futures: a host whose worker raised is logged and
    left out, a [None] result is left out, the others are collected.
    The records are taken in the order of [hosts]; the pool delivers them
    in completion order, which no property below depends on. *)
Fixpoint collect (hosts : list host) (disks : list disk) (types : list instance_type)
    : option (list host_with_cost_details) :=
  match hosts with
  | [] => Some []
  | h :: hosts' =>
      match process_host get_price get_storage_cost h disks types with
      | None => None
      | Some outcome =>
          match collect hosts' disks types with
          | None => None
          | Some records =>
              Some match outcome with
                   | Ok (Some record) => record :: records
                   | Ok None | Raise _ => records
                   end
          end
      end
  end.

(** [main] from the two converted tables and the fetched instance types
    up to the report of the tally; the reports written afterwards are
    left out.  No extension of the kind [pre_process] is registered. *)
Definition main (cpu_csv disk_csv : list row) (instance_types : list instance_type)
    : option run :=
  match (let* min_cpu := get_minimum_cpu_size instance_types in
         let* min_ram := get_minimum_ram_size instance_types in
         Ok (min_cpu, min_ram)) with
  | Raise _ => Some Exit_1
  | Ok (min_cpu, min_ram) =>
      match (let* hosts := load_host_records_from_csv cpu_csv min_cpu in
             let* hosts := process_host_ram hosts min_ram in
             let* disks := load_storage_records_from_csv disk_csv in
             Ok (hosts, disks)) with
      | Raise _ => Some Exit_1
      | Ok (hosts, disks) =>
          if is_nil hosts || is_nil disks then Some Exit_1
          else
            let invalid_instance_types_count : Counter := ∅ in
            match collect hosts disks instance_types with
            | None => None
            | Some processed_host_records =>
                Some (Processed processed_host_records invalid_instance_types_count)
            end
      end
  end.
End Batch.

(** ** The costs in binary floating point *)

(** The storage cost and the total are computed on Python floats, and
    their rounding to two decimals goes through ['%.2f'] and [float].  In
    this module a float is a binary64 number, the primitive [float] of the
    Standard Library, with its own product and sum; the functions of
    [aws_pricing.py] that compute on floats, and [find_aws_instance] over
    them, are embedded a second time here.  The price service may raise,
    as the calls to [boto3] may. *)
Module Binary64.

(** *** Floats, integers and decimal numerals *)

(** The number denoted by the significand [m] at the exponent [e]. *)
Definition magnitude (m : positive) (e : Z) : Q := (inject_Z (Z.pos m) * 2 ^ e)%Q.

(** The number a float denotes; an infinity and a nan denote none. *)
Definition value (x : float) : option Q :=
  match Prim2SF x with
  | S754_zero _ => Some 0%Q
  | S754_finite s m e => Some (if s then (- magnitude m e)%Q else magnitude m e)
  | S754_infinity _ | S754_nan => None
  end.

(** The sign bit. *)
Definition negative (x : float) : bool :=
  match Prim2SF x with
  | S754_zero s | S754_finite s _ _ | S754_infinity s => s
  | S754_nan => false
  end.

(** The exponent [e] of a positive rational: [2^e <= x < 2^(e+1)]. *)
Definition exponent (x : Q) : Z :=
  let e := Z.log2 (Qnum x) - Z.log2 (Z.pos (Qden x)) in
  if Qle_bool (2 ^ e) x then e else e - 1.

(** The binary64 number nearest to the rational [x >= 0], with the sign
    [minus]: the significand is [x] in units of the last place, rounded
    to the nearest integer, a tie going to the even one; below the normal
    range the last place stays at [2^-1074], and past the largest float
    the result is an infinity. *)
Definition nearest_binary64 (minus : bool) (x : Q) : spec_float :=
  let q := Z.max (exponent x) (-1022) - 52 in
  match round (x / 2 ^ q) with
  | Z.pos m =>
      let '(m, q) :=
        if (m =? 2 ^ 53)%positive then ((2 ^ 52)%positive, q + 1) else (m, q) in
      if q <=? 971 then S754_finite minus m q else S754_infinity minus
  | _ => S754_zero minus
  end.

(** A conversion from an integer raises [OverflowError] where the nearest
    float would be an infinity. *)
Definition finite_or_raise (x : spec_float) : result float :=
  match x with
  | S754_infinity _ => Raise OverflowError
  | _ => Ok (SF2Prim x)
  end.

(** [float(i)] on an [int]. *)
Definition float_of_int (i : Z) : result float :=
  finite_or_raise (nearest_binary64 (i <? 0) (inject_Z (Z.abs i))).

(** [a / b] on two [int]s, for a divisor above zero. *)
Definition true_div (a : Z) (b : positive) : result float :=
  finite_or_raise (nearest_binary64 (a <? 0) (Z.abs a # b)).

(** [int(x)] on a float: truncation toward zero. *)
Definition int_of_float (x : float) : result Z :=
  match Prim2SF x with
  | S754_zero _ => Ok 0
  | S754_finite s m e =>
      let n := Qfloor (magnitude m e) in Ok (if s then - n else n)
  | S754_infinity _ => Raise OverflowError
  | S754_nan => Raise ValueError
  end.

(** What ['%.2f'] writes: a sign and a number of hundredths, or [inf],
    [-inf], [nan]. *)
Inductive numeral : Set :=
| Decimal (minus : bool) (hundredths : Z)
| Infinity (minus : bool)
| NaN.

(** ['%.2f' % x]: the decimal numeral with two fractional digits nearest to
    the number [x] denotes, a tie going to the even last digit. *)
Definition format_2f (x : float) : numeral :=
  match Prim2SF x with
  | S754_zero s => Decimal s 0
  | S754_finite s m e => Decimal s (round (magnitude m e * 100))
  | S754_infinity s => Infinity s
  | S754_nan => NaN
  end.

(** [float(s)] for a numeral [s] written by ['%.2f']. *)
Definition float_of_2f (s : numeral) : float :=
  match s with
  | Decimal minus hundredths =>
      SF2Prim (nearest_binary64 minus (inject_Z hundredths / 100))
  | Infinity minus => if minus then neg_infinity else infinity
  | NaN => nan
  end.

(** *** rv2aws/aws_pricing.py *)

(** The dict [{"Storage": ..., "Storage Cost": ...}]. *)
Record storage_cost : Type := {
  Storage : float;
  Storage_Cost : float
}.

(** The merged dict [host_with_storage_cost], the argument of [get_total_cost]. *)
Record host_with_storage_cost : Type := {
  hs_host : host;
  hs_Instance_Type : option string;
  hs_Instance_Cost : option Z;
  hs_Storage : float;
  hs_Storage_Cost : option float
}.

(** The dict returned by [find_aws_instance]. *)
Record host_with_cost_details : Type := {
  hc_fields : host_with_storage_cost;
  hc_Total : float;
  hc_Cost_Details : cost_details
}.

(** The state of the pricing loop of [get_least_expensive_option]. *)
Record pricing_state : Type := {
  ps_prices : list (string * float);
  ps_invalid_instances : list string;
  ps_count : Counter
}.

Section Engine.
(** The price of an offering, or the exception that the call lets through
    ([get_price] catches [ClientError] only). *)
Variable get_price : string -> string -> pricing_model -> result float.
(** The price of a GB-month of storage, or the exception raised. *)
Variable get_storage_cost : result float.

(** The loop over [instances]; an exception of [get_price] ends it. *)
Fixpoint price_loop (os : string) (model : pricing_model) (instances : list string)
    (st : pricing_state) : result pricing_state :=
  match instances with
  | [] => Ok st
  | instance :: instances' =>
      let* price := get_price instance os model in
      price_loop os model instances'
        (if (price =? 0)%float then
           {| ps_prices := ps_prices st;
              ps_invalid_instances := ps_invalid_instances st ++ [instance];
              ps_count := counter_incr (ps_count st) instance |}
         else
           {| ps_prices := dict_set (ps_prices st) instance price;
              ps_invalid_instances := ps_invalid_instances st;
              ps_count := ps_count st |})
  end.

(** [sorted] computes the key [int(x[1])] of every entry before it
    compares any. *)
Definition get_least_expensive_option (instances : list string) (os : string)
    (model : pricing_model) (invalid_instance_types_count : Counter)
    : result ((type_and_cost * list string) * Counter) :=
  if is_nil instances then Ok ((no_type_and_cost, []), invalid_instance_types_count)
  else if String.eqb os "" then Ok ((no_type_and_cost, []), invalid_instance_types_count)
  else
    let* st := price_loop os model instances
                 {| ps_prices := []; ps_invalid_instances := [];
                    ps_count := invalid_instance_types_count |} in
    let* keys := for_each (fun x => int_of_float (snd x)) (ps_prices st) in
    let sorted_prices := map snd (sorted fst Z.ltb (combine keys (ps_prices st))) in
    match sorted_prices with
    | best :: _ =>
        let* cost := int_of_float (snd best) in
        Ok (({| Instance_Type := Some (fst best); Instance_Cost := Some cost |},
             ps_invalid_instances st), ps_count st)
    | [] => Ok ((no_type_and_cost, ps_invalid_instances st), ps_count st)
    end.

Definition get_three_year_storage_cost (h : host) (disks : list disk) : result storage_cost :=
  let* _ := assert (negb (is_nil disks)) in
  let* price_per_gb_month := get_storage_cost in
  let vm := host_VM h in
  let* mbytes := storage_mbytes vm disks 0 in
  let* gbytes := true_div mbytes 1000 in
  let monthly_cost := format_2f (price_per_gb_month * gbytes)%float in
  let yearly_cost := (float_of_2f monthly_cost * 12)%float in
  let three_year_cost := format_2f (yearly_cost * 3)%float in
  Ok {| Storage := gbytes; Storage_Cost := float_of_2f three_year_cost |}.

Definition get_total_cost (h : host_with_storage_cost) : result float :=
  let* instance_cost :=
    match hs_Instance_Cost h with Some c => float_of_int c | None => Ok 0%float end in
  let storage_cost :=
    match hs_Storage_Cost h with Some c => c | None => 0%float end in
  Ok (float_of_2f (format_2f (instance_cost + storage_cost)%float)).

(** The counter of invalid offerings is local and dropped on return. *)
Definition find_aws_instance (h : host) (disks : list disk) (types : list instance_type)
    : option (result (option host_with_cost_details)) :=
  match get_correct_instance_size (host_CPUs h) (host_RAM h) types with
  | None => None
  | Some (Raise e) => Some (Raise e)
  | Some (Ok instances) =>
      if is_nil instances then Some (Ok None)
      else
        let invalid_instance_types_count : Counter := ∅ in
        Some (let* ((c1, _), count1) :=
                get_least_expensive_option instances (host_OS h) onDemand
                  invalid_instance_types_count in
              let* ((c2, _), count2) :=
                get_least_expensive_option instances (host_OS h) one_year_Reserved count1 in
              let* ((c3, _), _) :=
                get_least_expensive_option instances (host_OS h) three_year_Reserved count2 in
              let cost_details :=
                {| cd_onDemand := c1; cd_one_year := c2; cd_three_year := c3 |} in
              let* sc := get_three_year_storage_cost h disks in
              let host_with_storage_cost :=
                {| hs_host := h;
                   hs_Instance_Type := Instance_Type c3;
                   hs_Instance_Cost := Instance_Cost c3;
                   hs_Storage := Storage sc;
                   hs_Storage_Cost := Some (Storage_Cost sc) |} in
              let* total := get_total_cost host_with_storage_cost in
              Ok (Some {| hc_fields := host_with_storage_cost;
                          hc_Total := total;
                          hc_Cost_Details := cost_details |}))
  end.
End Engine.
End Binary64.

(** ** Vocabulary of the properties and sample inputs *)

(** The amount "rounded to cents" of the cost formulas: the multiple of
    1/100 nearest to [x], a tie going to the even number of cents. *)
Definition round_to_cents (x : Q) : Q := (inject_Z (round (x * 100)) / 100)%Q.

(** The whole number of cents [c] is nearest to the amount [x]: no other
    whole number of cents is closer. *)
Definition nearest_hundredth (x : Q) (c : Z) : Prop :=
  forall k : Z, (Qabs (x - inject_Z c / 100) <= Qabs (x - inject_Z k / 100))%Q.

(** The float [r] is the float [x] rounded to two decimals: the float read
    from the numeral that has the sign of [x] and a whole number of
    hundredths nearest to the number [x] denotes; an infinity and a nan
    are left as they are. *)
Definition rounded_to_2_decimals (x r : float) : Prop :=
  match Binary64.value x with
  | Some v =>
      exists c : Z,
        nearest_hundredth (Qabs v) c /\
        r = Binary64.float_of_2f (Binary64.Decimal (Binary64.negative x) c)
  | None => r = x
  end.

(** An offering is priced when the service has a price other than zero. *)
Definition available (get_price : string -> string -> pricing_model -> Q)
    (os : string) (model : pricing_model) (instance : string) : Prop :=
  ~ (get_price instance os model == 0)%Q.

(** The elements of a list are pairwise different for the test [eqb]. *)
Fixpoint distinct {A : Type} (eqb : A -> A -> bool) (l : list A) : Prop :=
  match l with
  | [] => True
  | x :: l' => (forall y, In y l' -> eqb x y = false) /\ distinct eqb l'
  end.

(** A list in strictly ascending order for the test [ltb]. *)
Definition ascending {A : Type} (ltb : A -> A -> bool) (l : list A) : Prop :=
  StronglySorted (fun a b => ltb a b = true) l.

(** The catalog of the scenarios of the specification. *)
Definition scenario_catalog : list instance_type :=
  [ {| it_type := "a"; it_CPU := 2; it_RAM := 4 |};
    {| it_type := "b"; it_CPU := 4; it_RAM := 8 |};
    {| it_type := "c"; it_CPU := 4; it_RAM := 16 |} ].

(** A price service that knows two offerings, at 10.75 and 10.25. *)
Definition two_prices (instance os : string) (model : pricing_model) : Q :=
  if String.eqb instance "a" then 43 # 4
  else if String.eqb instance "b" then 41 # 4
  else 0.

(** A price service with the hourly prices of two offerings, 0.096 and
    0.0832. *)
Definition hourly_prices (instance os : string) (model : pricing_model) : Q :=
  if String.eqb instance "a" then 96 # 1000
  else if String.eqb instance "b" then 832 # 10000
  else 0.

(** A price service with no price at all. *)
Definition no_price (instance os : string) (model : pricing_model) : Q := 0.

Definition sample_host : host :=
  {| host_CPUs := 2; host_RAM := 4; host_VM := "vm1"; host_OS := "CentOS" |}.

Definition sample_disks : list disk :=
  [ {| disk_Capacity := "1,000"; disk_VM := "vm1" |};
    {| disk_Capacity := "2,000"; disk_VM := "vm1" |} ].

Definition sample_cpu_csv : list row :=
  [ ["VM"; "CPUs"; "Max"; "OS according to the configuration file"];
    ["vm1"; "1"; "2,048"; "CentOS"];
    ["vm2"; "3"; "5,000"; "Windows"] ].

Definition sample_disk_csv : list row :=
  [ ["VM"; "Capacity MB"]; ["vm1"; "1,000"]; ["vm1"; "2,000"] ].

(** A storage price of 0.10 per GB-month, as a float. *)
Definition storage_price : float := (1 / 10)%float.

(** A price service that answers 0.0 for every offering. *)
Definition unpriced (instance os : string) (model : pricing_model) : result float :=
  Ok 0%float.

(** One disk of 150 MB for the machine "vm1". *)
Definition disk_of_150_MB : list disk :=
  [ {| disk_Capacity := "150"; disk_VM := "vm1" |} ].

(** A disk table whose header has no capacity column. *)
Definition disk_csv_without_capacity : list row :=
  [ ["VM"; "Disk"]; ["vm1"; "Hard disk 1"] ].

(** ** Further functions: the OS categories, the CSV report, the end of [main] *)

(** [get_aws_os_type] of rv2aws/aws_instance.py. *)
Definition get_aws_os_type (os : string) : result string :=
  let* _ := assert (negb (String.eqb os "")) in
  Ok (if contains "Windows" os then "Windows" else "Linux/UNIX").

(** The dict [os_map] of [get_price], in the order it is written. *)
Definition os_map : list (string * string) :=
  [ ("CentOS", "Linux/UNIX");
    ("Red Hat", "Red Hat Enterprise Linux");
    ("Windows", "Windows");
    ("SUSE", "SUSE Linux") ].

(** [next((v for k, v in m.items() if k in os), "Linux/UNIX")] *)
Fixpoint first_os_type (m : list (string * string)) (os : string) : string :=
  match m with
  | [] => "Linux/UNIX"
  | (k, v) :: m' => if contains k os then v else first_os_type m' os
  end.

(** The [os_type] that [get_price] computes before it asks the service. *)
Definition get_price_os_type (os : string) : string := first_os_type os_map os.

(** A row written by [write_report_file_to_csv]. *)
Record report_row : Type := {
  row_VM : string;
  row_Instance_Type : option string;
  row_Instance_Cost : option Z;
  row_Storage : Q;
  row_Storage_Cost : option Q;
  row_Total : Q;
  row_onDemand_Cost : option Z;
  row_1_Year_Reserved : option Z;
  row_3_Year_Reserved : option Z;
  row_Total_Cost : Q
}.

(** The totals that the report accumulates: on demand, one year, three years. *)
Record report_totals : Type := {
  total_on_demand : Z;
  total_one_year : Z;
  total_three_year : Q
}.

(** The host that a processed record is, when it is handed to
    [find_aws_instance] again: the keys the function reads. *)
Definition host_of_record (r : host_with_cost_details) : host := hs_host (hc_fields r).

Definition report_row_of (instance : host_with_cost_details) : report_row :=
  {| row_VM := host_VM (host_of_record instance);
     row_Instance_Type := hs_Instance_Type (hc_fields instance);
     row_Instance_Cost := hs_Instance_Cost (hc_fields instance);
     row_Storage := hs_Storage (hc_fields instance);
     row_Storage_Cost := hs_Storage_Cost (hc_fields instance);
     row_Total := hc_Total instance;
     row_onDemand_Cost := Instance_Cost (cd_onDemand (hc_Cost_Details instance));
     row_1_Year_Reserved := Instance_Cost (cd_one_year (hc_Cost_Details instance));
     row_3_Year_Reserved := Instance_Cost (cd_three_year (hc_Cost_Details instance));
     row_Total_Cost := hc_Total instance |}.

(** [x if x is not None else 0] *)
Definition or_zero (x : option Z) : Z := match x with Some z => z | None => 0 end.

Definition add_to_totals (t : report_totals) (r : report_row) : report_totals :=
  {| total_on_demand := total_on_demand t + or_zero (row_onDemand_Cost r);
     total_one_year := total_one_year t + or_zero (row_1_Year_Reserved r);
     total_three_year := (total_three_year t + row_Total_Cost r)%Q |}.

Section Report.
Variable get_price : string -> string -> pricing_model -> Q.
Variable get_storage_cost : result Q.

(** The loop of [write_report_file_to_csv] over the hosts: the rows written
    so far and the running totals. *)
Fixpoint report_loop (hosts : list host_with_cost_details) (disks : list disk)
    (types : list instance_type) (rows : list report_row) (totals : report_totals)
    : option (result (list report_row * report_totals)) :=
  match hosts with
  | [] => Some (Ok (rows, totals))
  | h :: hosts' =>
      match find_aws_instance get_price get_storage_cost (host_of_record h) disks types with
      | None => None
      | Some (Raise e) => Some (Raise e)
      | Some (Ok None) => report_loop hosts' disks types rows totals
      | Some (Ok (Some instance)) =>
          let r := report_row_of instance in
          report_loop hosts' disks types (rows ++ [r]) (add_to_totals totals r)
      end
  end.

(** [write_report_file_to_csv]: the rows written under the header, the
    totals row apart, and the totals returned. Writing the file is taken
    to succeed. *)
Definition write_report_file_to_csv (hosts : list host_with_cost_details)
    (disks : list disk) (types : list instance_type)
    : option (result (list report_row * report_totals)) :=
  match assert (negb (is_nil hosts) && negb (is_nil disks)) with
  | Raise e => Some (Raise e)
  | Ok _ =>
      report_loop hosts disks types []
        {| total_on_demand := 0; total_one_year := 0; total_three_year := 0 |}
  end.

(** The exit status of [main] from the two converted tables on: 1 where
    [main] returns 1, 0 at its end.  An exception of the PDF quote or of a
    report generator is caught by [main] and leaves the status as it is. *)
Definition main_exit_status (cpu_csv disk_csv : list row) (instance_types : list instance_type)
    : option Z :=
  match (let* min_cpu := get_minimum_cpu_size instance_types in
         let* min_ram := get_minimum_ram_size instance_types in
         Ok (min_cpu, min_ram)) with
  | Raise _ => Some 1
  | Ok (min_cpu, min_ram) =>
      match (let* hosts := load_host_records_from_csv cpu_csv min_cpu in
             let* hosts := process_host_ram hosts min_ram in
             let* disks := load_storage_records_from_csv disk_csv in
             Ok (hosts, disks)) with
      | Raise _ => Some 1
      | Ok (hosts, disks) =>
          if is_nil hosts || is_nil disks then Some 1
          else
            match collect get_price get_storage_cost hosts disks instance_types with
            | None => None
            | Some processed_host_records =>
                match write_report_file_to_csv processed_host_records disks instance_types with
                | None => None
                | Some (Raise _) => Some 1
                | Some (Ok _) => Some 0
                end
            end
      end
  end.
End Report.

(** ** Vocabulary of the further properties *)

(** The test of [lookup_type] on a catalog entry. *)
Definition matches (cpu : Z) (ram : Q) (itype : instance_type) : bool :=
  (it_CPU itype =? cpu) && Qeq_bool (it_RAM itype) ram.

(** The test of [get_least_expensive_option] on a price: none at hand. *)
Definition unavailableb (get_price : string -> string -> pricing_model -> Q)
    (os : string) (model : pricing_model) (instance : string) : bool :=
  Qeq_bool (get_price instance os model) 0.

(** The test of [get_csv_column_title] on a header cell. *)
Definition header_has (title value : string) : bool :=
  contains (lower title) (strip (lower value)).

(** How often [k] occurs in a list of identifiers. *)
Definition occurrences (k : string) (l : list string) : nat :=
  length (List.filter (String.eqb k) l).

(** The sum of a list of amounts. *)
Definition sum_Z (l : list Z) : Z := foldr Z.add 0 l.
Definition sum_Q (l : list Q) : Q := foldr Qplus 0%Q l.

(** A vCPU table whose second data row has a CPU cell that is no integer. *)
Definition cpu_csv_with_bad_cell : list row :=
  [ ["VM"; "CPUs"; "Max"; "OS according to the configuration file"];
    ["vm1"; "2"; "4,096"; "CentOS"];
    ["vm2"; "4.0"; "8,192"; "Windows"] ].

(** A machine with a disk record whose capacity is no integer. *)
Definition disks_with_bad_capacity : list disk :=
  [ {| disk_Capacity := "1,000"; disk_VM := "vm1" |};
    {| disk_Capacity := "2000.5"; disk_VM := "vm1" |} ].

(** A price service with prices 100.5 for "a", 100.25 for "b" and 7 for "c". *)
Definition three_prices (instance os : string) (model : pricing_model) : Q :=
  if String.eqb instance "a" then 201 # 2
  else if String.eqb instance "b" then 401 # 4
  else if String.eqb instance "c" then 7
  else 0.

(** The records of the two machines of the sample tables, priced with
    [three_prices]. *)
Definition sample_records : list host_with_cost_details :=
  Eval vm_compute in
    match main three_prices (Ok (1 # 10)) sample_cpu_csv sample_disk_csv scenario_catalog with
    | Some (Processed records _) => records
    | _ => []
    end.

(** * Properties *)

(** ** Evaluation of the primitives *)

Example int_of_string_commas : int_of_string (remove_commas "1,024") = Ok 1024.
Proof. reflexivity. Qed.

Example int_of_string_float_text : int_of_string "4.0" = Raise ValueError.
Proof. reflexivity. Qed.

Example round_half_even : (round (5 # 2), round (7 # 2), round (-5 # 2)) = (2, 4, -2).
Proof. reflexivity. Qed.

Example int_of_float_trunc : (int_of_float (43 # 4), int_of_float (-43 # 4)) = (10, -10).
Proof. reflexivity. Qed.

(** ** Rounding to hundredths *)

#[export] Instance round_comp : Proper (Qeq ==> eq) round.
Proof.
  intros x y Hxy. unfold round.
  rewrite (Qfloor_comp x y Hxy).
  assert (Hc : (x - inject_Z (Qfloor y) ?= 1 # 2)%Q = (y - inject_Z (Qfloor y) ?= 1 # 2)%Q)
    by (apply Qcompare_comp; [rewrite Hxy|]; reflexivity).
  now rewrite Hc.
Qed.

Lemma round_inject_Z (z : Z) : round (inject_Z z) = z.
Proof.
  unfold round. rewrite Qfloor_Z.
  assert (Hc : (inject_Z z - inject_Z z ?= 1 # 2)%Q = Lt).
  { rewrite <- Qlt_alt. setoid_replace (inject_Z z - inject_Z z)%Q with 0%Q using relation Qeq by ring.
    reflexivity. }
  now rewrite Hc.
Qed.

#[export] Instance format_2f_comp : Proper (Qeq ==> eq) format_2f.
Proof. intros x y Hxy. unfold format_2f. now rewrite Hxy. Qed.

#[export] Instance round_to_cents_comp : Proper (Qeq ==> Qeq) round_to_cents.
Proof. intros x y Hxy. unfold round_to_cents. now rewrite Hxy. Qed.

Lemma float_of_format_2f (x : Q) : float_of_2f (format_2f x) = round_to_cents x.
Proof. reflexivity. Qed.

(** Writing an amount of whole cents with ['%.2f'] and reading it back
    gives the amount again. *)
Lemma format_2f_float_of_2f (cents : Z) : format_2f (float_of_2f cents) = cents.
Proof.
  unfold format_2f, float_of_2f.
  setoid_replace (inject_Z cents / 100 * 100)%Q with (inject_Z cents) using relation Qeq by field.
  apply round_inject_Z.
Qed.

Lemma round_to_cents_idempotent (x : Q) :
  (round_to_cents (round_to_cents x) == round_to_cents x)%Q.
Proof.
  unfold round_to_cents at 1.
  change (round (round_to_cents x * 100)) with (format_2f (float_of_2f (format_2f x))).
  rewrite format_2f_float_of_2f. reflexivity.
Qed.

(** [round] is within one half of its argument. *)
Lemma round_close (x : Q) :
  (inject_Z (round x) - (1 # 2) <= x <= inject_Z (round x) + (1 # 2))%Q.
Proof.
  unfold round.
  pose proof (Qfloor_le x) as Hlo. pose proof (Qlt_floor x) as Hhi.
  rewrite inject_Z_plus in Hhi. change (inject_Z 1) with 1%Q in Hhi.
  set (f := inject_Z (Qfloor x)) in *.
  destruct (x - f ?= 1 # 2)%Q eqn:Hc.
  - apply Qeq_alt in Hc.
    assert (Hx : (x == f + (1 # 2))%Q) by (rewrite <- Hc; ring).
    destruct (Z.even (Qfloor x)).
    + fold f. rewrite Hx. split.
      * apply Qplus_le_r with (z := (1 # 2)%Q). ring_simplify. 
        apply Qplus_le_r with (z := (- f)%Q). ring_simplify. discriminate.
      * apply Qle_refl.
    + rewrite inject_Z_plus. change (inject_Z 1) with 1%Q. fold f. rewrite Hx. split.
      * setoid_replace (f + 1 - (1 # 2))%Q with (f + (1 # 2))%Q using relation Qeq by ring. apply Qle_refl.
      * apply Qplus_le_r with (z := (- f)%Q). ring_simplify. discriminate.
  - apply Qlt_alt in Hc. fold f. split.
    + apply Qle_trans with f; [|exact Hlo].
      apply Qplus_le_r with (z := (- f)%Q). ring_simplify. discriminate.
    + apply Qlt_le_weak.
      apply Qplus_lt_r with (z := (- f)%Q).
      setoid_replace (- f + x)%Q with (x - f)%Q using relation Qeq by ring.
      setoid_replace (- f + (f + (1 # 2)))%Q with (1 # 2)%Q using relation Qeq by ring. exact Hc.
  - apply Qgt_alt in Hc. rewrite inject_Z_plus. change (inject_Z 1) with 1%Q. fold f. split.
    + apply Qlt_le_weak.
      apply Qplus_lt_r with (z := (- f)%Q).
      setoid_replace (- f + x)%Q with (x - f)%Q using relation Qeq by ring.
      setoid_replace (- f + (f + 1 - (1 # 2)))%Q with (1 # 2)%Q using relation Qeq by ring. exact Hc.
    + apply Qle_trans with (f + 1)%Q; [apply Qlt_le_weak; exact Hhi|].
      apply Qplus_le_r with (z := (- (f + 1))%Q). ring_simplify. discriminate.
Qed.

(** ** The storage footprint and its cost *)

Section Storage_properties.
Variable get_storage_cost : result Q.

(** A disk of another machine is skipped without its capacity being read. *)
Lemma storage_mbytes_no_match (vm : string) (disks : list disk) (mbytes : Z) :
  Forall (fun d => disk_VM d <> vm) disks ->
  storage_mbytes vm disks mbytes = Ok mbytes.
Proof.
  induction 1 as [|d disks Hd _ IH]; simpl; [reflexivity|].
  destruct (String.eqb_spec (disk_VM d) vm); [contradiction|exact IH].
Qed.

(** The loop keeps the capacity of the last record of the machine only. *)
Lemma storage_mbytes_last (vm : string) (disks : list disk) (d : disk) (mbytes m n : Z) :
  disk_VM d = vm ->
  int_of_string (remove_commas (disk_Capacity d)) = Ok n ->
  storage_mbytes vm disks mbytes = Ok m ->
  storage_mbytes vm (disks ++ [d]) mbytes = Ok n.
Proof.
  intros Hvm Hn. revert mbytes.
  induction disks as [|d' disks IH]; intros mbytes Hok; simpl.
  - rewrite Hvm, String.eqb_refl, Hn. reflexivity.
  - simpl in Hok. destruct (String.eqb (disk_VM d') vm).
    + destruct (int_of_string (remove_commas (disk_Capacity d'))) as [k|e]; simpl in *.
      * apply IH, Hok.
      * discriminate.
    + apply IH, Hok.
Qed.

Lemma get_three_year_storage_cost_returns (h : host) (disks : list disk)
    (price : Q) (mbytes : Z) :
  get_storage_cost = Ok price ->
  disks <> [] ->
  storage_mbytes (host_VM h) disks 0 = Ok mbytes ->
  get_three_year_storage_cost get_storage_cost h disks =
    Ok {| Storage := inject_Z mbytes / 1000;
          Storage_Cost :=
            float_of_2f
              (format_2f (float_of_2f (format_2f (price * (inject_Z mbytes / 1000))) * 12 * 3)) |}.
Proof.
  intros Hp Hd Hm. unfold get_three_year_storage_cost.
  destruct disks; [contradiction|]. simpl assert. cbn [bind negb is_nil].
  rewrite Hp. cbn [bind]. rewrite Hm. reflexivity.
Qed.

Lemma get_three_year_storage_cost_inv (h : host) (disks : list disk) (sc : storage_cost) :
  get_three_year_storage_cost get_storage_cost h disks = Ok sc ->
  exists price mbytes,
    get_storage_cost = Ok price /\ disks <> [] /\
    storage_mbytes (host_VM h) disks 0 = Ok mbytes /\
    Storage sc = (inject_Z mbytes / 1000)%Q /\
    Storage_Cost sc = round_to_cents (round_to_cents (price * Storage sc) * 12 * 3).
Proof.
  unfold get_three_year_storage_cost. intros H.
  destruct disks as [|d disks]; [discriminate|]. cbn [assert bind negb is_nil] in H.
  destruct get_storage_cost as [price|]; [|discriminate]. cbn [bind] in H.
  destruct (storage_mbytes (host_VM h) (d :: disks) 0) as [mbytes|] eqn:Hm; [|discriminate].
  cbn [bind] in H. injection H as <-. exists price, mbytes.
  repeat split; try reflexivity. discriminate.
Qed.
End Storage_properties.

(** C1. A machine with two disk records, of 1,000 MB and 2,000 MB: the
    footprint computed is the 2 GB of the record read last, not the 3 GB
    that the two capacities sum to. *)
Theorem C1_footprint_is_last_record_not_sum :
  forall (price : Q) (cpus : Z) (ram : Q) (os : string),
    let h := {| host_CPUs := cpus; host_RAM := ram; host_VM := "vm1"; host_OS := os |} in
    let disks := [ {| disk_Capacity := "1,000"; disk_VM := "vm1" |};
                   {| disk_Capacity := "2,000"; disk_VM := "vm1" |} ] in
    exists sc,
      get_three_year_storage_cost (Ok price) h disks = Ok sc /\
      (Storage sc == 2)%Q /\
      ~ (Storage sc == (inject_Z 1000 + inject_Z 2000) / 1000)%Q.
Proof.
  intros price cpus ram os h disks.
  eexists. split.
  - apply (get_three_year_storage_cost_returns (Ok price) h disks price 2000);
      [reflexivity | discriminate | reflexivity].
  - split; cbn [Storage]; [reflexivity | discriminate].
Qed.

(** C10. A host none of whose disk records carries its machine identifier
    (in a list that is not empty): with a storage price at hand the
    computation returns, with a footprint of 0 GB and a cost of 0.00. *)
Theorem C10_no_disk_of_the_machine :
  forall (get_storage_cost : result Q) (price : Q) (h : host) (disks : list disk),
    get_storage_cost = Ok price ->
    disks <> [] ->
    Forall (fun d => disk_VM d <> host_VM h) disks ->
    exists sc,
      get_three_year_storage_cost get_storage_cost h disks = Ok sc /\
      (Storage sc == 0)%Q /\ (Storage_Cost sc == 0)%Q.
Proof.
  intros gsc price h disks Hp Hd Hno.
  eexists. split.
  - apply (get_three_year_storage_cost_returns gsc h disks price 0 Hp Hd).
    now apply storage_mbytes_no_match.
  - cbn [Storage Storage_Cost]. split; [reflexivity|].
    assert (H0 : (price * (inject_Z 0 / 1000) == 0)%Q) by (unfold Qeq; simpl; lia).
    rewrite H0. reflexivity.
Qed.

Lemma C10_no_disk_of_the_machine_witness :
  exists sc,
    get_three_year_storage_cost (Ok (1 # 10))
      {| host_CPUs := 2; host_RAM := 4; host_VM := "vm2"; host_OS := "CentOS" |}
      [ {| disk_Capacity := "1,000"; disk_VM := "vm1" |} ] = Ok sc /\
    (Storage sc == 0)%Q /\ (Storage_Cost sc == 0)%Q.
Proof.
  apply (C10_no_disk_of_the_machine (Ok (1 # 10)) (1 # 10)).
  - reflexivity.
  - discriminate.
  - repeat constructor. discriminate.
Defined.

(** ** Sorting *)

Section Sorting_membership.
Context {A K : Type} (key : A -> K) (ltb : K -> K -> bool).

Lemma insert_by_In (x y : A) (l : list A) :
  In y (insert_by key ltb x l) <-> y = x \/ In y l.
Proof.
  induction l as [|z l IH]; simpl.
  - intuition.
  - destruct (ltb (key z) (key x)); simpl; rewrite ?IH; intuition.
Qed.

Lemma sorted_In (x : A) (l : list A) : In x (sorted key ltb l) <-> In x l.
Proof.
  induction l as [|y l IH]; simpl; [reflexivity|].
  rewrite insert_by_In, IH. intuition.
Qed.

Lemma sorted_length (l : list A) : length (sorted key ltb l) = length l.
Proof.
  assert (Hi : forall x l', length (insert_by key ltb x l') = S (length l')).
  { intros x l'. induction l' as [|z l' IH]; simpl; [reflexivity|].
    destruct (ltb (key z) (key x)); simpl; now rewrite ?IH. }
  induction l as [|y l IH]; simpl; [reflexivity|]. now rewrite Hi, IH.
Qed.
End Sorting_membership.

Section Sorting_properties.
Context {A K : Type} (key : A -> K) (ltb : K -> K -> bool) (le : K -> K -> Prop).

Hypothesis le_refl : forall a, le a a.
Hypothesis le_trans : forall a b c, le a b -> le b c -> le a c.
Hypothesis ltb_le : forall a b, ltb a b = true -> le a b.
Hypothesis nltb_le : forall a b, ltb a b = false -> le b a.

Let le_key (a b : A) : Prop := le (key a) (key b).

Lemma insert_by_sorted (x : A) (l : list A) :
  StronglySorted le_key l -> StronglySorted le_key (insert_by key ltb x l).
Proof.
  induction 1 as [|z l Hs IH Hz]; simpl.
  - repeat constructor.
  - destruct (ltb (key z) (key x)) eqn:Hzx.
    + constructor; [exact IH|].
      apply List.Forall_forall. intros y Hy. apply insert_by_In in Hy as [->|Hy].
      * apply ltb_le, Hzx.
      * rewrite List.Forall_forall in Hz. now apply Hz.
    + constructor; [now constructor|].
      constructor; [apply nltb_le, Hzx|].
      rewrite List.Forall_forall in Hz |- *. intros y Hy.
      apply le_trans with (key z); [apply nltb_le, Hzx | now apply Hz].
Qed.

Lemma sorted_sorted (l : list A) : StronglySorted le_key (sorted key ltb l).
Proof.
  induction l as [|x l IH]; simpl; [constructor | now apply insert_by_sorted].
Qed.

(** The first element of a sorted list has the least key. *)
Lemma sorted_head_min (l r : list A) (x : A) :
  sorted key ltb l = x :: r -> forall y, In y l -> le (key x) (key y).
Proof.
  intros Hs y Hy. apply (sorted_In key ltb y) in Hy. rewrite Hs in Hy.
  pose proof (sorted_sorted l) as Hss. rewrite Hs in Hss.
  apply StronglySorted_inv in Hss as [_ Hall].
  destruct Hy as [<-|Hy]; [apply le_refl|].
  rewrite List.Forall_forall in Hall. now apply Hall.
Qed.
End Sorting_properties.

(** ** The least expensive option *)

Lemma dict_set_In_same {V : Type} (d : list (string * V)) (k : string) (v : V) :
  In (k, v) (dict_set d k v).
Proof.
  induction d as [|[k' v'] d IH]; simpl; [now left|].
  destruct (String.eqb_spec k' k) as [->|_]; simpl; auto.
Qed.

Lemma dict_set_In_other {V : Type} (d : list (string * V)) (j k : string) (w v : V) :
  j <> k -> In (j, w) d -> In (j, w) (dict_set d k v).
Proof.
  intros Hjk. induction d as [|[k' v'] d IH]; simpl; [tauto|].
  intros [Heq|Hin].
  - injection Heq as -> ->.
    destruct (String.eqb_spec j k); [contradiction|now left].
  - destruct (String.eqb k' k); simpl; auto.
Qed.

Lemma dict_set_In_inv {V : Type} (d : list (string * V)) (j k : string) (w v : V) :
  In (j, w) (dict_set d k v) -> (j = k /\ w = v) \/ In (j, w) d.
Proof.
  induction d as [|[k' v'] d IH]; simpl.
  - intros [Heq|[]]. injection Heq as -> ->. now left.
  - destruct (String.eqb_spec k' k) as [->|_]; simpl.
    + intros [Heq|Hin]; [injection Heq as -> ->; now left | now right; right].
    + intros [Heq|Hin]; [now right; left|].
      destruct (IH Hin) as [?|?]; [now left | now right; right].
Qed.

Section Pricing_properties.
Variable get_price : string -> string -> pricing_model -> Q.
Variables (os : string) (model : pricing_model).

Let step := price_step get_price os model.

Lemma prices_sound (instances : list string) (st : pricing_state) (k : string) (v : Q) :
  In (k, v) (ps_prices (fold_left step instances st)) ->
  In (k, v) (ps_prices st) \/
  (In k instances /\ v = get_price k os model /\ available get_price os model k).
Proof.
  revert st. induction instances as [|i instances IH]; intros st; simpl; [now left|].
  intros Hin. destruct (IH _ Hin) as [Hst|(Hk & Hv & Ha)]; [|right; auto].
  unfold step, price_step in Hst.
  destruct (Qeq_bool (get_price i os model) 0) eqn:Hz; simpl in Hst; [now left|].
  destruct (dict_set_In_inv _ _ _ _ _ Hst) as [[-> ->]|Hd]; [|now left].
  right. repeat split; [now left|]. now apply Qeq_bool_neq.
Qed.

Lemma prices_complete (instances : list string) (st : pricing_state) (j : string) :
  available get_price os model j ->
  In j instances \/ In (j, get_price j os model) (ps_prices st) ->
  In (j, get_price j os model) (ps_prices (fold_left step instances st)).
Proof.
  intros Ha. revert st.
  induction instances as [|i instances IH]; intros st; simpl; [tauto|].
  intros H. apply IH. unfold step, price_step.
  destruct (Qeq_bool (get_price i os model) 0) eqn:Hz; simpl.
  - destruct H as [[->|Hin]|Hst]; auto.
    apply Qeq_bool_iff in Hz. contradiction.
  - destruct (String.eqb_spec j i) as [->|Hne].
    + right. apply dict_set_In_same.
    + destruct H as [[->|Hin]|Hst]; [contradiction | now left |].
      right. now apply dict_set_In_other.
Qed.

Lemma prices_ignore_count (instances : list string) (st st' : pricing_state) :
  ps_prices st = ps_prices st' ->
  ps_prices (fold_left step instances st) = ps_prices (fold_left step instances st').
Proof.
  revert st st'. induction instances as [|i instances IH]; intros st st' H; simpl; [exact H|].
  apply IH. unfold step, price_step.
  destruct (Qeq_bool (get_price i os model) 0); simpl; now rewrite ?H.
Qed.

(** The counter handed in has no part in the choice. *)
Lemma least_expensive_ignores_count (instances : list string) (count count' : Counter) :
  fst (fst (get_least_expensive_option get_price instances os model count)) =
  fst (fst (get_least_expensive_option get_price instances os model count')).
Proof.
  unfold get_least_expensive_option.
  destruct (is_nil instances); [reflexivity|].
  destruct (String.eqb os ""); [reflexivity|].
  pose proof (prices_ignore_count instances
                {| ps_prices := []; ps_invalid_instances := []; ps_count := count |}
                {| ps_prices := []; ps_invalid_instances := []; ps_count := count' |}
                eq_refl) as Hp.
  unfold step in Hp. rewrite Hp.
  match goal with |- context [sorted ?k ?lt ?l] => destruct (sorted k lt l) end; reflexivity.
Qed.

(** With no offering priced, the answer names no offering. *)
Lemma least_expensive_none (instances : list string) (count : Counter) :
  (forall i, In i instances -> (get_price i os model == 0)%Q) ->
  fst (fst (get_least_expensive_option get_price instances os model count)) =
    no_type_and_cost.
Proof.
  intros Hnone. unfold get_least_expensive_option.
  destruct (is_nil instances); [reflexivity|].
  destruct (String.eqb os ""); [reflexivity|].
  match goal with |- context [sorted ?k ?lt ?l] => destruct (sorted k lt l) as [|best rest] eqn:Hs end;
    [reflexivity|].
  exfalso.
  assert (Hin : In best (best :: rest)) by now left.
  rewrite <- Hs in Hin. apply sorted_In in Hin.
  destruct best as [k v].
  destruct (prices_sound _ _ _ _ Hin) as [[]|(Hk & _ & Ha)].
  apply Ha, Hnone, Hk.
Qed.
End Pricing_properties.

(** What the sort key [int(x[1])] does guarantee. For a list of candidates
    that is not empty, an operating system string that is not empty and any
    pricing model: when some candidate is priced,
    [get_least_expensive_option] names a priced candidate and reports its
    price cut to whole dollars, and that whole-dollar price is at most the
    whole-dollar price of every priced candidate. *)
Lemma least_expensive_whole_dollars :
  forall (get_price : string -> string -> pricing_model -> Q)
         (instances : list string) (os : string) (model : pricing_model) (count : Counter),
    instances <> [] ->
    os <> "" ->
    (exists i, In i instances /\ available get_price os model i) ->
    exists best,
      fst (fst (get_least_expensive_option get_price instances os model count)) =
        {| Instance_Type := Some best;
           Instance_Cost := Some (int_of_float (get_price best os model)) |} /\
      In best instances /\
      available get_price os model best /\
      forall j, In j instances -> available get_price os model j ->
                int_of_float (get_price best os model) <= int_of_float (get_price j os model).
Proof.
  intros gp instances os model count Hne Hos (i & Hi & Hai).
  unfold get_least_expensive_option.
  assert (Hnil : is_nil instances = false)
    by (destruct instances; [contradiction | reflexivity]).
  rewrite Hnil.
  destruct (String.eqb_spec os "") as [->|_]; [contradiction|].
  set (st := fold_left (price_step gp os model) instances _).
  destruct (sorted (fun x : string * Q => int_of_float (snd x)) Z.ltb (ps_prices st))
    as [|[k v] rest] eqn:Hs.
  - exfalso.
    assert (Hin : In (i, gp i os model) (ps_prices st))
      by (apply prices_complete; [exact Hai | now left]).
    apply (sorted_In (fun x : string * Q => int_of_float (snd x)) Z.ltb) in Hin.
    rewrite Hs in Hin. destruct Hin.
  - assert (Hin : In (k, v) (ps_prices st)).
    { apply (sorted_In (fun x : string * Q => int_of_float (snd x)) Z.ltb).
      rewrite Hs. now left. }
    destruct (prices_sound gp os model _ _ _ _ Hin) as [[]|(Hk & -> & Ha)].
    exists k. cbn [fst snd]. repeat split; auto.
    intros j Hj Haj.
    assert (Hjin : In (j, gp j os model) (ps_prices st))
      by (apply prices_complete; [exact Haj | now left]).
    apply (sorted_head_min (fun x : string * Q => int_of_float (snd x)) Z.ltb Z.le
             Z.le_refl Z.le_trans) with (y := (j, gp j os model)) in Hs; auto.
    + intros a b H. apply Z.ltb_lt in H. lia.
    + intros a b H. apply Z.ltb_ge in H. lia.
Qed.

(** C2. [get_least_expensive_option] does not return a least expensive
    candidate. Its sort key is the price cut to whole dollars, so priced
    candidates whose prices have the same whole part tie, and the stable
    sort keeps the one priced first. With the hourly prices 0.096 for "a"
    and 0.0832 for "b", "a" is returned, at a cost of 0, although "b" is
    priced and costs less; with 10.75 for "a" and 10.25 for "b", "a" is
    returned at a cost of 10 although "b" costs less. *)
Theorem C2_dearer_candidate_is_returned :
  (fst (fst (get_least_expensive_option hourly_prices ["a"; "b"] "CentOS" onDemand ∅)) =
     {| Instance_Type := Some "a"; Instance_Cost := Some 0 |} /\
   available hourly_prices "CentOS" onDemand "b" /\
   (hourly_prices "b" "CentOS" onDemand < hourly_prices "a" "CentOS" onDemand)%Q) /\
  (fst (fst (get_least_expensive_option two_prices ["a"; "b"] "CentOS"
               three_year_Reserved ∅)) =
     {| Instance_Type := Some "a"; Instance_Cost := Some 10 |} /\
   available two_prices "CentOS" three_year_Reserved "b" /\
   (two_prices "b" "CentOS" three_year_Reserved
    < two_prices "a" "CentOS" three_year_Reserved)%Q).
Proof.
  split; (split; [reflexivity | split; [intros H; discriminate H | reflexivity]]).
Qed.

(** ** The grand total *)

Lemma get_total_cost_eq (h : host_with_storage_cost) :
  get_total_cost h =
    round_to_cents
      ((match hs_Instance_Cost h with Some c => inject_Z c | None => 0 end) +
       (match hs_Storage_Cost h with Some c => c | None => 0 end)).
Proof. reflexivity. Qed.

Section Host_properties.
Variable get_price : string -> string -> pricing_model -> Q.
Variable get_storage_cost : result Q.

(** What a returned record is made of. *)
Lemma find_aws_instance_inv (h : host) (disks : list disk) (types : list instance_type)
    (r : host_with_cost_details) :
  find_aws_instance get_price get_storage_cost h disks types = Some (Ok (Some r)) ->
  exists instances sc,
    get_correct_instance_size (host_CPUs h) (host_RAM h) types = Some (Ok instances) /\
    get_three_year_storage_cost get_storage_cost h disks = Ok sc /\
    hs_host (hc_fields r) = h /\
    hs_Storage (hc_fields r) = Storage sc /\
    hs_Storage_Cost (hc_fields r) = Some (Storage_Cost sc) /\
    hc_Total r = get_total_cost (hc_fields r) /\
    (forall count,
        {| Instance_Type := hs_Instance_Type (hc_fields r);
           Instance_Cost := hs_Instance_Cost (hc_fields r) |} =
          fst (fst (get_least_expensive_option get_price instances (host_OS h)
                      three_year_Reserved count))) /\
    (forall count,
        cd_three_year (hc_Cost_Details r) =
          fst (fst (get_least_expensive_option get_price instances (host_OS h)
                      three_year_Reserved count))) /\
    (forall count,
        cd_one_year (hc_Cost_Details r) =
          fst (fst (get_least_expensive_option get_price instances (host_OS h)
                      one_year_Reserved count))) /\
    (forall count,
        cd_onDemand (hc_Cost_Details r) =
          fst (fst (get_least_expensive_option get_price instances (host_OS h)
                      onDemand count))).
Proof.
  unfold find_aws_instance, find_aws_instance_counting. intros H.
  destruct (get_correct_instance_size (host_CPUs h) (host_RAM h) types)
    as [[instances|e]|]; try discriminate.
  destruct (is_nil instances); [discriminate|].
  destruct (get_least_expensive_option get_price instances (host_OS h) onDemand ∅)
    as [[c1 inv1] cnt1] eqn:H1.
  destruct (get_least_expensive_option get_price instances (host_OS h) one_year_Reserved cnt1)
    as [[c2 inv2] cnt2] eqn:H2.
  destruct (get_least_expensive_option get_price instances (host_OS h) three_year_Reserved cnt2)
    as [[c3 inv3] cnt3] eqn:H3.
  destruct (get_three_year_storage_cost get_storage_cost h disks) as [sc|e] eqn:Hsc;
    cbn [bind] in H; [|discriminate].
  injection H as <-.
  assert (E3 : forall count,
             fst (fst (get_least_expensive_option get_price instances (host_OS h)
                         three_year_Reserved count)) = c3)
    by (intros; now rewrite (least_expensive_ignores_count get_price (host_OS h)
                               three_year_Reserved instances count cnt2), H3).
  assert (E2 : forall count,
             fst (fst (get_least_expensive_option get_price instances (host_OS h)
                         one_year_Reserved count)) = c2)
    by (intros; now rewrite (least_expensive_ignores_count get_price (host_OS h)
                               one_year_Reserved instances count cnt1), H2).
  assert (E1 : forall count,
             fst (fst (get_least_expensive_option get_price instances (host_OS h)
                         onDemand count)) = c1)
    by (intros; now rewrite (least_expensive_ignores_count get_price (host_OS h)
                               onDemand instances count ∅), H1).
  exists instances, sc. cbn.
  repeat split; try reflexivity; intros; rewrite ?E3, ?E2, ?E1; try reflexivity.
  now destruct c3.
Qed.
End Host_properties.

(** ** The orders on catalog values *)

Lemma Zltb_le (a b : Z) : (a <? b) = true -> a <= b.
Proof. intros H. apply Z.ltb_lt in H. lia. Qed.

Lemma Zltb_ge (a b : Z) : (a <? b) = false -> b <= a.
Proof. intros H. apply Z.ltb_ge in H. exact H. Qed.

Lemma Qltb_lt (a b : Q) : Qltb a b = true <-> (a < b)%Q.
Proof.
  unfold Qltb. rewrite negb_true_iff. split.
  - intros H. apply Qnot_le_lt. intros Hle. apply Qle_bool_iff in Hle. congruence.
  - intros H. destruct (Qle_bool b a) eqn:Hb; [|reflexivity].
    apply Qle_bool_iff in Hb. exfalso. exact (Qlt_not_le _ _ H Hb).
Qed.

Lemma Qltb_ge (a b : Q) : Qltb a b = false <-> (b <= a)%Q.
Proof.
  unfold Qltb. rewrite negb_false_iff. apply Qle_bool_iff.
Qed.

Lemma Qltb_le (a b : Q) : Qltb a b = true -> (a <= b)%Q.
Proof. intros H. apply Qlt_le_weak, Qltb_lt, H. Qed.

Lemma Qltb_false_le (a b : Q) : Qltb a b = false -> (b <= a)%Q.
Proof. apply Qltb_ge. Qed.

(** ** The smallest values of the catalog *)

Lemma getitem_0_inv {A : Type} (l : list A) (x : A) :
  getitem l O = Ok x -> exists r, l = x :: r.
Proof.
  destruct l as [|y r]; unfold getitem; simpl; [discriminate|].
  intros H. injection H as ->. now exists r.
Qed.

Lemma get_minimum_cpu_size_least (types : list instance_type) (min_cpu : Z) :
  get_minimum_cpu_size types = Ok min_cpu ->
  (exists t, In t types /\ it_CPU t = min_cpu) /\
  (forall t, In t types -> min_cpu <= it_CPU t).
Proof.
  unfold get_minimum_cpu_size. intros H.
  destruct (getitem (sorted it_CPU Z.ltb types) 0) as [first|] eqn:Hg; [|discriminate].
  injection H as <-. apply getitem_0_inv in Hg as [r Hs]. split.
  - exists first. split; [|reflexivity].
    apply (sorted_In it_CPU Z.ltb). rewrite Hs. now left.
  - intros t Ht.
    exact (sorted_head_min it_CPU Z.ltb Z.le Z.le_refl Z.le_trans Zltb_le Zltb_ge
             types r first Hs t Ht).
Qed.

Lemma get_minimum_ram_size_least (types : list instance_type) (min_ram : Q) :
  get_minimum_ram_size types = Ok min_ram ->
  (exists t, In t types /\ it_RAM t = min_ram) /\
  (forall t, In t types -> (min_ram <= it_RAM t)%Q).
Proof.
  unfold get_minimum_ram_size. intros H.
  destruct (getitem (sorted it_RAM Qltb types) 0) as [first|] eqn:Hg; [|discriminate].
  injection H as <-. apply getitem_0_inv in Hg as [r Hs]. split.
  - exists first. split; [|reflexivity].
    apply (sorted_In it_RAM Qltb). rewrite Hs. now left.
  - intros t Ht.
    exact (sorted_head_min it_RAM Qltb Qle Qle_refl Qle_trans Qltb_le Qltb_false_le
             types r first Hs t Ht).
Qed.

(** ** Loading the host records *)

Lemma for_each_In {A B : Type} (f : A -> result B) (l : list A) (ys : list B) :
  for_each f l = Ok ys ->
  forall y, In y ys -> exists x, In x l /\ f x = Ok y.
Proof.
  revert ys. induction l as [|x l IH]; simpl; intros ys H y Hy.
  - injection H as <-. destruct Hy.
  - destruct (f x) as [y0|] eqn:Hfx; [|discriminate]. cbn [bind] in H.
    destruct (for_each f l) as [ys0|]; [|discriminate]. cbn [bind] in H.
    injection H as <-. destruct Hy as [<-|Hy].
    + exists x. split; [now left | exact Hfx].
    + destruct (IH ys0 eq_refl y Hy) as (x' & Hx' & Hf). exists x'. split; [now right | exact Hf].
Qed.

Lemma load_host_record_clamped (c r v o : nat) (min_cpu : Z) (cells : row) (h : raw_host) :
  load_host_record c r v o min_cpu cells = Ok h -> min_cpu <= raw_CPUs h.
Proof.
  unfold load_host_record. intros H.
  destruct (getitem cells c) as [cpu_cell|]; [|discriminate]. cbn [bind] in H.
  destruct (int_of_string cpu_cell) as [n|] eqn:Hn; [|discriminate]. cbn [bind] in H.
  destruct (n <? min_cpu) eqn:Hlt; cbn [bind] in H;
    (destruct (getitem cells r); [|discriminate]); cbn [bind] in H;
    (destruct (getitem cells v); [|discriminate]); cbn [bind] in H;
    (destruct (getitem cells o); [|discriminate]); cbn [bind] in H;
    injection H as <-; cbn [raw_CPUs].
  - lia.
  - apply Z.ltb_ge in Hlt. exact Hlt.
Qed.

Lemma set_minimum_ram_size_for_instance_clamped (ram : string) (min_ram gig : Q) :
  set_minimum_ram_size_for_instance ram min_ram = Ok gig -> (min_ram <= gig)%Q.
Proof.
  unfold set_minimum_ram_size_for_instance. intros H.
  destruct (int_of_string ram) as [n|]; [|discriminate]. cbn [bind] in H.
  injection H as <-.
  destruct (Qltb min_ram _) eqn:Hlt; [now apply Qltb_le | apply Qle_refl].
Qed.

Lemma process_one_host_ram_clamped (min_ram : Q) (rh : raw_host) (h : host) :
  process_one_host_ram min_ram rh = Ok h ->
  host_CPUs h = raw_CPUs rh /\ (min_ram <= host_RAM h)%Q.
Proof.
  unfold process_one_host_ram. intros H.
  destruct (set_minimum_ram_size_for_instance _ min_ram) as [gig|] eqn:Hg; [|discriminate].
  cbn [bind] in H. injection H as <-. cbn. split; [reflexivity|].
  eapply set_minimum_ram_size_for_instance_clamped, Hg.
Qed.

(** C9. Every host record built from the inventory table has a CPU count
    at least the smallest vCPU count of the catalog and, after the RAM is
    normalized, a RAM size at least the smallest memory size of the catalog. *)
Theorem C9_requirement_clamped_to_catalog_minimum :
  forall (types : list instance_type) (cpu_csv : list row)
         (min_cpu : Z) (min_ram : Q) (raw : list raw_host) (hosts : list host),
    get_minimum_cpu_size types = Ok min_cpu ->
    get_minimum_ram_size types = Ok min_ram ->
    load_host_records_from_csv cpu_csv min_cpu = Ok raw ->
    process_host_ram raw min_ram = Ok hosts ->
    ((exists t, In t types /\ it_CPU t = min_cpu) /\
     (forall t, In t types -> min_cpu <= it_CPU t)) /\
    ((exists t, In t types /\ it_RAM t = min_ram) /\
     (forall t, In t types -> (min_ram <= it_RAM t)%Q)) /\
    forall h, In h hosts -> min_cpu <= host_CPUs h /\ (min_ram <= host_RAM h)%Q.
Proof.
  intros types cpu_csv min_cpu min_ram raw hosts Hcpu Hram Hload Hproc.
  split; [now apply get_minimum_cpu_size_least|].
  split; [now apply get_minimum_ram_size_least|].
  intros h Hh.
  destruct (for_each_In _ _ _ Hproc h Hh) as (rh & Hrh & Hone).
  apply process_one_host_ram_clamped in Hone as [Hc Hr].
  split; [|exact Hr]. rewrite Hc.
  unfold load_host_records_from_csv in Hload.
  destruct cpu_csv as [|title_row rows]; [injection Hload as <-; destruct Hrh|].
  destruct (get_csv_column_title title_row ["CPUs"]) as [c|]; [|discriminate].
  destruct (get_csv_column_title title_row ["Max"]) as [r|]; [|discriminate].
  destruct (get_csv_column_title title_row ["VM"]) as [v|]; [|discriminate].
  destruct (get_csv_column_title title_row ["OS according to the configuration file"])
    as [o|]; [|discriminate].
  cbn [bind] in Hload.
  destruct (for_each_In _ _ _ Hload rh Hrh) as (cells & _ & Hcells).
  eapply load_host_record_clamped, Hcells.
Qed.

Lemma C9_requirement_clamped_to_catalog_minimum_witness :
  2 <= host_CPUs sample_host /\ (4 <= host_RAM sample_host)%Q.
Proof.
  refine (proj2 (proj2 (C9_requirement_clamped_to_catalog_minimum
                          scenario_catalog sample_cpu_csv 2 4
                          [ {| raw_CPUs := 2; raw_RAM := "2,048"; raw_VM := "vm1";
                               raw_OS := "CentOS" |};
                            {| raw_CPUs := 3; raw_RAM := "5,000"; raw_VM := "vm2";
                               raw_OS := "Windows" |} ]
                          [ sample_host;
                            {| host_CPUs := 3; host_RAM := 5; host_VM := "vm2";
                               host_OS := "Windows" |} ]
                          _ _ _ _)) sample_host _);
    try reflexivity.
  left. reflexivity.
Defined.

(** ** The batch *)

Lemma first_column_raises (title_row : row) (titles : list string) (e : exn) :
  first_column title_row titles = Raise e -> e = ValueError.
Proof.
  induction titles as [|title titles IH]; simpl.
  - intros H. now injection H as <-.
  - destruct (find_column title title_row 0); [discriminate | exact IH].
Qed.

(** A header row lacks a required column of the disk table when the lookup
    of the capacity column or of the VM column ends in [ValueError]. *)
Lemma storage_columns_missing (title_row : row) :
  get_csv_column_title title_row ["Capacity MB"; "Capacity MiB"; "Capacity"] = Raise ValueError \/
  get_csv_column_title title_row ["VM"] = Raise ValueError ->
  storage_columns title_row = Ok None.
Proof.
  unfold storage_columns, get_csv_column_title.
  destruct title_row as [|cell cells]; [intros [H|H]; discriminate|].
  cbn [is_nil negb andb assert bind].
  intros [H|H].
  - now rewrite H.
  - destruct (first_column (cell :: cells) ["Capacity MB"; "Capacity MiB"; "Capacity"])
      as [c|e] eqn:Hc; cbn [bind].
    + now rewrite H.
    + now rewrite (first_column_raises _ _ _ Hc).
Qed.

Section Batch_properties.
Variable get_price : string -> string -> pricing_model -> Q.
Variable get_storage_cost : result Q.

(** [main] stops with exit status 1 whenever no disk record was loaded. *)
Lemma main_without_disks (cpu_csv disk_csv : list row) (types : list instance_type) :
  load_storage_records_from_csv disk_csv = Ok [] ->
  main get_price get_storage_cost cpu_csv disk_csv types = Some Exit_1.
Proof.
  intros Hd. unfold main.
  destruct (get_minimum_cpu_size types) as [min_cpu|]; [|reflexivity]. cbn [bind].
  destruct (get_minimum_ram_size types) as [min_ram|]; [|reflexivity]. cbn [bind].
  destruct (load_host_records_from_csv cpu_csv min_cpu) as [raw|]; [|reflexivity]. cbn [bind].
  destruct (process_host_ram raw min_ram) as [hosts|]; [|reflexivity]. cbn [bind].
  rewrite Hd. cbn [bind is_nil]. now rewrite orb_true_r.
Qed.

(** The counter that [main] reports is the one it created: no call hands
    it to a worker. *)
Lemma main_tally_empty (cpu_csv disk_csv : list row) (types : list instance_type)
    (records : list host_with_cost_details) (tally : Counter) :
  main get_price get_storage_cost cpu_csv disk_csv types = Some (Processed records tally) ->
  tally = ∅.
Proof.
  unfold main. intros H.
  destruct (get_minimum_cpu_size types) as [min_cpu|]; [|discriminate]. cbn [bind] in H.
  destruct (get_minimum_ram_size types) as [min_ram|]; [|discriminate]. cbn [bind] in H.
  destruct (load_host_records_from_csv cpu_csv min_cpu) as [raw|]; [|discriminate].
  cbn [bind] in H.
  destruct (process_host_ram raw min_ram) as [hosts|]; [|discriminate]. cbn [bind] in H.
  destruct (load_storage_records_from_csv disk_csv) as [disks|]; [|discriminate].
  cbn [bind] in H.
  destruct (is_nil hosts || is_nil disks); [discriminate|].
  destruct (collect get_price get_storage_cost hosts disks types); [|discriminate].
  now injection H as _ <-.
Qed.
End Batch_properties.

(** C8, as the code has it. When the header of the disk table lacks a
    required column, the loader raises nothing and returns no storage record;
    [main] then stops with exit status 1 before any machine is priced. *)
Theorem C8_missing_disk_column_ends_the_run :
  forall (get_price : string -> string -> pricing_model -> Q) (get_storage_cost : result Q)
         (cpu_csv : list row) (title_row : row) (rows : list row)
         (types : list instance_type),
    get_csv_column_title title_row ["Capacity MB"; "Capacity MiB"; "Capacity"]
      = Raise ValueError \/
    get_csv_column_title title_row ["VM"] = Raise ValueError ->
    load_storage_records_from_csv (title_row :: rows) = Ok [] /\
    main get_price get_storage_cost cpu_csv (title_row :: rows) types = Some Exit_1.
Proof.
  intros gp gsc cpu_csv title_row rows types Hmissing.
  assert (Hload : load_storage_records_from_csv (title_row :: rows) = Ok []).
  { unfold load_storage_records_from_csv.
    now rewrite (storage_columns_missing title_row Hmissing). }
  split; [exact Hload | now apply main_without_disks].
Qed.

Lemma C8_missing_disk_column_ends_the_run_witness :
  load_storage_records_from_csv disk_csv_without_capacity = Ok [] /\
  main two_prices (Ok (1 # 10)) sample_cpu_csv disk_csv_without_capacity scenario_catalog
    = Some Exit_1.
Proof.
  apply (C8_missing_disk_column_ends_the_run two_prices (Ok (1 # 10)) sample_cpu_csv
           ["VM"; "Disk"] [["vm1"; "Hard disk 1"]] scenario_catalog).
  left. reflexivity.
Defined.

(** C8 as stated fails: the header of the disk table has no capacity
    column, and the run ends with exit status 1 and no result, although
    with a complete disk table the same two machines are priced. *)
Lemma C8_counterexample :
  get_csv_column_title ["VM"; "Disk"] ["Capacity MB"; "Capacity MiB"; "Capacity"]
    = Raise ValueError /\
  main two_prices (Ok (1 # 10)) sample_cpu_csv disk_csv_without_capacity scenario_catalog
    = Some Exit_1 /\
  exists r1 r2,
    main two_prices (Ok (1 # 10)) sample_cpu_csv sample_disk_csv scenario_catalog
      = Some (Processed [r1; r2] ∅).
Proof.
  split; [reflexivity|]. split; [reflexivity|].
  eexists. eexists. vm_compute. reflexivity.
Qed.

(** C5. A batch of two machines with no price at hand: the worker of
    machine "vm1" counts three pricing attempts of offering "a" that found
    no price, one per pricing model, yet the tally that [main] reports at
    the end holds nothing for "a". *)
Theorem C5_reported_tally_misses_invalid_offerings :
  exists records r count,
    main no_price (Ok (1 # 10)) sample_cpu_csv sample_disk_csv scenario_catalog
      = Some (Processed records ∅) /\
    find_aws_instance_counting no_price (Ok (1 # 10)) sample_host sample_disks scenario_catalog
      = Some (Ok (Some r, count)) /\
    In r records /\
    counter_get count "a" = 3%nat /\
    counter_get (∅ : Counter) "a" = 0%nat.
Proof.
  eexists. eexists. eexists.
  split; [vm_compute; reflexivity|].
  split; [vm_compute; reflexivity|].
  split; [left; reflexivity|].
  split; vm_compute; reflexivity.
Qed.

(** ** The size resolution on the scenarios *)

(** C3. On the catalog of the scenarios, a requirement of 4 CPUs and 12 GB
    has the ceiling pair (4, 16), which offering "c" matches, at the largest
    RAM tier; the resolution raises [AssertionError] instead of returning
    "c". A requirement of 3 CPUs and 5 GB, matched below the largest tier,
    is resolved to "b". *)
Theorem C3_match_at_largest_tier_raises :
  lookup_type 4 16 scenario_catalog = Ok ["c"] /\
  get_next_ram_size (extract_list_from_instance_types Qeq_bool Qltb it_RAM scenario_catalog) 16
    = Raise AssertionError /\
  get_correct_instance_size 4 12 scenario_catalog = Some (Raise AssertionError) /\
  get_correct_instance_size 3 5 scenario_catalog = Some (Ok ["b"]).
Proof. repeat split; reflexivity. Qed.

(** ** Sets, ascending lists and binary search *)

Section Ordered_lists.
Context {A : Type} (ltb eqb : A -> A -> bool).
Hypothesis ltb_trans : forall a b c, ltb a b = true -> ltb b c = true -> ltb a c = true.
Hypothesis eqb_sym : forall a b, eqb a b = eqb b a.
Hypothesis ltb_or_eqb : forall a b, ltb b a = false -> eqb a b = false -> ltb a b = true.

Lemma distinct_snoc (s : list A) (x : A) :
  distinct eqb s -> (forall y, In y s -> eqb x y = false) -> distinct eqb (s ++ [x]).
Proof.
  induction s as [|z s IH]; simpl; intros Hd Hx.
  - split; [intros y []|exact I].
  - destruct Hd as [Hz Hd]. split.
    + intros y Hy. apply in_app_or in Hy as [Hy|[<-|[]]]; [now apply Hz|].
      rewrite eqb_sym. apply Hx. now left.
    + apply IH; [exact Hd|]. intros y Hy. apply Hx. now right.
Qed.

Lemma set_add_distinct (s : list A) (x : A) :
  distinct eqb s -> distinct eqb (set_add eqb s x).
Proof.
  intros Hd. unfold set_add. destruct (existsb (eqb x) s) eqn:He; [exact Hd|].
  apply distinct_snoc; [exact Hd|]. intros y Hy.
  destruct (eqb x y) eqn:Hxy; [|reflexivity].
  assert (existsb (eqb x) s = true) by (apply existsb_exists; eauto). congruence.
Qed.

Lemma set_distinct (l s : list A) :
  distinct eqb s -> distinct eqb (fold_left (set_add eqb) l s).
Proof.
  revert s. induction l as [|x l IH]; simpl; intros s Hd; [exact Hd|].
  apply IH, set_add_distinct, Hd.
Qed.

Lemma set_In (l s : list A) (x : A) :
  In x (fold_left (set_add eqb) l s) -> In x s \/ In x l.
Proof.
  revert s. induction l as [|y l IH]; simpl; intros s H; [now left|].
  destruct (IH _ H) as [Hs|Hl]; [|now right; right].
  unfold set_add in Hs. destruct (existsb (eqb y) s); [now left|].
  apply in_app_or in Hs as [Hs|[<-|[]]]; [now left | now right; left].
Qed.

Lemma insert_by_ascending (x : A) (l : list A) :
  ascending ltb l -> (forall y, In y l -> eqb x y = false) ->
  ascending ltb (insert_by id ltb x l).
Proof.
  unfold ascending. induction 1 as [|z l Hs IH Hz]; simpl; intros Hx.
  - repeat constructor.
  - rewrite List.Forall_forall in Hz. unfold id.
    destruct (ltb z x) eqn:Hzx.
    + constructor; [apply IH; intros y Hy; apply Hx; now right|].
      apply List.Forall_forall. intros y Hy. apply insert_by_In in Hy as [->|Hy]; auto.
    + assert (Hxz : ltb x z = true) by (apply ltb_or_eqb; [exact Hzx | apply Hx; now left]).
      constructor; [now constructor; [|apply List.Forall_forall]|].
      constructor; [exact Hxz|].
      apply List.Forall_forall. intros y Hy. apply ltb_trans with z; auto.
Qed.

Lemma sorted_ascending (l : list A) :
  distinct eqb l -> ascending ltb (sorted id ltb l).
Proof.
  induction l as [|x l IH]; simpl; intros Hd; [constructor|].
  destruct Hd as [Hx Hd]. apply insert_by_ascending.
  - apply IH, Hd.
  - intros y Hy. apply Hx. exact (proj1 (sorted_In id ltb y l) Hy).
Qed.

Lemma ascending_lookup (l : list A) (i j : nat) (x y : A) :
  ascending ltb l -> (i < j)%nat -> l !! i = Some x -> l !! j = Some y -> ltb x y = true.
Proof.
  unfold ascending. intros Hs. revert i j.
  induction Hs as [|z l Hs IH Hz]; intros i j Hij Hi Hj; [discriminate|].
  destruct j as [|j]; [lia|]. simpl in Hj.
  destruct i as [|i]; simpl in Hi.
  - injection Hi as ->. rewrite List.Forall_forall in Hz. apply Hz.
    apply list_elem_of_In. eapply list_elem_of_lookup_2, Hj.
  - apply (IH i j); [lia | exact Hi | exact Hj].
Qed.

(** The loop of the binary search keeps what lies left of [lo] below [x]
    and what lies from [hi] on not below [x]. *)
Lemma bisect_loop_spec (a : list A) (x : A) :
  ascending ltb a ->
  forall (fuel lo hi : nat),
    (lo <= hi <= length a)%nat -> (hi - lo <= fuel)%nat ->
    (forall i y, (i < lo)%nat -> a !! i = Some y -> ltb y x = true) ->
    (forall i y, (hi <= i)%nat -> a !! i = Some y -> ltb y x = false) ->
    let r := bisect_loop ltb fuel a x lo hi in
    (r <= length a)%nat /\
    (forall i y, (i < r)%nat -> a !! i = Some y -> ltb y x = true) /\
    (forall i y, (r <= i)%nat -> a !! i = Some y -> ltb y x = false).
Proof.
  intros Hs. induction fuel as [|fuel IH]; intros lo hi Hb Hf Hlo Hhi;
    cbn [bisect_loop]; cbv zeta.
  - assert (lo = hi) by lia. subst hi. repeat split; [lia | exact Hlo | exact Hhi].
  - destruct (lo <? hi)%nat eqn:Hlt.
    2:{ apply Nat.ltb_ge in Hlt. assert (lo = hi) by lia. subst hi.
        repeat split; [lia | exact Hlo | exact Hhi]. }
    apply Nat.ltb_lt in Hlt.
    pose proof (Nat.div_mod_eq (lo + hi) 2) as Hdm.
    pose proof (Nat.mod_upper_bound (lo + hi) 2 ltac:(lia)) as Hmod.
    set (mid := ((lo + hi) / 2)%nat) in *.
    assert (Hmid : (lo <= mid < hi)%nat) by lia.
    destruct (a !! mid) as [y|] eqn:Hy.
    2:{ apply lookup_ge_None in Hy. lia. }
    destruct (ltb y x) eqn:Hyx.
    + apply (IH (mid + 1)%nat hi); [lia | lia | | exact Hhi].
      intros i z Hi Hz. destruct (Nat.eq_dec i mid) as [->|Hne]; [congruence|].
      apply ltb_trans with y; [|exact Hyx].
      apply (ascending_lookup a i mid); auto. lia.
    + apply (IH lo mid); [lia | lia | exact Hlo |].
      intros i z Hi Hz. destruct (Nat.eq_dec i mid) as [->|Hne]; [congruence|].
      destruct (ltb z x) eqn:Hzx; [|reflexivity].
      assert (ltb y x = true); [|congruence].
      apply ltb_trans with z; [|exact Hzx].
      apply (ascending_lookup a mid i); auto. lia.
Qed.

Lemma bisect_left_spec (a : list A) (x : A) :
  ascending ltb a ->
  (bisect_left ltb a x <= length a)%nat /\
  (forall i y, (i < bisect_left ltb a x)%nat -> a !! i = Some y -> ltb y x = true) /\
  (forall i y, (bisect_left ltb a x <= i)%nat -> a !! i = Some y -> ltb y x = false).
Proof.
  intros Hs. unfold bisect_left.
  apply (bisect_loop_spec a x Hs (length a) 0 (length a)); [lia | lia | lia |].
  intros i y Hi Hy. apply lookup_lt_Some in Hy. lia.
Qed.

(** What [find_greater_than_or_equal] returns from an ascending list: the
    element at some position, not below the key, all before it below the key. *)
Lemma find_greater_than_or_equal_spec (truthy : A -> bool) (a : list A) (key r : A) :
  ascending ltb a ->
  find_greater_than_or_equal ltb truthy a key = Ok r ->
  exists j, a !! j = Some r /\ ltb r key = false /\
            forall i y, (i < j)%nat -> a !! i = Some y -> ltb y key = true.
Proof.
  intros Hs. unfold find_greater_than_or_equal.
  destruct (assert _); [|discriminate]. cbn [bind].
  destruct (bisect_left_spec a key Hs) as (_ & Hlt & Hge).
  destruct (bisect_left ltb a key =? length a)%nat; [discriminate|].
  unfold getitem. destruct (a !! bisect_left ltb a key) as [y|] eqn:Hy; [|discriminate].
  intros H. injection H as <-. exists (bisect_left ltb a key).
  split; [exact Hy|]. split; [|exact Hlt]. apply (Hge _ _ (Nat.le_refl _) Hy).
Qed.

Lemma index_spec (l : list A) (x : A) (i : nat) :
  index eqb l x = Ok i ->
  exists y, l !! i = Some y /\ eqb y x = true.
Proof.
  revert i. induction l as [|z l IH]; simpl; intros i H; [discriminate|].
  destruct (eqb z x) eqn:Hz.
  - injection H as <-. now exists z.
  - destruct (index eqb l x) as [k|]; [|discriminate]. cbn [bind] in H.
    injection H as <-. apply (IH k eq_refl).
Qed.

Lemma index_found (l : list A) (x y : A) (j : nat) :
  l !! j = Some y -> eqb y x = true ->
  exists i, index eqb l x = Ok i /\ (i <= j)%nat.
Proof.
  revert j. induction l as [|z l IH]; intros j Hj Hy; [discriminate|]. simpl.
  destruct (eqb z x) eqn:Hz; [exists O; split; [reflexivity | lia]|].
  destruct j as [|j]; simpl in Hj; [injection Hj as ->; congruence|].
  destruct (IH j Hj Hy) as (i & -> & Hi). exists (S i). split; [reflexivity | lia].
Qed.
End Ordered_lists.

(** ** The ladders of the catalog *)

Lemma Zltb_trans (a b c : Z) : (a <? b) = true -> (b <? c) = true -> (a <? c) = true.
Proof. rewrite !Z.ltb_lt. lia. Qed.

Lemma Zltb_or_eqb (a b : Z) : (b <? a) = false -> (a =? b) = false -> (a <? b) = true.
Proof. rewrite Z.ltb_ge, Z.eqb_neq, Z.ltb_lt. lia. Qed.

Lemma Qltb_trans (a b c : Q) : Qltb a b = true -> Qltb b c = true -> Qltb a c = true.
Proof. rewrite !Qltb_lt. apply Qlt_trans. Qed.

Lemma Qltb_or_eqb (a b : Q) : Qltb b a = false -> Qeq_bool a b = false -> Qltb a b = true.
Proof.
  rewrite Qltb_ge, Qltb_lt. intros Hle Hne. apply Qeq_bool_neq in Hne.
  apply Qle_lteq in Hle as [Hlt|Heq]; [exact Hlt | contradiction].
Qed.

Lemma extract_RAM_ascending (types : list instance_type) :
  ascending Qltb (extract_list_from_instance_types Qeq_bool Qltb it_RAM types).
Proof.
  unfold extract_list_from_instance_types.
  apply (sorted_ascending Qltb Qeq_bool Qltb_trans Qltb_or_eqb).
  apply (set_distinct Qeq_bool Qeq_bool_comm). exact I.
Qed.

Lemma extract_CPU_ascending (types : list instance_type) :
  ascending Z.ltb (extract_list_from_instance_types Z.eqb Z.ltb it_CPU types).
Proof.
  unfold extract_list_from_instance_types.
  apply (sorted_ascending Z.ltb Z.eqb Zltb_trans Zltb_or_eqb).
  apply (set_distinct Z.eqb Z.eqb_sym). exact I.
Qed.

(** Every offering that [lookup_type] names is in the catalog with exactly
    the CPU count and the RAM size asked for. *)
Lemma lookup_type_In (cpu : Z) (ram : Q) (types : list instance_type)
    (found : list string) (id : string) :
  lookup_type cpu ram types = Ok found -> In id found ->
  exists t, In t types /\ it_type t = id /\ it_CPU t = cpu /\ (it_RAM t == ram)%Q.
Proof.
  unfold lookup_type. destruct (assert _); [|discriminate]. cbn [bind].
  intros H Hid. injection H as <-.
  apply in_map_iff in Hid as (t & Hty & Ht).
  apply List.filter_In in Ht as [Ht Hm].
  apply (proj1 (sorted_In _ pair_ltb t types)) in Ht.
  apply andb_true_iff in Hm as [Hc Hr].
  exists t. repeat split; [exact Ht | exact Hty | now apply Z.eqb_eq | now apply Qeq_bool_iff].
Qed.

(** The next RAM size sits one position after the current one, and is larger. *)
Lemma get_next_ram_size_spec (sizes : list Q) (ram next : Q) :
  ascending Qltb sizes ->
  get_next_ram_size sizes ram = Ok next ->
  exists i y,
    index Qeq_bool sizes ram = Ok i /\ sizes !! i = Some y /\ (y == ram)%Q /\
    sizes !! S i = Some next /\ (ram < next)%Q.
Proof.
  intros Hs. unfold get_next_ram_size.
  destruct (assert _); [|discriminate]. cbn [bind].
  destruct (index Qeq_bool sizes ram) as [i|] eqn:Hi; [|discriminate]. cbn [bind].
  destruct (assert _); [|discriminate]. cbn [bind].
  unfold getitem. destruct (sizes !! S i) as [n|] eqn:Hn; [|discriminate].
  intros H. injection H as <-.
  destruct (index_spec Qeq_bool sizes ram i Hi) as (y & Hy & Hyr).
  apply Qeq_bool_iff in Hyr.
  exists i, y. repeat split; auto.
  rewrite <- Hyr. apply Qltb_lt.
  apply (ascending_lookup Qltb sizes i (S i) y n Hs); auto.
Qed.

Section Size_loop.
Variables (types : list instance_type) (sizes : list Q) (min_cpu : Z) (ram : Q).
Hypothesis sizes_ascending : ascending Qltb sizes.

(** One turn of the loop moves the RAM size strictly up the ladder. *)
Lemma next_tier_larger (min_ram next min_ram' : Q) :
  get_next_ram_size sizes min_ram = Ok next ->
  find_greater_than_or_equal Qltb truthy_Q sizes next = Ok min_ram' ->
  (min_ram < min_ram')%Q.
Proof.
  intros Hnext Hfind.
  destruct (get_next_ram_size_spec sizes min_ram next sizes_ascending Hnext)
    as (i & y & _ & _ & _ & _ & Hlt).
  destruct (find_greater_than_or_equal_spec Qltb Qltb_trans truthy_Q sizes next min_ram'
              sizes_ascending Hfind) as (j & _ & Hge & _).
  apply Qltb_ge in Hge. eapply Qlt_le_trans; eauto.
Qed.

(** Whatever the loop returns matches the fixed CPU count and a RAM size
    not below the requirement it started from. *)
Lemma size_loop_sufficient (fuel : nat) (min_ram : Q) (found : list string) :
  (ram <= min_ram)%Q ->
  size_loop fuel types sizes min_cpu min_ram = Some (Ok found) ->
  forall id, In id found ->
    exists t, In t types /\ it_type t = id /\ it_CPU t = min_cpu /\ (ram <= it_RAM t)%Q.
Proof.
  revert min_ram. induction fuel as [|fuel IH]; intros min_ram Hram; [discriminate|].
  cbn [size_loop].
  destruct (lookup_type min_cpu min_ram types) as [found0|] eqn:Hlook; [|discriminate].
  destruct (get_next_ram_size sizes min_ram) as [next|] eqn:Hnext; [|discriminate].
  cbn [bind].
  destruct (find_greater_than_or_equal Qltb truthy_Q sizes next) as [min_ram'|] eqn:Hfind;
    [|discriminate].
  destruct (is_nil found0) eqn:Hnil.
  - apply IH. apply Qle_trans with min_ram; [exact Hram|].
    apply Qlt_le_weak. eapply next_tier_larger; eauto.
  - intros H id Hid. injection H as <-.
    destruct (lookup_type_In _ _ _ _ _ Hlook Hid) as (t & Ht & Hty & Hc & Hr).
    exists t. repeat split; auto. now rewrite Hr.
Qed.

(** The loop ends within as many turns as RAM sizes remain on the ladder. *)
Lemma size_loop_total (fuel : nat) (min_ram : Q) (i : nat) :
  index Qeq_bool sizes min_ram = Ok i ->
  (length sizes - i <= fuel)%nat ->
  exists outcome, size_loop fuel types sizes min_cpu min_ram = Some outcome.
Proof.
  revert min_ram i. induction fuel as [|fuel IH]; intros min_ram i Hi Hfuel.
  - destruct (index_spec Qeq_bool sizes min_ram i Hi) as (y & Hy & _).
    apply lookup_lt_Some in Hy. lia.
  - cbn [size_loop].
    destruct (lookup_type min_cpu min_ram types) as [found0|]; [|eauto].
    destruct (get_next_ram_size sizes min_ram) as [next|] eqn:Hnext; [|cbn [bind]; eauto].
    cbn [bind].
    destruct (find_greater_than_or_equal Qltb truthy_Q sizes next) as [min_ram'|] eqn:Hfind;
      [|eauto].
    destruct (is_nil found0); [|eauto].
    pose proof (next_tier_larger min_ram next min_ram' Hnext Hfind) as Hlt.
    destruct (find_greater_than_or_equal_spec Qltb Qltb_trans truthy_Q sizes next min_ram'
                sizes_ascending Hfind) as (j & Hj & _ & _).
    destruct (index_found Qeq_bool sizes min_ram' min_ram' j Hj (Qeq_bool_refl _))
      as (i' & Hi' & _).
    apply (IH min_ram' i' Hi').
    destruct (index_spec Qeq_bool sizes min_ram i Hi) as (y & Hy & Hyr).
    destruct (index_spec Qeq_bool sizes min_ram' i' Hi') as (y' & Hy' & Hyr').
    apply Qeq_bool_iff in Hyr, Hyr'.
    assert (Hlt' : (y < y')%Q) by now rewrite Hyr, Hyr'.
    assert (i < i')%nat; [|lia].
    destruct (Nat.lt_trichotomy i i') as [?|[->|Hgt]]; [assumption| |].
    + rewrite Hy in Hy'. injection Hy' as ->. exfalso. exact (Qlt_irrefl _ Hlt').
    + pose proof (ascending_lookup Qltb sizes i' i y' y sizes_ascending Hgt Hy' Hy) as Hc.
      apply Qltb_lt in Hc. exfalso. exact (Qlt_irrefl _ (Qlt_trans _ _ _ Hlt' Hc)).
Qed.
End Size_loop.

(** The size resolution always ends: with a list of offerings or with an
    exception. *)
Lemma get_correct_instance_size_total (cpu : Z) (ram : Q) (types : list instance_type) :
  exists outcome, get_correct_instance_size cpu ram types = Some outcome.
Proof.
  unfold get_correct_instance_size.
  destruct (assert _); [|eauto].
  destruct (find_greater_than_or_equal Z.ltb truthy_Z _ cpu) as [min_cpu|]; [|eauto].
  set (sizes := extract_list_from_instance_types Qeq_bool Qltb it_RAM types).
  destruct (find_greater_than_or_equal Qltb truthy_Q sizes ram) as [min_ram|] eqn:Hfind;
    [|eauto].
  pose proof (extract_RAM_ascending types) as Hs. fold sizes in Hs.
  destruct (find_greater_than_or_equal_spec Qltb Qltb_trans truthy_Q sizes ram min_ram
              Hs Hfind) as (j & Hj & _ & _).
  destruct (index_found Qeq_bool sizes min_ram min_ram j Hj (Qeq_bool_refl _))
    as (i & Hi & _).
  apply (size_loop_total types sizes min_cpu Hs _ min_ram i Hi). lia.
Qed.

(** C4. Every offering identifier that the size resolution returns names
    an offering of the catalog with at least the CPUs and at least the RAM
    required. *)
Theorem C4_returned_offerings_are_sufficient :
  forall (cpu : Z) (ram : Q) (types : list instance_type) (found : list string),
    get_correct_instance_size cpu ram types = Some (Ok found) ->
    forall id, In id found ->
      exists t, In t types /\ it_type t = id /\ cpu <= it_CPU t /\ (ram <= it_RAM t)%Q.
Proof.
  intros cpu ram types found. unfold get_correct_instance_size.
  destruct (assert _); [|discriminate].
  destruct (find_greater_than_or_equal Z.ltb truthy_Z _ cpu) as [min_cpu|] eqn:Hcpu;
    [|discriminate].
  set (sizes := extract_list_from_instance_types Qeq_bool Qltb it_RAM types).
  destruct (find_greater_than_or_equal Qltb truthy_Q sizes ram) as [min_ram|] eqn:Hram;
    [|discriminate].
  pose proof (extract_RAM_ascending types) as Hs. fold sizes in Hs.
  intros Hloop id Hid.
  destruct (find_greater_than_or_equal_spec Z.ltb Zltb_trans truthy_Z _ cpu min_cpu
              (extract_CPU_ascending types) Hcpu) as (_ & _ & Hc & _).
  destruct (find_greater_than_or_equal_spec Qltb Qltb_trans truthy_Q sizes ram min_ram
              Hs Hram) as (_ & _ & Hr & _).
  apply Z.ltb_ge in Hc. apply Qltb_ge in Hr.
  destruct (size_loop_sufficient types sizes min_cpu ram Hs _ min_ram found Hr Hloop id Hid)
    as (t & Ht & Hty & Htc & Htr).
  exists t. repeat split; auto. now rewrite Htc.
Qed.

Lemma C4_returned_offerings_are_sufficient_witness :
  exists t, In t scenario_catalog /\ it_type t = "b" /\ 3 <= it_CPU t /\ (5 <= it_RAM t)%Q.
Proof.
  apply (C4_returned_offerings_are_sufficient 3 5 scenario_catalog ["b"]).
  - reflexivity.
  - left. reflexivity.
Defined.

(** A size met on the RAM ladder is the RAM size of some catalog entry. *)
Lemma extract_RAM_In (types : list instance_type) (size : Q) :
  In size (extract_list_from_instance_types Qeq_bool Qltb it_RAM types) ->
  exists t, In t types /\ it_RAM t = size.
Proof.
  unfold extract_list_from_instance_types. intros H.
  apply (proj1 (sorted_In id Qltb size _)) in H.
  apply set_In in H as [[]|H].
  apply in_map_iff in H as (t & Ht & Hin). now exists t.
Qed.

(** The loop returns no offering of the largest RAM size: above the size
    of whatever it returns the catalog has a larger one. *)
Lemma size_loop_below_largest (types : list instance_type) (sizes : list Q) (min_cpu : Z)
    (fuel : nat) (min_ram : Q) (found : list string) :
  ascending Qltb sizes ->
  size_loop fuel types sizes min_cpu min_ram = Some (Ok found) ->
  forall id, In id found ->
    exists t next,
      In t types /\ it_type t = id /\ In next sizes /\ (it_RAM t < next)%Q.
Proof.
  intros Hs. revert min_ram. induction fuel as [|fuel IH]; intros min_ram; [discriminate|].
  cbn [size_loop].
  destruct (lookup_type min_cpu min_ram types) as [found0|] eqn:Hlook; [|discriminate].
  destruct (get_next_ram_size sizes min_ram) as [next|] eqn:Hnext; [|discriminate].
  cbn [bind].
  destruct (find_greater_than_or_equal Qltb truthy_Q sizes next) as [min_ram'|]; [|discriminate].
  destruct (is_nil found0); [apply IH|].
  intros H id Hid. injection H as <-.
  destruct (lookup_type_In _ _ _ _ _ Hlook Hid) as (t & Ht & Hty & _ & Hr).
  destruct (get_next_ram_size_spec sizes min_ram next Hs Hnext) as (i & y & _ & _ & _ & Hn & Hlt).
  exists t, next. repeat split; auto.
  - apply list_elem_of_In. eapply list_elem_of_lookup_2, Hn.
  - now rewrite Hr.
Qed.

(** X6. The size resolution never returns an offering of the largest RAM
    size of the catalog: for each offering returned the catalog has an
    entry with more RAM. *)
Lemma get_correct_instance_size_below_largest (cpu : Z) (ram : Q)
    (types : list instance_type) (found : list string) :
  get_correct_instance_size cpu ram types = Some (Ok found) ->
  forall id, In id found ->
    exists t larger,
      In t types /\ it_type t = id /\ In larger types /\ (it_RAM t < it_RAM larger)%Q.
Proof.
  unfold get_correct_instance_size.
  destruct (assert _); [|discriminate].
  destruct (find_greater_than_or_equal Z.ltb truthy_Z _ cpu) as [min_cpu|]; [|discriminate].
  destruct (find_greater_than_or_equal Qltb truthy_Q _ ram) as [min_ram|]; [|discriminate].
  intros Hloop id Hid.
  destruct (size_loop_below_largest _ _ _ _ _ _ (extract_RAM_ascending types) Hloop id Hid)
    as (t & next & Ht & Hty & Hnext & Hlt).
  destruct (extract_RAM_In types next Hnext) as (larger & Hl & <-).
  now exists t, larger.
Qed.

(** ** Every run ends *)

Section Totality.
Variable get_price : string -> string -> pricing_model -> Q.
Variable get_storage_cost : result Q.

Lemma find_aws_instance_total (h : host) (disks : list disk) (types : list instance_type) :
  exists outcome, find_aws_instance get_price get_storage_cost h disks types = Some outcome.
Proof.
  unfold find_aws_instance, find_aws_instance_counting.
  destruct (get_correct_instance_size_total (host_CPUs h) (host_RAM h) types) as [o ->].
  destruct o as [instances|e]; [|eauto].
  destruct (is_nil instances); [eauto|].
  repeat match goal with
         | |- context [get_least_expensive_option ?g ?i ?o ?m ?c] =>
             destruct (get_least_expensive_option g i o m c) as [[? ?] ?]
         end.
  destruct (get_three_year_storage_cost get_storage_cost h disks); cbn [bind]; eauto.
Qed.

Lemma collect_total (hosts : list host) (disks : list disk) (types : list instance_type) :
  exists records, collect get_price get_storage_cost hosts disks types = Some records.
Proof.
  induction hosts as [|h hosts [records IH]]; simpl; [eauto|].
  unfold process_host.
  destruct (find_aws_instance_total h disks types) as [o ->]. rewrite IH. eauto.
Qed.

Lemma main_total (cpu_csv disk_csv : list row) (types : list instance_type) :
  exists outcome, main get_price get_storage_cost cpu_csv disk_csv types = Some outcome.
Proof.
  unfold main.
  destruct (let* min_cpu := get_minimum_cpu_size types in _) as [[min_cpu min_ram]|]; [|eauto].
  destruct (let* hosts := load_host_records_from_csv cpu_csv min_cpu in _)
    as [[hosts disks]|]; [|eauto].
  destruct (is_nil hosts || is_nil disks); [eauto|].
  destruct (collect_total hosts disks types) as [records ->]. eauto.
Qed.
End Totality.

(** ** The costs in binary floating point *)

Ltac Qatoms :=
  repeat match goal with
         | |- context [inject_Z ?z] =>
             lazymatch z with
             | Z0 => fail | Zpos _ => fail | Zneg _ => fail
             | _ => let a := fresh "a" in set (a := inject_Z z) in *; clearbody a
             end
         | H : context [inject_Z ?z] |- _ =>
             lazymatch z with
             | Z0 => fail | Zpos _ => fail | Zneg _ => fail
             | _ => let a := fresh "a" in set (a := inject_Z z) in *; clearbody a
             end
         end.

Ltac Qabs_cases :=
  repeat match goal with
         | |- context [Qabs ?x] => apply (Qabs_case x); intros ?
         | H : context [Qabs ?x] |- _ => revert H; apply (Qabs_case x); intros ? ?
         end.

Lemma round_nearest (y : Q) (k : Z) :
  (Qabs (y - inject_Z (round y)) <= Qabs (y - inject_Z k))%Q.
Proof.
  pose proof (round_close y) as [Hlo Hhi].
  destruct (Z.lt_trichotomy k (round y)) as [Hk|[->|Hk]].
  - assert (H : (inject_Z k <= inject_Z (round y + -1))%Q) by (rewrite <- Zle_Qle; lia).
    rewrite inject_Z_plus in H.
    change (inject_Z (-1)) with (-1 # 1)%Q in H.
    Qabs_cases; Qatoms; lra.
  - apply Qle_refl.
  - assert (H : (inject_Z (round y + 1) <= inject_Z k)%Q) by (rewrite <- Zle_Qle; lia).
    rewrite inject_Z_plus in H.
    change (inject_Z 1) with (1 # 1)%Q in H.
    Qabs_cases; Qatoms; lra.
Qed.

Lemma round_nearest_hundredth (x : Q) : nearest_hundredth x (round (x * 100)).
Proof.
  intros k. pose proof (round_nearest (x * 100) k) as H.
  unfold Qdiv. change (/ 100)%Q with (1 # 100)%Q.
  Qabs_cases; Qatoms; lra.
Qed.

Lemma magnitude_positive (m : positive) (e : Z) : (0 < Binary64.magnitude m e)%Q.
Proof.
  unfold Binary64.magnitude. apply Qmult_lt_0_compat; [reflexivity|].
  apply Qpower_0_lt. reflexivity.
Qed.

Lemma format_2f_rounds (x : float) :
  rounded_to_2_decimals x (Binary64.float_of_2f (Binary64.format_2f x)).
Proof.
  unfold rounded_to_2_decimals, Binary64.value, Binary64.format_2f, Binary64.negative.
  pose proof (SF2Prim_Prim2SF x) as Hx.
  destruct (Prim2SF x) as [s|s| |s m e].
  - exists 0. split; [|reflexivity]. intros k.
    change (Qabs 0) with 0%Q. change (inject_Z 0) with 0%Q.
    unfold Qdiv. change (/ 100)%Q with (1 # 100)%Q. Qabs_cases; Qatoms; lra.
  - rewrite <- Hx. now destruct s.
  - now rewrite <- Hx.
  - exists (round (Binary64.magnitude m e * 100)). split; [|reflexivity].
    pose proof (magnitude_positive m e) as Hpos.
    assert (Habs : (Qabs (if s then - Binary64.magnitude m e else Binary64.magnitude m e)
                    == Binary64.magnitude m e)%Q).
    { destruct s; [rewrite Qabs_opp|]; apply Qabs_pos; lra. }
    intros k. rewrite Habs. apply round_nearest_hundredth.
Qed.

Section Binary64_engine.
Import Binary64.
Variable get_price : string -> string -> pricing_model -> result float.
Variable get_storage_cost : result float.

Lemma price_loop_unavailable (os : string) (model : pricing_model) (instances : list string)
    (st : pricing_state) :
  (forall instance, In instance instances ->
     exists price, get_price instance os model = Ok price /\ (price =? 0)%float = true) ->
  exists st', price_loop get_price os model instances st = Ok st' /\
              ps_prices st' = ps_prices st.
Proof.
  revert st. induction instances as [|i instances IH]; intros st H; cbn [price_loop].
  - now exists st.
  - destruct (H i (or_introl eq_refl)) as (price & Hprice & Hzero).
    rewrite Hprice. cbn [bind]. rewrite Hzero.
    destruct (IH (Build_pricing_state (ps_prices st) (ps_invalid_instances st ++ [i])
                    (counter_incr (ps_count st) i))) as (st' & -> & Hp).
    + intros j Hj. apply H. now right.
    + now exists st'.
Qed.

Lemma least_expensive_unavailable (instances : list string) (os : string)
    (model : pricing_model) (count : Counter) :
  (forall instance, In instance instances ->
     exists price, get_price instance os model = Ok price /\ (price =? 0)%float = true) ->
  exists invalid count',
    get_least_expensive_option get_price instances os model count =
      Ok ((no_type_and_cost, invalid), count').
Proof.
  intros H. unfold get_least_expensive_option.
  destruct (is_nil instances); [now eexists _, _|].
  destruct (String.eqb os ""); [now eexists _, _|].
  destruct (price_loop_unavailable os model instances
              (Build_pricing_state [] [] count) H) as (st' & -> & Hp).
  cbn [bind]. simpl in Hp. rewrite Hp. cbn. now eexists _, _.
Qed.

Lemma get_total_cost_rounds (h : host_with_storage_cost) (ic : float) :
  match hs_Instance_Cost h with Some c => float_of_int c | None => Ok 0%float end = Ok ic ->
  exists total,
    get_total_cost h = Ok total /\
    rounded_to_2_decimals
      (ic + match hs_Storage_Cost h with Some c => c | None => 0%float end) total.
Proof.
  intros H. unfold get_total_cost. rewrite H. cbn [bind].
  eexists. split; [reflexivity|]. apply format_2f_rounds.
Qed.

Lemma get_three_year_storage_cost_rounds (price : float) (h : host) (disks : list disk)
    (mbytes : Z) (gbytes : float) :
  disks <> [] ->
  storage_mbytes (host_VM h) disks 0 = Ok mbytes ->
  true_div mbytes 1000 = Ok gbytes ->
  exists monthly_cost three_year_cost : float,
    get_three_year_storage_cost (Ok price) h disks =
      Ok {| Storage := gbytes; Storage_Cost := three_year_cost |} /\
    rounded_to_2_decimals (price * gbytes) monthly_cost /\
    rounded_to_2_decimals (monthly_cost * 12 * 3) three_year_cost.
Proof.
  intros Hd Hm Hg. unfold get_three_year_storage_cost.
  destruct disks as [|d disks]; [contradiction|]. cbn [is_nil negb assert bind].
  rewrite Hm. cbn [bind]. rewrite Hg. cbn [bind].
  eexists _, _. split; [reflexivity|]. split; apply format_2f_rounds.
Qed.

Lemma binary64_find_aws_instance_inv (h : host) (disks : list disk) (types : list instance_type)
    (r : host_with_cost_details) :
  find_aws_instance get_price get_storage_cost h disks types = Some (Ok (Some r)) ->
  exists instances c1 c2 c3 i1 i2 i3 n1 n2 n3 sc,
    get_correct_instance_size (host_CPUs h) (host_RAM h) types = Some (Ok instances) /\
    instances <> [] /\
    get_least_expensive_option get_price instances (host_OS h) onDemand ∅
      = Ok ((c1, i1), n1) /\
    get_least_expensive_option get_price instances (host_OS h) one_year_Reserved n1
      = Ok ((c2, i2), n2) /\
    get_least_expensive_option get_price instances (host_OS h) three_year_Reserved n2
      = Ok ((c3, i3), n3) /\
    get_three_year_storage_cost get_storage_cost h disks = Ok sc /\
    hc_fields r = {| hs_host := h;
                     hs_Instance_Type := Instance_Type c3;
                     hs_Instance_Cost := Instance_Cost c3;
                     hs_Storage := Storage sc;
                     hs_Storage_Cost := Some (Storage_Cost sc) |} /\
    get_total_cost (hc_fields r) = Ok (hc_Total r) /\
    hc_Cost_Details r = {| cd_onDemand := c1; cd_one_year := c2; cd_three_year := c3 |}.
Proof.
  unfold find_aws_instance. intros H.
  destruct (get_correct_instance_size (host_CPUs h) (host_RAM h) types)
    as [[instances|e]|]; try discriminate.
  destruct (is_nil instances) eqn:Hnil; [discriminate|].
  destruct (get_least_expensive_option get_price instances (host_OS h) onDemand ∅)
    as [[[c1 i1] n1]|e] eqn:H1; cbn [bind] in H; [|discriminate].
  destruct (get_least_expensive_option get_price instances (host_OS h)
              one_year_Reserved n1)
    as [[[c2 i2] n2]|e] eqn:H2; cbn [bind] in H; [|discriminate].
  destruct (get_least_expensive_option get_price instances (host_OS h)
              three_year_Reserved n2)
    as [[[c3 i3] n3]|e] eqn:H3; cbn [bind] in H; [|discriminate].
  destruct (get_three_year_storage_cost get_storage_cost h disks) as [sc|e] eqn:Hsc;
    cbn [bind] in H; [|discriminate].
  match type of H with
  | Some (bind ?c _) = _ => destruct c as [total|e] eqn:Ht
  end; cbn [bind] in H; [|discriminate].
  injection H as <-.
  exists instances, c1, c2, c3, i1, i2, i3, n1, n2, n3, sc.
  split; [reflexivity|]. split; [now destruct instances|].
  do 3 (split; [assumption|]).
  do 2 (split; [reflexivity|]). split; [exact Ht | reflexivity].
Qed.
End Binary64_engine.

(** With a storage price of 0.10, a disk of 150 MB costs 0.36 over three
    years: the float product 0.1 * 0.15 lies below 0.015 and is written
    0.01. *)
Lemma storage_cost_of_150_MB :
  Binary64.get_three_year_storage_cost (Ok storage_price) sample_host disk_of_150_MB =
    Ok {| Binary64.Storage := (150 / 1000)%float;
          Binary64.Storage_Cost := (36 / 100)%float |}.
Proof. vm_compute. reflexivity. Qed.



(** The total of 1 and 0.005 is 1.00: the float sum lies below 1.005. *)
Lemma total_of_1_and_half_a_cent :
  Binary64.get_total_cost
    {| Binary64.hs_host := sample_host; Binary64.hs_Instance_Type := Some "a";
       Binary64.hs_Instance_Cost := Some 1; Binary64.hs_Storage := 0;
       Binary64.hs_Storage_Cost := Some (5 / 1000)%float |} = Ok 1%float.
Proof. vm_compute. reflexivity. Qed.



(** * Further properties *)

(** ** The ceiling search *)

Lemma In_lookup {A : Type} (l : list A) (x : A) : In x l <-> exists i, l !! i = Some x.
Proof. rewrite <- list_elem_of_In. apply list_elem_of_lookup. Qed.

Section Ceiling.
Context {A : Type} (ltb : A -> A -> bool) (truthy : A -> bool).
Hypothesis ltb_trans : forall a b c, ltb a b = true -> ltb b c = true -> ltb a c = true.

(** The item returned is the first that is not below the key: any other
    item not below the key comes later and is larger. *)
Lemma find_greater_than_or_equal_least (a : list A) (key r : A) :
  ascending ltb a ->
  find_greater_than_or_equal ltb truthy a key = Ok r ->
  In r a /\ ltb r key = false /\
  forall y, In y a -> ltb y key = false -> y = r \/ ltb r y = true.
Proof.
  intros Hs H.
  destruct (find_greater_than_or_equal_spec ltb ltb_trans truthy a key r Hs H)
    as (j & Hj & Hge & Hlt).
  split; [apply In_lookup; eauto|]. split; [exact Hge|].
  intros y Hy Hyk. apply In_lookup in Hy as [k Hk].
  destruct (Nat.lt_trichotomy k j) as [Hkj|[->|Hkj]].
  - rewrite (Hlt k y Hkj Hk) in Hyk. discriminate.
  - left. congruence.
  - right. exact (ascending_lookup ltb a j k r y Hs Hkj Hj Hk).
Qed.

Lemma find_greater_than_or_equal_asserts (a : list A) (key : A) :
  a = [] \/ truthy key = false ->
  find_greater_than_or_equal ltb truthy a key = Raise AssertionError.
Proof.
  unfold find_greater_than_or_equal.
  intros [->|Hk]; [reflexivity|]. rewrite Hk, andb_false_r. reflexivity.
Qed.

Lemma find_greater_than_or_equal_none (a : list A) (key : A) :
  ascending ltb a -> a <> [] -> truthy key = true ->
  (forall y, In y a -> ltb y key = true) ->
  find_greater_than_or_equal ltb truthy a key = Raise ValueError.
Proof.
  intros Hs Ha Hk Hall. unfold find_greater_than_or_equal.
  destruct a as [|x a']; [contradiction|]. rewrite Hk. cbn [is_nil negb andb assert bind].
  destruct (bisect_left_spec ltb ltb_trans (x :: a') key Hs) as (Hle & _ & Hge).
  destruct (Nat.eqb_spec (bisect_left ltb (x :: a') key) (length (x :: a'))) as [_|Hne];
    [reflexivity|].
  destruct (lookup_lt_is_Some_2 (x :: a') (bisect_left ltb (x :: a') key)) as [y Hy]; [lia|].
  pose proof (Hge _ y (Nat.le_refl _) Hy) as Hf.
  rewrite Hall in Hf; [discriminate|]. apply In_lookup. eauto.
Qed.

Lemma find_greater_than_or_equal_some (a : list A) (key y : A) :
  ascending ltb a -> truthy key = true -> In y a -> ltb y key = false ->
  exists r, find_greater_than_or_equal ltb truthy a key = Ok r.
Proof.
  intros Hs Hk Hy Hyk. unfold find_greater_than_or_equal.
  destruct a as [|x a']; [destruct Hy|]. rewrite Hk. cbn [is_nil negb andb assert bind].
  destruct (bisect_left_spec ltb ltb_trans (x :: a') key Hs) as (Hle & Hlt & _).
  apply In_lookup in Hy as [k Hkk].
  destruct (Nat.eqb_spec (bisect_left ltb (x :: a') key) (length (x :: a'))) as [Heq|Hne].
  - apply lookup_lt_Some in Hkk as Hlen. rewrite <- Heq in Hlen.
    rewrite (Hlt k y Hlen Hkk) in Hyk. discriminate.
  - unfold getitem.
    destruct (lookup_lt_is_Some_2 (x :: a') (bisect_left ltb (x :: a') key)) as [r ->];
      [lia | eauto].
Qed.
End Ceiling.

(** X1. On an ascending list of integers [find_greater_than_or_equal]
    returns the smallest item that is at least the key. *)
Theorem find_greater_than_or_equal_smallest :
  forall (a : list Z) (key r : Z),
    ascending Z.ltb a ->
    find_greater_than_or_equal Z.ltb truthy_Z a key = Ok r ->
    In r a /\ key <= r /\ forall y, In y a -> key <= y -> r <= y.
Proof.
  intros a key r Hs H.
  destruct (find_greater_than_or_equal_least Z.ltb truthy_Z Zltb_trans a key r Hs H)
    as (Hin & Hge & Hleast).
  apply Z.ltb_ge in Hge. repeat split; auto.
  intros y Hy Hky.
  destruct (Hleast y Hy) as [->|Hlt]; [now apply Z.ltb_ge | lia |].
  apply Z.ltb_lt in Hlt. lia.
Qed.

Lemma find_greater_than_or_equal_smallest_witness :
  In 5 [1; 3; 5; 7] /\ 4 <= 5 /\ forall y, In y [1; 3; 5; 7] -> 4 <= y -> 5 <= y.
Proof.
  apply (find_greater_than_or_equal_smallest [1; 3; 5; 7] 4 5).
  - repeat constructor.
  - reflexivity.
Defined.

(** X2. How [find_greater_than_or_equal] fails on an ascending list of
    integers: with [AssertionError] exactly when the list is empty or the
    key is 0, and otherwise with [ValueError] exactly when every item is
    below the key. *)
Theorem find_greater_than_or_equal_failures :
  forall (a : list Z) (key : Z),
    ascending Z.ltb a ->
    (find_greater_than_or_equal Z.ltb truthy_Z a key = Raise AssertionError <->
       a = [] \/ key = 0) /\
    (find_greater_than_or_equal Z.ltb truthy_Z a key = Raise ValueError <->
       a <> [] /\ key <> 0 /\ forall y, In y a -> y < key).
Proof.
  intros a key Hs.
  assert (Htruthy : truthy_Z key = false <-> key = 0)
    by (unfold truthy_Z; rewrite negb_false_iff; apply Z.eqb_eq).
  destruct (Z.eq_dec key 0) as [Hk0|Hk0].
  { rewrite (find_greater_than_or_equal_asserts Z.ltb truthy_Z a key)
      by (right; now apply Htruthy).
    split; split; try tauto; try discriminate. }
  destruct a as [|x a'].
  { rewrite (find_greater_than_or_equal_asserts Z.ltb truthy_Z [] key) by now left.
    split; split; try tauto; try discriminate. }
  assert (Hk : truthy_Z key = true)
    by (destruct (truthy_Z key); [reflexivity | exfalso; apply Hk0, Htruthy; reflexivity]).
  destruct (List.Forall_Exists_dec (fun y => y < key) (fun y => Z_lt_dec y key) (x :: a'))
    as [Hall|Hex].
  - rewrite List.Forall_forall in Hall.
    rewrite (find_greater_than_or_equal_none Z.ltb truthy_Z Zltb_trans (x :: a') key Hs)
      by (try discriminate; try assumption; intros y Hy; apply Z.ltb_lt; auto).
    split; split; try discriminate; try tauto.
    + intros [H|H]; [discriminate | contradiction].
    + intros _. repeat split; [discriminate | assumption | assumption].
  - apply List.Exists_exists in Hex as (y & Hy & Hyk).
    destruct (find_greater_than_or_equal_some Z.ltb truthy_Z Zltb_trans (x :: a') key y Hs Hk Hy)
      as [r ->]; [apply Z.ltb_ge; lia|].
    split; split; try discriminate.
    + intros [H|H]; [discriminate | contradiction].
    + intros (_ & _ & Hall). specialize (Hall y Hy). lia.
Qed.

Lemma find_greater_than_or_equal_failures_witness :
  (find_greater_than_or_equal Z.ltb truthy_Z [1; 3] 4 = Raise AssertionError <->
     [1; 3] = [] \/ 4 = 0) /\
  (find_greater_than_or_equal Z.ltb truthy_Z [1; 3] 4 = Raise ValueError <->
     [1; 3] <> [] /\ 4 <> 0 /\ forall y, In y [1; 3] -> y < 4).
Proof.
  apply (find_greater_than_or_equal_failures [1; 3] 4). repeat constructor.
Defined.

(** ** The ladders hold the values of the catalog *)

Section Set_members.
Context {A : Type} (eqb : A -> A -> bool).
Hypothesis eqb_refl : forall a, eqb a a = true.

Lemma set_In_kept (l s : list A) (y : A) :
  In y s -> In y (fold_left (set_add eqb) l s).
Proof.
  revert s. induction l as [|x l IH]; simpl; intros s Hy; [exact Hy|].
  apply IH. unfold set_add. destruct (existsb (eqb x) s); [exact Hy|].
  apply in_or_app. now left.
Qed.

Lemma set_complete (l s : list A) (x : A) :
  In x l -> exists y, In y (fold_left (set_add eqb) l s) /\ eqb x y = true.
Proof.
  revert s. induction l as [|z l IH]; simpl; intros s Hx; [destruct Hx|].
  destruct Hx as [->|Hx]; [|now apply IH].
  unfold set_add. destruct (existsb (eqb x) s) eqn:He.
  - apply existsb_exists in He as (y & Hy & Hxy).
    exists y. split; [now apply set_In_kept | exact Hxy].
  - exists x. split; [|apply eqb_refl].
    apply set_In_kept, in_or_app. right. now left.
Qed.
End Set_members.

Lemma extract_CPU_In (types : list instance_type) (v : Z) :
  In v (extract_list_from_instance_types Z.eqb Z.ltb it_CPU types) <->
  exists t, In t types /\ it_CPU t = v.
Proof.
  unfold extract_list_from_instance_types.
  rewrite (sorted_In id Z.ltb). split.
  - intros H. apply set_In in H as [[]|H]. apply in_map_iff in H as (t & Ht & Hin). eauto.
  - intros (t & Ht & <-).
    destruct (set_complete Z.eqb Z.eqb_refl (map it_CPU types) [] (it_CPU t)) as (y & Hy & Hyt);
      [now apply in_map|].
    apply Z.eqb_eq in Hyt. now rewrite Hyt.
Qed.

Lemma extract_RAM_complete (types : list instance_type) (t : instance_type) :
  In t types ->
  exists v, In v (extract_list_from_instance_types Qeq_bool Qltb it_RAM types) /\
            (v == it_RAM t)%Q.
Proof.
  intros Ht. unfold extract_list_from_instance_types.
  destruct (set_complete Qeq_bool Qeq_bool_refl (map it_RAM types) [] (it_RAM t))
    as (y & Hy & Hyt); [now apply in_map|].
  exists y. split; [now apply (sorted_In id Qltb)|].
  apply Qeq_bool_iff in Hyt. now symmetry.
Qed.

(** X3. [extract_list_from_instance_types] gives the ladder of the catalog:
    strictly ascending, so without repetition, and made of exactly the CPU
    counts of the catalog; for the RAM sizes likewise, a size standing for
    all the sizes equal to it. *)
Theorem extract_list_is_the_ladder_of_the_catalog :
  forall (types : list instance_type),
    let cpus := extract_list_from_instance_types Z.eqb Z.ltb it_CPU types in
    let rams := extract_list_from_instance_types Qeq_bool Qltb it_RAM types in
    ascending Z.ltb cpus /\
    (forall v, In v cpus <-> exists t, In t types /\ it_CPU t = v) /\
    ascending Qltb rams /\
    (forall v, In v rams -> exists t, In t types /\ it_RAM t = v) /\
    (forall t, In t types -> exists v, In v rams /\ (v == it_RAM t)%Q).
Proof.
  intros types cpus rams.
  split; [apply extract_CPU_ascending|].
  split; [apply extract_CPU_In|].
  split; [apply extract_RAM_ascending|].
  split; [apply extract_RAM_In | apply extract_RAM_complete].
Qed.

(** ** The offerings of a tier *)

Lemma int_of_float_comp (x y : Q) : (x == y)%Q -> int_of_float x = int_of_float y.
Proof.
  unfold Qeq, int_of_float. intros H.
  rewrite <- (Z.quot_mul_cancel_r (Qnum x) (Z.pos (Qden x)) (Z.pos (Qden y))) by lia.
  rewrite <- (Z.quot_mul_cancel_r (Qnum y) (Z.pos (Qden y)) (Z.pos (Qden x))) by lia.
  rewrite H. f_equal. lia.
Qed.

Section Stable_sort.
Context {A K : Type} (key : A -> K) (ltb : K -> K -> bool) (P : A -> bool).

Lemma filter_insert_by_false (x : A) (l : list A) :
  P x = false -> List.filter P (insert_by key ltb x l) = List.filter P l.
Proof.
  intros Hx. induction l as [|z l IH]; simpl; [now rewrite Hx|].
  destruct (ltb (key z) (key x)); simpl; [now rewrite IH | now rewrite Hx].
Qed.

Lemma filter_insert_by_true (x : A) (l : list A) :
  P x = true ->
  (forall y, In y l -> P y = true -> ltb (key y) (key x) = false) ->
  List.filter P (insert_by key ltb x l) = x :: List.filter P l.
Proof.
  intros Hx. induction l as [|z l IH]; simpl; intros Hl; [now rewrite Hx|].
  destruct (ltb (key z) (key x)) eqn:Hzx; simpl; [|now rewrite Hx].
  destruct (P z) eqn:Hz.
  - rewrite (Hl z (or_introl eq_refl) Hz) in Hzx. discriminate.
  - apply IH. intros y Hy. apply Hl. now right.
Qed.

(** A stable sort leaves the elements of equal key in their order. *)
Lemma filter_sorted (l : list A) :
  (forall x y, In x l -> In y l -> P x = true -> P y = true -> ltb (key y) (key x) = false) ->
  List.filter P (sorted key ltb l) = List.filter P l.
Proof.
  induction l as [|x l IH]; simpl; intros Hl; [reflexivity|].
  assert (IH' : List.filter P (sorted key ltb l) = List.filter P l)
    by (apply IH; intros; apply Hl; auto).
  destruct (P x) eqn:Hx.
  - rewrite filter_insert_by_true, IH'; auto.
    intros y Hy Hpy. apply Hl; auto. right. exact (proj1 (sorted_In key ltb y l) Hy).
  - now rewrite filter_insert_by_false.
Qed.
End Stable_sort.

Lemma pair_ltb_irrefl (k : Z * Z) : pair_ltb k k = false.
Proof.
  unfold pair_ltb. rewrite !Z.ltb_irrefl, andb_false_r. reflexivity.
Qed.

Lemma lookup_type_filter (cpu : Z) (ram : Q) (types : list instance_type) :
  cpu <> 0 -> ~ (ram == 0)%Q ->
  lookup_type cpu ram types = Ok (map it_type (List.filter (matches cpu ram) types)).
Proof.
  intros Hc Hr. unfold lookup_type, truthy_Z, truthy_Q.
  apply Z.eqb_neq in Hc. rewrite Hc.
  destruct (Qeq_bool ram 0) eqn:Hq; [apply Qeq_bool_iff in Hq; contradiction|].
  cbn [negb andb assert bind]. do 2 f_equal.
  apply (filter_sorted (fun i => (it_CPU i, int_of_float (it_RAM i))) pair_ltb
           (matches cpu ram)).
  intros x y _ _ Hx Hy. unfold matches in Hx, Hy.
  apply andb_true_iff in Hx as [Hxc Hxr]. apply andb_true_iff in Hy as [Hyc Hyr].
  apply Z.eqb_eq in Hxc, Hyc. apply Qeq_bool_iff in Hxr, Hyr.
  rewrite Hxc, Hyc, (int_of_float_comp (it_RAM y) (it_RAM x)) by now rewrite Hxr, Hyr.
  apply pair_ltb_irrefl.
Qed.

(** X4. [lookup_type] names the offerings whose CPU count and RAM size
    equal the ones asked for, in the order the catalog lists them; it
    asserts that neither number asked for is zero. *)
Theorem lookup_type_in_catalog_order :
  forall (cpu : Z) (ram : Q) (types : list instance_type),
    (cpu <> 0 -> ~ (ram == 0)%Q ->
     lookup_type cpu ram types = Ok (map it_type (List.filter (matches cpu ram) types))) /\
    (cpu = 0 \/ (ram == 0)%Q -> lookup_type cpu ram types = Raise AssertionError).
Proof.
  intros cpu ram types. split; [apply lookup_type_filter|].
  unfold lookup_type, truthy_Z, truthy_Q.
  intros [->|Hr]; [reflexivity|].
  apply Qeq_bool_iff in Hr. rewrite Hr, andb_false_r. reflexivity.
Qed.

Lemma lookup_type_in_catalog_order_witness :
  lookup_type 4 8
    [ {| it_type := "m5.xlarge"; it_CPU := 4; it_RAM := 16 |};
      {| it_type := "c5.xlarge"; it_CPU := 4; it_RAM := 8 |};
      {| it_type := "t3.micro"; it_CPU := 2; it_RAM := 1 |};
      {| it_type := "c5a.xlarge"; it_CPU := 4; it_RAM := 8 |} ]
    = Ok ["c5.xlarge"; "c5a.xlarge"].
Proof.
  exact (proj1 (lookup_type_in_catalog_order 4 8
                  [ {| it_type := "m5.xlarge"; it_CPU := 4; it_RAM := 16 |};
                    {| it_type := "c5.xlarge"; it_CPU := 4; it_RAM := 8 |};
                    {| it_type := "t3.micro"; it_CPU := 2; it_RAM := 1 |};
                    {| it_type := "c5a.xlarge"; it_CPU := 4; it_RAM := 8 |} ])
           ltac:(discriminate) ltac:(discriminate)).
Defined.

(** ** One step up the RAM ladder *)

Lemma get_next_ram_size_least (sizes : list Q) (ram next : Q) :
  ascending Qltb sizes ->
  get_next_ram_size sizes ram = Ok next ->
  In next sizes /\ (ram < next)%Q /\
  forall s, In s sizes -> (ram < s)%Q -> (next <= s)%Q.
Proof.
  intros Hs H.
  destruct (get_next_ram_size_spec sizes ram next Hs H) as (i & y & _ & Hy & Hyr & Hn & Hlt).
  split; [apply In_lookup; eauto|]. split; [exact Hlt|].
  intros s Hin Hrs. apply In_lookup in Hin as [k Hk].
  destruct (Nat.lt_trichotomy k (S i)) as [Hki|[->|Hki]].
  - exfalso. assert (Hle : (s <= y)%Q).
    { destruct (Nat.eq_dec k i) as [->|Hne].
      - rewrite Hy in Hk. injection Hk as ->. apply Qle_refl.
      - apply Qlt_le_weak, Qltb_lt.
        apply (ascending_lookup Qltb sizes k i s y Hs); auto. lia. }
    rewrite Hyr in Hle. exact (Qlt_not_le _ _ Hrs Hle).
  - rewrite Hn in Hk. injection Hk as ->. apply Qle_refl.
  - apply Qlt_le_weak, Qltb_lt. exact (ascending_lookup Qltb sizes (S i) k next s Hs Hki Hn Hk).
Qed.

Lemma get_next_ram_size_at_largest (smaller : list Q) (largest ram : Q) :
  ascending Qltb (smaller ++ [largest]) ->
  (largest == ram)%Q -> ~ (ram == 0)%Q ->
  get_next_ram_size (smaller ++ [largest]) ram = Raise AssertionError.
Proof.
  intros Hs Hlr Hr0. unfold get_next_ram_size.
  assert (Hlast : (smaller ++ [largest]) !! length smaller = Some largest)
    by (rewrite lookup_app_r, Nat.sub_diag by lia; reflexivity).
  destruct (index_found Qeq_bool _ ram largest _ Hlast) as (i & Hi & Hle);
    [now apply Qeq_bool_iff|].
  destruct (index_spec Qeq_bool _ ram i Hi) as (y & Hy & Hyr). apply Qeq_bool_iff in Hyr.
  assert (i = length smaller) as ->.
  { destruct (Nat.eq_dec i (length smaller)) as [|Hne]; [assumption|]. exfalso.
    assert (Hlt : Qltb y largest = true)
      by (apply (ascending_lookup Qltb _ i (length smaller) y largest Hs); auto; lia).
    apply Qltb_lt in Hlt. rewrite Hyr, Hlr in Hlt. exact (Qlt_irrefl _ Hlt). }
  unfold truthy_Q.
  destruct (Qeq_bool ram 0) eqn:Hq; [apply Qeq_bool_iff in Hq; contradiction|].
  assert (Hnil : is_nil (smaller ++ [largest]) = false) by (destruct smaller; reflexivity).
  rewrite Hnil. cbn [negb andb assert bind]. rewrite Hi. cbn [bind].
  rewrite length_app. cbn [length].
  replace (S (length smaller) <? length smaller + 1)%nat with false
    by (symmetry; apply Nat.ltb_ge; lia).
  reflexivity.
Qed.

(** X5. On an ascending ladder [get_next_ram_size] returns the least size
    larger than the current one; at the largest size its assertion fails. *)
Theorem get_next_ram_size_is_the_successor :
  forall (sizes : list Q) (ram : Q),
    ascending Qltb sizes ->
    (forall next,
        get_next_ram_size sizes ram = Ok next ->
        In next sizes /\ (ram < next)%Q /\
        forall s, In s sizes -> (ram < s)%Q -> (next <= s)%Q) /\
    (forall smaller largest,
        sizes = smaller ++ [largest] -> (largest == ram)%Q -> ~ (ram == 0)%Q ->
        get_next_ram_size sizes ram = Raise AssertionError).
Proof.
  intros sizes ram Hs. split.
  - intros next. now apply get_next_ram_size_least.
  - intros smaller largest -> Hlr Hr0. now apply get_next_ram_size_at_largest.
Qed.

Lemma get_next_ram_size_is_the_successor_witness :
  (forall next,
      get_next_ram_size [4; 8; 16]%Q 8 = Ok next ->
      In next [4; 8; 16]%Q /\ (8 < next)%Q /\
      forall s, In s [4; 8; 16]%Q -> (8 < s)%Q -> (next <= s)%Q) /\
  get_next_ram_size [4; 8; 16]%Q 16 = Raise AssertionError.
Proof.
  destruct (get_next_ram_size_is_the_successor [4; 8; 16]%Q 8) as [Hnext _];
    [repeat constructor|].
  destruct (get_next_ram_size_is_the_successor [4; 8; 16]%Q 16) as [_ Hlast];
    [repeat constructor|].
  split; [exact Hnext|].
  apply (Hlast [4; 8]%Q 16%Q); [reflexivity | reflexivity | discriminate].
Defined.

(** ** The walk up the RAM ladder *)

Lemma Qeq_bool_comp (x y z : Q) : (x == y)%Q -> Qeq_bool x z = Qeq_bool y z.
Proof.
  intros H. destruct (Qeq_bool y z) eqn:Hy.
  - apply Qeq_bool_iff. apply Qeq_bool_iff in Hy. now rewrite H.
  - destruct (Qeq_bool x z) eqn:Hx; [|reflexivity].
    apply Qeq_bool_iff in Hx. rewrite H in Hx. apply Qeq_bool_iff in Hx. congruence.
Qed.

Lemma lookup_type_comp (cpu : Z) (ram ram' : Q) (types : list instance_type) :
  (ram == ram')%Q -> lookup_type cpu ram types = lookup_type cpu ram' types.
Proof.
  intros H. unfold lookup_type, truthy_Q. rewrite (Qeq_bool_comp ram ram' 0 H).
  destruct (assert _); [|reflexivity]. cbn [bind]. do 2 f_equal.
  apply List.filter_ext. intros t.
  now rewrite (Qeq_bool_comm (it_RAM t) ram), (Qeq_bool_comm (it_RAM t) ram'),
    (Qeq_bool_comp ram ram' _ H).
Qed.

Section First_tier.
Variables (types : list instance_type) (sizes : list Q) (min_cpu : Z) (ram : Q).
Hypothesis sizes_ascending : ascending Qltb sizes.

(** What the loop returns was found at the first size, from the one it
    starts at, where [lookup_type] finds anything. *)
Lemma size_loop_first_tier (fuel : nat) (min_ram : Q) (found : list string) :
  In min_ram sizes -> (ram <= min_ram)%Q ->
  (forall s, In s sizes -> (ram <= s)%Q -> (s < min_ram)%Q ->
             lookup_type min_cpu s types = Ok []) ->
  size_loop fuel types sizes min_cpu min_ram = Some (Ok found) ->
  exists tier,
    In tier sizes /\ (ram <= tier)%Q /\
    lookup_type min_cpu tier types = Ok found /\ found <> [] /\
    forall s, In s sizes -> (ram <= s)%Q -> (s < tier)%Q ->
              lookup_type min_cpu s types = Ok [].
Proof.
  revert min_ram. induction fuel as [|fuel IH]; intros min_ram Hin Hram Hlow; [discriminate|].
  cbn [size_loop].
  destruct (lookup_type min_cpu min_ram types) as [found0|] eqn:Hlook; [|discriminate].
  destruct (get_next_ram_size sizes min_ram) as [next|] eqn:Hnext; [|discriminate].
  cbn [bind].
  destruct (find_greater_than_or_equal Qltb truthy_Q sizes next) as [min_ram'|] eqn:Hfind;
    [|discriminate].
  destruct found0 as [|id found0]; cbn [is_nil].
  - destruct (get_next_ram_size_least sizes min_ram next sizes_ascending Hnext)
      as (Hnin & Hlt & Hleast).
    destruct (find_greater_than_or_equal_least Qltb truthy_Q Qltb_trans sizes next min_ram'
                sizes_ascending Hfind) as (Hin' & Hge & Hfirst).
    apply Qltb_ge in Hge.
    assert (Hle' : (min_ram' <= next)%Q).
    { destruct (Hfirst next Hnin) as [->|H]; [apply Qltb_ge, Qle_refl | apply Qle_refl |].
      now apply Qltb_le. }
    apply IH; [exact Hin' | | ].
    + apply Qle_trans with min_ram; [exact Hram|].
      apply Qlt_le_weak, Qlt_le_trans with next; assumption.
    + intros s Hs Hrs Hsm.
      destruct (Qlt_le_dec s min_ram) as [Hslt|Hsge]; [now apply Hlow|].
      assert (Heq : (s == min_ram)%Q).
      { apply Qle_antisym; [|exact Hsge].
        apply Qnot_lt_le. intros Hgt.
        pose proof (Hleast s Hs Hgt) as Hns.
        apply (Qlt_irrefl s). apply Qlt_le_trans with min_ram'; [exact Hsm|].
        apply Qle_trans with next; assumption. }
      now rewrite (lookup_type_comp min_cpu s min_ram types Heq).
  - intros H. injection H as <-. exists min_ram. repeat split; auto; discriminate.
Qed.
End First_tier.

(** X7. What the size resolution returns is what [lookup_type] finds for
    the smallest CPU count of the catalog that covers the CPUs required and
    the first RAM size of the ladder, from the smallest that covers the RAM
    required, at which it finds anything. *)
Theorem size_resolution_returns_the_first_matching_tier :
  forall (cpu : Z) (ram : Q) (types : list instance_type) (found : list string),
    get_correct_instance_size cpu ram types = Some (Ok found) ->
    exists min_cpu tier,
      find_greater_than_or_equal Z.ltb truthy_Z
        (extract_list_from_instance_types Z.eqb Z.ltb it_CPU types) cpu = Ok min_cpu /\
      In tier (extract_list_from_instance_types Qeq_bool Qltb it_RAM types) /\
      (ram <= tier)%Q /\
      lookup_type min_cpu tier types = Ok found /\ found <> [] /\
      forall s, In s (extract_list_from_instance_types Qeq_bool Qltb it_RAM types) ->
                (ram <= s)%Q -> (s < tier)%Q -> lookup_type min_cpu s types = Ok [].
Proof.
  intros cpu ram types found. unfold get_correct_instance_size.
  destruct (assert _); [|discriminate].
  destruct (find_greater_than_or_equal Z.ltb truthy_Z _ cpu) as [min_cpu|] eqn:Hcpu;
    [|discriminate].
  set (sizes := extract_list_from_instance_types Qeq_bool Qltb it_RAM types).
  destruct (find_greater_than_or_equal Qltb truthy_Q sizes ram) as [min_ram|] eqn:Hram;
    [|discriminate].
  pose proof (extract_RAM_ascending types) as Hs. fold sizes in Hs.
  intros Hloop.
  destruct (find_greater_than_or_equal_least Qltb truthy_Q Qltb_trans sizes ram min_ram Hs Hram)
    as (Hin & Hge & Hfirst).
  apply Qltb_ge in Hge.
  destruct (size_loop_first_tier types sizes min_cpu ram Hs (S (length sizes)) min_ram found
              Hin Hge)
    as (tier & Ht); [|exact Hloop|].
  - intros s Hsin Hrs Hsm. exfalso.
    destruct (Hfirst s Hsin) as [->|Hlt]; [now apply Qltb_ge | exact (Qlt_irrefl _ Hsm) |].
    apply Qltb_lt in Hlt. exact (Qlt_irrefl _ (Qlt_trans _ _ _ Hsm Hlt)).
  - exists min_cpu, tier. split; [reflexivity | exact Ht].
Qed.

Lemma size_resolution_returns_the_first_matching_tier_witness :
  exists min_cpu tier,
    find_greater_than_or_equal Z.ltb truthy_Z
      (extract_list_from_instance_types Z.eqb Z.ltb it_CPU scenario_catalog) 3 = Ok min_cpu /\
    In tier (extract_list_from_instance_types Qeq_bool Qltb it_RAM scenario_catalog) /\
    (1 <= tier)%Q /\
    lookup_type min_cpu tier scenario_catalog = Ok ["b"] /\ ["b"] <> [] /\
    forall s, In s (extract_list_from_instance_types Qeq_bool Qltb it_RAM scenario_catalog) ->
              (1 <= s)%Q -> (s < tier)%Q -> lookup_type min_cpu s scenario_catalog = Ok [].
Proof.
  apply (size_resolution_returns_the_first_matching_tier 3 1 scenario_catalog ["b"]).
  reflexivity.
Defined.

Lemma get_correct_instance_size_below_largest_witness :
  exists t larger,
    In t scenario_catalog /\ it_type t = "b" /\
    In larger scenario_catalog /\ (it_RAM t < it_RAM larger)%Q.
Proof.
  apply (get_correct_instance_size_below_largest 3 5 scenario_catalog ["b"]).
  - reflexivity.
  - left. reflexivity.
Defined.

(** X8. How the size resolution fails before it walks the ladder: with
    [AssertionError] when a requirement is zero or the catalog is empty,
    with [ValueError] when the CPUs required exceed every CPU count of the
    catalog, or the RAM required exceeds every RAM size of it. *)
Theorem size_resolution_failures :
  forall (cpu : Z) (ram : Q) (types : list instance_type),
    (cpu = 0 \/ (ram == 0)%Q \/ types = [] ->
     get_correct_instance_size cpu ram types = Some (Raise AssertionError)) /\
    (cpu <> 0 -> ~ (ram == 0)%Q -> types <> [] ->
     (forall t, In t types -> it_CPU t < cpu) ->
     get_correct_instance_size cpu ram types = Some (Raise ValueError)) /\
    (cpu <> 0 -> ~ (ram == 0)%Q ->
     (exists t, In t types /\ cpu <= it_CPU t) ->
     (forall t, In t types -> (it_RAM t < ram)%Q) ->
     get_correct_instance_size cpu ram types = Some (Raise ValueError)).
Proof.
  intros cpu ram types.
  assert (Hassert : cpu <> 0 -> ~ (ram == 0)%Q ->
                    truthy_Z cpu = true /\ truthy_Q ram = true).
  { intros Hc Hr. unfold truthy_Z, truthy_Q. apply Z.eqb_neq in Hc. rewrite Hc.
    destruct (Qeq_bool ram 0) eqn:Hq; [apply Qeq_bool_iff in Hq; contradiction | now split]. }
  unfold get_correct_instance_size. split; [|split].
  - intros [-> | [Hr | ->]].
    + reflexivity.
    + unfold truthy_Q. apply Qeq_bool_iff in Hr. rewrite Hr, andb_false_r. reflexivity.
    + unfold assert. destruct (truthy_Z cpu && truthy_Q ram); reflexivity.
  - intros Hc Hr Hne Hall. destruct (Hassert Hc Hr) as [Htc Htr].
    rewrite Htc, Htr. cbn [andb assert].
    rewrite (find_greater_than_or_equal_none Z.ltb truthy_Z Zltb_trans); auto.
    + apply extract_CPU_ascending.
    + destruct types as [|t types']; [contradiction|]. intros Hnil.
      assert (Hin : In (it_CPU t) (extract_list_from_instance_types Z.eqb Z.ltb it_CPU (t :: types')))
        by (apply extract_CPU_In; exists t; split; [now left | reflexivity]).
      rewrite Hnil in Hin. destruct Hin.
    + intros y Hy. apply extract_CPU_In in Hy as (t & Ht & <-). apply Z.ltb_lt. auto.
  - intros Hc Hr (t & Ht & Htc') Hall. destruct (Hassert Hc Hr) as [Htc Htr].
    rewrite Htc, Htr. cbn [andb assert].
    destruct (find_greater_than_or_equal_some Z.ltb truthy_Z Zltb_trans _ cpu (it_CPU t)
                (extract_CPU_ascending types) Htc) as [min_cpu ->].
    { apply extract_CPU_In. eauto. }
    { apply Z.ltb_ge. exact Htc'. }
    rewrite (find_greater_than_or_equal_none Qltb truthy_Q Qltb_trans); auto.
    + apply extract_RAM_ascending.
    + destruct (extract_RAM_complete types t Ht) as (v & Hv & _).
      intros Hnil. rewrite Hnil in Hv. destruct Hv.
    + intros y Hy. apply extract_RAM_In in Hy as (t' & Ht' & <-). apply Qltb_lt. auto.
Qed.

Lemma size_resolution_failures_witness :
  get_correct_instance_size 0 4 scenario_catalog = Some (Raise AssertionError) /\
  get_correct_instance_size 8 4 scenario_catalog = Some (Raise ValueError) /\
  get_correct_instance_size 2 32 scenario_catalog = Some (Raise ValueError).
Proof.
  split; [|split].
  - apply (proj1 (size_resolution_failures 0 4 scenario_catalog)). now left.
  - apply (proj1 (proj2 (size_resolution_failures 8 4 scenario_catalog)));
      [discriminate | discriminate | discriminate |].
    intros t [<-|[<-|[<-|[]]]]; reflexivity.
  - apply (proj2 (proj2 (size_resolution_failures 2 32 scenario_catalog)));
      [discriminate | discriminate | |].
    + eexists. split; [left; reflexivity | discriminate].
    + intros t [<-|[<-|[<-|[]]]]; reflexivity.
Defined.

(** ** The candidates without a price *)

Lemma counter_get_incr (c : Counter) (i k : string) :
  counter_get (counter_incr c i) k =
    if String.eqb k i then S (counter_get c k) else counter_get c k.
Proof.
  unfold counter_get, counter_incr.
  destruct (String.eqb_spec k i) as [->|Hne].
  - now rewrite lookup_insert_eq.
  - now rewrite lookup_insert_ne by congruence.
Qed.

Section Invalid_instances.
Variable get_price : string -> string -> pricing_model -> Q.
Variables (os : string) (model : pricing_model).

Lemma invalid_instances_fold (instances : list string) (st : pricing_state) :
  ps_invalid_instances (fold_left (price_step get_price os model) instances st) =
    ps_invalid_instances st ++ List.filter (unavailableb get_price os model) instances.
Proof.
  revert st. induction instances as [|i instances IH]; intros st; simpl;
    [now rewrite app_nil_r|].
  rewrite IH. unfold price_step, unavailableb.
  destruct (Qeq_bool (get_price i os model) 0); simpl; [now rewrite <- app_assoc | reflexivity].
Qed.

Lemma invalid_count_fold (instances : list string) (st : pricing_state) (k : string) :
  counter_get (ps_count (fold_left (price_step get_price os model) instances st)) k =
    (counter_get (ps_count st) k
     + occurrences k (List.filter (unavailableb get_price os model) instances))%nat.
Proof.
  revert st. induction instances as [|i instances IH]; intros st; simpl;
    [unfold occurrences; simpl; lia|].
  rewrite IH. unfold price_step, unavailableb, occurrences.
  destruct (Qeq_bool (get_price i os model) 0); simpl; [|reflexivity].
  rewrite counter_get_incr. destruct (String.eqb k i); simpl; lia.
Qed.
End Invalid_instances.

(** X9. Beside its choice [get_least_expensive_option] returns the
    candidates without a price, in the order and as often as they were
    given, and has added to the counter, for every identifier, the number
    of times it occurs among them. With an empty operating system string
    it prices nothing: it returns no candidate and leaves the counter alone. *)
Theorem least_expensive_option_accounts_for_invalid_instances :
  forall (get_price : string -> string -> pricing_model -> Q)
         (instances : list string) (os : string) (model : pricing_model) (count : Counter),
    (os <> "" ->
     snd (fst (get_least_expensive_option get_price instances os model count)) =
       List.filter (unavailableb get_price os model) instances /\
     forall k,
       counter_get (snd (get_least_expensive_option get_price instances os model count)) k =
         (counter_get count k
          + occurrences k (List.filter (unavailableb get_price os model) instances))%nat) /\
    (os = "" ->
     get_least_expensive_option get_price instances os model count =
       ((no_type_and_cost, []), count)).
Proof.
  intros gp instances os model count. unfold get_least_expensive_option. split.
  - intros Hos.
    destruct instances as [|i instances];
      [split; [reflexivity | intros; unfold occurrences; simpl; lia]|].
    cbn [is_nil]. destruct (String.eqb_spec os "") as [|_]; [contradiction|].
    set (l := i :: instances).
    set (st0 := {| ps_prices := []; ps_invalid_instances := []; ps_count := count |}).
    pose proof (invalid_instances_fold gp os model l st0) as Hinv.
    pose proof (invalid_count_fold gp os model l st0) as Hcnt.
    destruct (sorted _ Z.ltb (ps_prices (fold_left (price_step gp os model) l st0)));
      cbn [fst snd]; split; auto.
  - intros ->. destruct (is_nil instances); reflexivity.
Qed.

Lemma least_expensive_option_accounts_for_invalid_instances_witness :
  snd (fst (get_least_expensive_option two_prices ["x"; "a"; "y"; "x"] "CentOS" onDemand ∅)) =
    ["x"; "y"; "x"] /\
  forall k,
    counter_get (snd (get_least_expensive_option two_prices ["x"; "a"; "y"; "x"] "CentOS"
                        onDemand ∅)) k =
      (counter_get ∅ k + occurrences k ["x"; "y"; "x"])%nat.
Proof.
  exact (proj1 (least_expensive_option_accounts_for_invalid_instances
                  two_prices ["x"; "a"; "y"; "x"] "CentOS" onDemand ∅)
           ltac:(discriminate)).
Defined.

(** ** Ties between candidates *)

Section First_minimum.
Context {A K : Type} (key : A -> K) (ltb : K -> K -> bool).

(** The head of a stably sorted list stood in the list before every
    element of a key not below its own. *)
Lemma sorted_head_first (l r : list A) (x : A) :
  sorted key ltb l = x :: r ->
  exists l1 l2, l = l1 ++ x :: l2 /\ forall y, In y l1 -> ltb (key x) (key y) = true.
Proof.
  revert x r. induction l as [|a l IH]; intros x r; simpl; [discriminate|].
  destruct (sorted key ltb l) as [|h t] eqn:Hs; simpl.
  - intros H. injection H as <- _. exists [], l. split; [reflexivity | intros y []].
  - destruct (ltb (key h) (key a)) eqn:Hha.
    + intros H. injection H as <- _.
      destruct (IH h t eq_refl) as (l1 & l2 & -> & Hl1).
      exists (a :: l1), l2. split; [reflexivity|].
      intros y [<-|Hy]; [exact Hha | now apply Hl1].
    + intros H. injection H as <- _. exists [], l. split; [reflexivity | intros y []].
Qed.
End First_minimum.

Lemma first_occurrence (x : string) (l : list string) :
  In x l -> exists pre post, l = pre ++ x :: post /\ ~ In x pre.
Proof.
  induction l as [|y l IH]; [intros []|].
  destruct (String.eqb_spec y x) as [->|Hne].
  - intros _. exists [], l. split; [reflexivity | intros []].
  - intros [->|Hin]; [contradiction|].
    destruct (IH Hin) as (pre & post & -> & Hpre).
    exists (y :: pre), post. split; [reflexivity|].
    intros [->|H]; [now apply Hne | now apply Hpre].
Qed.

Lemma dict_set_prefix {V : Type} (d : list (string * V)) (k : string) (v : V) :
  (forall v', In (k, v') d -> v' = v) ->
  exists rest, dict_set d k v = d ++ rest.
Proof.
  induction d as [|[k' v'] d IH]; simpl; intros Hd; [now exists [(k, v)]|].
  destruct (String.eqb_spec k' k) as [->|Hne].
  - exists []. rewrite app_nil_r. f_equal. f_equal. symmetry. apply Hd. now left.
  - destruct IH as [rest ->]; [intros v0 H0; apply Hd; now right|]. now exists rest.
Qed.

Lemma dict_set_fresh {V : Type} (d : list (string * V)) (k : string) (v : V) :
  (forall v', ~ In (k, v') d) -> dict_set d k v = d ++ [(k, v)].
Proof.
  induction d as [|[k' v'] d IH]; simpl; intros Hd; [reflexivity|].
  destruct (String.eqb_spec k' k) as [->|Hne].
  - exfalso. apply (Hd v'). now left.
  - rewrite IH; [reflexivity|]. intros v0 H0. apply (Hd v0). now right.
Qed.

Section Price_order.
Variable get_price : string -> string -> pricing_model -> Q.
Variables (os : string) (model : pricing_model).

Let step := price_step get_price os model.

(** Every price on record is the price of its key. *)
Let faithful (st : pricing_state) : Prop :=
  forall k v, In (k, v) (ps_prices st) -> v = get_price k os model.

Lemma price_step_faithful (st : pricing_state) (i : string) :
  faithful st -> faithful (step st i).
Proof.
  unfold faithful, step, price_step. intros Hst k v.
  destruct (Qeq_bool (get_price i os model) 0); simpl; [apply Hst|].
  intros H. destruct (dict_set_In_inv _ _ _ _ _ H) as [[-> ->]|Hin]; [reflexivity | now apply Hst].
Qed.

(** The prices on record are never displaced: pricing more candidates
    only adds behind them. *)
Lemma prices_grow (instances : list string) (st : pricing_state) :
  faithful st ->
  exists rest, ps_prices (fold_left step instances st) = ps_prices st ++ rest.
Proof.
  revert st. induction instances as [|i instances IH]; intros st Hst; simpl.
  - exists []. now rewrite app_nil_r.
  - destruct (IH (step st i) (price_step_faithful st i Hst)) as [rest ->].
    unfold step, price_step.
    destruct (Qeq_bool (get_price i os model) 0); simpl; [now exists rest|].
    destruct (dict_set_prefix (ps_prices st) i (get_price i os model)) as [tail ->].
    + intros v' Hv'. now apply Hst.
    + exists (tail ++ rest). now rewrite app_assoc.
Qed.

Lemma prices_of_first_occurrence (pre post : list string) (x : string) (st0 : pricing_state) :
  ps_prices st0 = [] ->
  ~ In x pre -> available get_price os model x ->
  exists rest,
    ps_prices (fold_left step (pre ++ x :: post) st0) =
      ps_prices (fold_left step pre st0) ++ (x, get_price x os model) :: rest.
Proof.
  intros H0 Hpre Hx. rewrite fold_left_app. simpl.
  set (st := fold_left step pre st0).
  assert (Hfaith : faithful st).
  { intros k v Hin. destruct (prices_sound get_price os model pre st0 k v Hin) as [H|(_ & H & _)];
      [rewrite H0 in H; destruct H | exact H]. }
  destruct (prices_grow post (step st x) (price_step_faithful st x Hfaith)) as [rest ->].
  unfold step at 1, price_step.
  destruct (Qeq_bool (get_price x os model) 0) eqn:Hz;
    [apply Qeq_bool_iff in Hz; contradiction|]. simpl.
  rewrite dict_set_fresh.
  - exists rest. now rewrite <- app_assoc.
  - intros v' Hin.
    destruct (prices_sound get_price os model pre st0 x v' Hin) as [H|(H & _)];
      [rewrite H0 in H; destruct H | contradiction].
Qed.
End Price_order.

(** X10. Among the priced candidates whose whole-dollar price is the
    least, [get_least_expensive_option] names the one given first: every
    priced candidate that stands before the first occurrence of the one it
    names has a larger whole-dollar price. *)
Theorem least_expensive_option_prefers_the_earliest :
  forall (get_price : string -> string -> pricing_model -> Q)
         (instances : list string) (os : string) (model : pricing_model) (count : Counter)
         (best : string),
    Instance_Type (fst (fst (get_least_expensive_option get_price instances os model count)))
      = Some best ->
    exists pre post,
      instances = pre ++ best :: post /\ ~ In best pre /\
      forall j, In j pre -> available get_price os model j ->
                int_of_float (get_price best os model) < int_of_float (get_price j os model).
Proof.
  intros gp instances os model count best. unfold get_least_expensive_option.
  destruct (is_nil instances); [discriminate|].
  destruct (String.eqb os ""); [discriminate|].
  set (st0 := {| ps_prices := []; ps_invalid_instances := []; ps_count := count |}).
  destruct (sorted (fun x : string * Q => int_of_float (snd x)) Z.ltb
              (ps_prices (fold_left (price_step gp os model) instances st0)))
    as [|[k v] r] eqn:Hs; [discriminate|].
  cbn [fst snd Instance_Type]. intros H. injection H as Hk. subst k.
  destruct (sorted_head_first _ Z.ltb _ _ _ Hs) as (l1 & l2 & Hsplit & Hl1).
  assert (Hin : In (best, v) (ps_prices (fold_left (price_step gp os model) instances st0)))
    by (rewrite Hsplit; apply in_or_app; right; now left).
  destruct (prices_sound gp os model instances st0 best v Hin) as [[]|(Hbest & -> & Hav)].
  destruct (first_occurrence best instances Hbest) as (pre & post & -> & Hpre).
  exists pre, post. split; [reflexivity|]. split; [exact Hpre|].
  intros j Hj Haj.
  destruct (prices_of_first_occurrence gp os model pre post best st0 eq_refl Hpre Hav)
    as [rest Hgrow].
  assert (Hjp : In (j, gp j os model) (ps_prices (fold_left (price_step gp os model) pre st0)))
    by (apply prices_complete; [exact Haj | now left]).
  rewrite Hgrow in Hsplit.
  apply List.app_eq_app in Hsplit as [l [[Hp Hl]|[Hp Hl]]].
  - destruct l as [|[k' v'] l].
    + rewrite app_nil_r in Hp. rewrite Hp in Hjp.
      apply Z.ltb_lt. exact (Hl1 _ Hjp).
    + exfalso. simpl in Hl. injection Hl as Hk' Hv' _. subst k' v'.
      assert (Hb : In (best, gp best os model)
                     (ps_prices (fold_left (price_step gp os model) pre st0)))
        by (rewrite Hp; apply in_or_app; right; now left).
      destruct (prices_sound gp os model pre st0 _ _ Hb) as [[]|(H & _)]. contradiction.
  - apply Z.ltb_lt. apply (Hl1 (j, gp j os model)). rewrite Hp. apply in_or_app. now left.
Qed.

Lemma least_expensive_option_prefers_the_earliest_witness :
  exists pre post,
    ["c"; "a"; "b"; "a"] = pre ++ "c" :: post /\ ~ In "c" pre /\
    forall j, In j pre -> available three_prices "CentOS" onDemand j ->
              int_of_float (three_prices "c" "CentOS" onDemand)
              < int_of_float (three_prices j "CentOS" onDemand).
Proof.
  apply (least_expensive_option_prefers_the_earliest three_prices ["c"; "a"; "b"; "a"]
           "CentOS" onDemand ∅ "c").
  reflexivity.
Defined.

(** ** The disks of a machine *)

Lemma int_of_string_raises (s : string) (e : exn) :
  int_of_string s = Raise e -> e = ValueError.
Proof.
  unfold int_of_string. destruct (int_digits _ 0 false); [discriminate|].
  intros H. now injection H as <-.
Qed.

Section Disks.
Variable vm : string.

Lemma storage_mbytes_app (l1 l2 : list disk) (mbytes : Z) :
  storage_mbytes vm (l1 ++ l2) mbytes =
    let* m := storage_mbytes vm l1 mbytes in storage_mbytes vm l2 m.
Proof.
  revert mbytes. induction l1 as [|d l1 IH]; intros mbytes; simpl; [reflexivity|].
  destruct (String.eqb (disk_VM d) vm); [|apply IH].
  destruct (int_of_string (remove_commas (disk_Capacity d))); simpl; [apply IH | reflexivity].
Qed.

Lemma storage_mbytes_ok (disks : list disk) (mbytes : Z) :
  Forall (fun d => disk_VM d = vm ->
                   exists k, int_of_string (remove_commas (disk_Capacity d)) = Ok k) disks ->
  exists m, storage_mbytes vm disks mbytes = Ok m.
Proof.
  intros H. revert mbytes. induction H as [|d disks Hd _ IH]; intros mbytes; simpl; [eauto|].
  destruct (String.eqb_spec (disk_VM d) vm) as [Heq|_]; [|apply IH].
  destruct (Hd Heq) as [k ->]. simpl. apply IH.
Qed.

Lemma storage_mbytes_bad (disks : list disk) (d : disk) (mbytes : Z) :
  In d disks -> disk_VM d = vm ->
  int_of_string (remove_commas (disk_Capacity d)) = Raise ValueError ->
  storage_mbytes vm disks mbytes = Raise ValueError.
Proof.
  intros Hin Hvm Hbad. revert mbytes.
  induction disks as [|d' disks IH]; intros mbytes; [destruct Hin|]. simpl.
  destruct Hin as [->|Hin].
  - rewrite Hvm, String.eqb_refl, Hbad. reflexivity.
  - destruct (String.eqb (disk_VM d') vm); [|now apply IH].
    destruct (int_of_string (remove_commas (disk_Capacity d'))) as [k|e] eqn:Hk; simpl.
    + now apply IH.
    + now rewrite (int_of_string_raises _ _ Hk).
Qed.
End Disks.

(** X11. The storage footprint of a machine is the capacity, in MB over
    1000, of the last disk record that carries its identifier: the records
    of the machine before it are read and then forgotten. *)
Theorem storage_footprint_is_the_last_record :
  forall (get_storage_cost : result Q) (price : Q) (h : host)
         (before after : list disk) (d : disk) (n : Z),
    get_storage_cost = Ok price ->
    Forall (fun d' => disk_VM d' = host_VM h ->
                      exists k, int_of_string (remove_commas (disk_Capacity d')) = Ok k)
      before ->
    disk_VM d = host_VM h ->
    int_of_string (remove_commas (disk_Capacity d)) = Ok n ->
    Forall (fun d' => disk_VM d' <> host_VM h) after ->
    exists sc,
      get_three_year_storage_cost get_storage_cost h (before ++ d :: after) = Ok sc /\
      (Storage sc == inject_Z n / 1000)%Q.
Proof.
  intros gsc price h before after d n Hp Hbefore Hd Hn Hafter.
  eexists. split.
  - apply (get_three_year_storage_cost_returns gsc h _ price n Hp).
    + destruct before; discriminate.
    + rewrite storage_mbytes_app.
      destruct (storage_mbytes_ok (host_VM h) before 0 Hbefore) as [m ->]. cbn [bind].
      simpl. rewrite Hd, String.eqb_refl, Hn. cbn [bind].
      now apply storage_mbytes_no_match.
  - cbn [Storage]. reflexivity.
Qed.

Lemma storage_footprint_is_the_last_record_witness :
  exists sc,
    get_three_year_storage_cost (Ok (1 # 10)) sample_host
      ([ {| disk_Capacity := "1,000"; disk_VM := "vm1" |} ]
       ++ {| disk_Capacity := "2,000"; disk_VM := "vm1" |}
       :: [ {| disk_Capacity := "n/a"; disk_VM := "vm2" |} ]) = Ok sc /\
    (Storage sc == inject_Z 2000 / 1000)%Q.
Proof.
  apply (storage_footprint_is_the_last_record (Ok (1 # 10)) (1 # 10) sample_host).
  - reflexivity.
  - repeat constructor. intros _. now exists 1000.
  - reflexivity.
  - reflexivity.
  - repeat constructor. discriminate.
Defined.

(** X12. How [get_three_year_storage_cost] fails: with [AssertionError] on
    an empty list of disks, before the storage price is asked for; with the
    exception of the price lookup when that one raises; and with
    [ValueError] when some disk record of the machine has a capacity that
    is no integer, wherever the record stands. *)
Theorem storage_cost_failures :
  forall (get_storage_cost : result Q) (h : host) (disks : list disk),
    (disks = [] ->
     get_three_year_storage_cost get_storage_cost h disks = Raise AssertionError) /\
    (forall e, disks <> [] -> get_storage_cost = Raise e ->
               get_three_year_storage_cost get_storage_cost h disks = Raise e) /\
    (forall price d,
        get_storage_cost = Ok price ->
        In d disks -> disk_VM d = host_VM h ->
        int_of_string (remove_commas (disk_Capacity d)) = Raise ValueError ->
        get_three_year_storage_cost get_storage_cost h disks = Raise ValueError).
Proof.
  intros gsc h disks. unfold get_three_year_storage_cost. split; [|split].
  - intros ->. reflexivity.
  - intros e Hne ->. destruct disks; [contradiction | reflexivity].
  - intros price d -> Hin Hvm Hbad.
    destruct disks as [|d0 disks]; [destruct Hin|]. cbn [is_nil negb assert bind].
    now rewrite (storage_mbytes_bad (host_VM h) (d0 :: disks) d 0 Hin Hvm Hbad).
Qed.

Lemma storage_cost_failures_witness :
  get_three_year_storage_cost (Ok (1 # 10)) sample_host [] = Raise AssertionError /\
  get_three_year_storage_cost (Raise ValueError) sample_host sample_disks = Raise ValueError /\
  get_three_year_storage_cost (Ok (1 # 10)) sample_host disks_with_bad_capacity
    = Raise ValueError.
Proof.
  split; [|split].
  - apply (proj1 (storage_cost_failures (Ok (1 # 10)) sample_host [])). reflexivity.
  - apply (proj1 (proj2 (storage_cost_failures (Raise ValueError) sample_host sample_disks)));
      [discriminate | reflexivity].
  - apply (proj2 (proj2 (storage_cost_failures (Ok (1 # 10)) sample_host
                           disks_with_bad_capacity)) (1 # 10)
             {| disk_Capacity := "2000.5"; disk_VM := "vm1" |});
      [reflexivity | right; left; reflexivity | reflexivity | reflexivity].
Defined.

(** ** The columns of a table *)

Lemma find_column_some (title : string) (title_row : row) (start column : nat) :
  find_column title title_row start = Some column ->
  exists i value,
    column = (start + i)%nat /\ title_row !! i = Some value /\
    header_has title value = true /\
    forall i' value', (i' < i)%nat -> title_row !! i' = Some value' ->
                      header_has title value' = false.
Proof.
  revert start. induction title_row as [|cell cells IH]; intros start; simpl; [discriminate|].
  fold (header_has title cell). destruct (header_has title cell) eqn:Hc.
  - intros H. injection H as <-. exists O, cell.
    repeat split; [lia | exact Hc | intros; lia].
  - intros H. destruct (IH _ H) as (i & value & -> & Hi & Hv & Hbefore).
    exists (S i), value. repeat split; [lia | exact Hi | exact Hv |].
    intros [|i'] value' Hlt Hl; simpl in Hl; [congruence|].
    apply (Hbefore i'); [lia | exact Hl].
Qed.

Lemma find_column_none (title : string) (title_row : row) (start : nat) :
  find_column title title_row start = None <->
  forall value, In value title_row -> header_has title value = false.
Proof.
  revert start. induction title_row as [|cell cells IH]; intros start; simpl.
  - split; [intros _ value [] | reflexivity].
  - fold (header_has title cell). destruct (header_has title cell) eqn:Hc.
    + split; [discriminate|]. intros H. rewrite (H cell) in Hc by now left. discriminate.
    + rewrite IH. split.
      * intros H value [<-|Hin]; auto.
      * intros H value Hin. apply H. now right.
Qed.

Lemma first_column_ok (title_row : row) (titles : list string) (column : nat) :
  first_column title_row titles = Ok column ->
  exists skipped title rest,
    titles = skipped ++ title :: rest /\
    find_column title title_row O = Some column /\
    forall t value, In t skipped -> In value title_row -> header_has t value = false.
Proof.
  induction titles as [|title titles IH]; simpl; [discriminate|].
  destruct (find_column title title_row 0) as [c|] eqn:Hf.
  - intros H. injection H as <-. exists [], title, titles.
    repeat split; [exact Hf | intros t value []].
  - intros H. destruct (IH H) as (skipped & title' & rest & -> & Hc & Hsk).
    exists (title :: skipped), title', rest. repeat split; [exact Hc|].
    intros t value [Heq|Ht] Hv; [subst t|now apply Hsk].
    now apply (proj1 (find_column_none title title_row 0)).
Qed.

Lemma first_column_none (title_row : row) (titles : list string) :
  first_column title_row titles = Raise ValueError <->
  forall t value, In t titles -> In value title_row -> header_has t value = false.
Proof.
  induction titles as [|title titles IH]; simpl.
  - split; [intros _ t value [] | reflexivity].
  - destruct (find_column title title_row 0) as [c|] eqn:Hf.
    + split; [discriminate|]. intros H.
      assert (Hn : find_column title title_row 0 = None)
        by (apply find_column_none; intros value Hv; apply H; [now left | exact Hv]).
      congruence.
    + rewrite IH. split.
      * intros H t value [Heq|Ht] Hv; [subst t|auto].
        now apply (proj1 (find_column_none title title_row 0)).
      * intros H t value Ht Hv. apply H; [now right | exact Hv].
Qed.

(** X13. The column that [get_csv_column_title] returns is in the header
    row; its cell, put in lower case and stripped, contains one of the
    titles in lower case; no earlier cell contains that title, and no cell
    at all contains a title listed before it. *)
Theorem csv_column_title_found :
  forall (title_row : row) (titles : list string) (column : nat),
    get_csv_column_title title_row titles = Ok column ->
    exists skipped title rest value,
      titles = skipped ++ title :: rest /\
      title_row !! column = Some value /\
      header_has title value = true /\
      (forall c v, (c < column)%nat -> title_row !! c = Some v -> header_has title v = false) /\
      (forall t v, In t skipped -> In v title_row -> header_has t v = false).
Proof.
  intros title_row titles column. unfold get_csv_column_title.
  destruct (assert _); [|discriminate]. cbn [bind]. intros H.
  destruct (first_column_ok _ _ _ H) as (skipped & title & rest & Ht & Hf & Hsk).
  destruct (find_column_some _ _ _ _ Hf) as (i & value & -> & Hi & Hv & Hbefore).
  exists skipped, title, rest, value. repeat split; auto.
Qed.

Lemma csv_column_title_found_witness :
  exists skipped title rest value,
    ["Capacity MB"; "Capacity MiB"; "Capacity"] = skipped ++ title :: rest /\
    ["VM"; "Disk"; " Capacity MiB "] !! 2%nat = Some value /\
    header_has title value = true /\
    (forall c v, (c < 2)%nat -> ["VM"; "Disk"; " Capacity MiB "] !! c = Some v ->
                 header_has title v = false) /\
    (forall t v, In t skipped -> In v ["VM"; "Disk"; " Capacity MiB "] ->
                 header_has t v = false).
Proof.
  apply (csv_column_title_found ["VM"; "Disk"; " Capacity MiB "]
           ["Capacity MB"; "Capacity MiB"; "Capacity"] 2).
  reflexivity.
Defined.

(** X14. [get_csv_column_title] fails with [AssertionError] exactly when
    the header row or the list of titles is empty, and with [ValueError]
    exactly when both are not and no cell contains any of the titles. *)
Theorem csv_column_title_failures :
  forall (title_row : row) (titles : list string),
    (get_csv_column_title title_row titles = Raise AssertionError <->
       title_row = [] \/ titles = []) /\
    (get_csv_column_title title_row titles = Raise ValueError <->
       title_row <> [] /\ titles <> [] /\
       forall t v, In t titles -> In v title_row -> header_has t v = false).
Proof.
  intros title_row titles. unfold get_csv_column_title.
  destruct title_row as [|cell cells].
  { split; split; try discriminate; intuition congruence. }
  destruct titles as [|title titles'].
  { split; split; try discriminate; intuition congruence. }
  cbn [is_nil negb andb assert bind]. split; split.
  - intros H.
    destruct (first_column (cell :: cells) (title :: titles')) as [c|e] eqn:Hf; [discriminate|].
    rewrite (first_column_raises _ _ _ Hf) in H. discriminate.
  - intros [H|H]; discriminate.
  - intros H. repeat split; try discriminate. now apply first_column_none.
  - intros (_ & _ & H). now apply first_column_none.
Qed.

(** ** The records loaded from the tables *)

Lemma getitem_ok {A : Type} (l : list A) (i : nat) (x : A) :
  getitem l i = Ok x <-> l !! i = Some x.
Proof.
  unfold getitem. destruct (l !! i); split; intros H; try discriminate; congruence.
Qed.

Lemma for_each_Forall2 {A B : Type} (f : A -> result B) (l : list A) (ys : list B) :
  for_each f l = Ok ys -> Forall2 (fun x y => f x = Ok y) l ys.
Proof.
  revert ys. induction l as [|x l IH]; simpl; intros ys H.
  - injection H as <-. constructor.
  - destruct (f x) as [y|] eqn:Hfx; [|discriminate]. cbn [bind] in H.
    destruct (for_each f l) as [ys0|]; [|discriminate]. cbn [bind] in H.
    injection H as <-. constructor; [exact Hfx | now apply IH].
Qed.

Lemma for_each_raises {A B : Type} (f : A -> result B) (l : list A) (x : A) :
  In x l -> (forall y, f x <> Ok y) -> exists e, for_each f l = Raise e.
Proof.
  intros Hin Hx. induction l as [|z l IH]; [destruct Hin|]. simpl.
  destruct (f z) as [y|e] eqn:Hz; [|eauto]. cbn [bind].
  destruct Hin as [->|Hin]; [exfalso; exact (Hx y Hz)|].
  destruct (IH Hin) as [e ->]. eauto.
Qed.

Lemma load_host_record_inv (c r v o : nat) (min_cpu : Z) (cells : row) (h : raw_host) :
  load_host_record c r v o min_cpu cells = Ok h ->
  exists cell n,
    cells !! c = Some cell /\ int_of_string cell = Ok n /\
    raw_CPUs h = Z.max n min_cpu /\
    cells !! r = Some (raw_RAM h) /\ cells !! v = Some (raw_VM h) /\
    cells !! o = Some (raw_OS h).
Proof.
  unfold load_host_record. intros H.
  destruct (getitem cells c) as [cell|] eqn:Hc; [|discriminate]. cbn [bind] in H.
  destruct (int_of_string cell) as [n|] eqn:Hn; [|discriminate]. cbn [bind] in H.
  apply getitem_ok in Hc.
  destruct (n <? min_cpu) eqn:Hlt; cbn [bind] in H;
    (destruct (getitem cells r) as [ram|] eqn:Hr; [|discriminate]); cbn [bind] in H;
    (destruct (getitem cells v) as [vm|] eqn:Hv; [|discriminate]); cbn [bind] in H;
    (destruct (getitem cells o) as [os|] eqn:Ho; [|discriminate]); cbn [bind] in H;
    injection H as <-; cbn; apply getitem_ok in Hr, Hv, Ho;
    exists cell, n; repeat split; auto.
  - apply Z.ltb_lt in Hlt. lia.
  - apply Z.ltb_ge in Hlt. lia.
Qed.

Lemma host_records_cells (title_row : row) (rows : list row) (min_cpu : Z)
    (hosts : list raw_host) :
  load_host_records_from_csv (title_row :: rows) min_cpu = Ok hosts ->
  exists c r,
    get_csv_column_title title_row ["CPUs"] = Ok c /\
    get_csv_column_title title_row ["Max"] = Ok r /\
    Forall2
      (fun cells h =>
         exists cell n,
           cells !! c = Some cell /\ int_of_string cell = Ok n /\
           cells !! r = Some (raw_RAM h))
      rows hosts.
Proof.
  unfold load_host_records_from_csv.
  destruct (get_csv_column_title title_row ["CPUs"]) as [c|]; [|discriminate].
  destruct (get_csv_column_title title_row ["Max"]) as [r|]; [|discriminate].
  destruct (get_csv_column_title title_row ["VM"]) as [v|]; [|discriminate].
  destruct (get_csv_column_title title_row ["OS according to the configuration file"])
    as [o|]; [|discriminate].
  cbn [bind]. intros H. exists c, r. repeat split.
  apply for_each_Forall2 in H.
  eapply Forall2_impl; [exact H|]. intros cells h Hh.
  destruct (load_host_record_inv _ _ _ _ _ _ _ Hh) as (cell & n & ? & ? & _ & ? & _).
  now exists cell, n.
Qed.

(** X15. When [load_host_records_from_csv] returns, the four columns were
    found in the header and there is one record per data row, in the order
    of the rows: its CPU count is the larger of the integer in the CPU cell
    and the minimum given, its RAM, VM and OS are the cells as they are. *)
Theorem host_records_follow_the_rows :
  forall (title_row : row) (rows : list row) (min_cpu : Z) (hosts : list raw_host),
    load_host_records_from_csv (title_row :: rows) min_cpu = Ok hosts ->
    exists c r v o,
      get_csv_column_title title_row ["CPUs"] = Ok c /\
      get_csv_column_title title_row ["Max"] = Ok r /\
      get_csv_column_title title_row ["VM"] = Ok v /\
      get_csv_column_title title_row ["OS according to the configuration file"] = Ok o /\
      Forall2
        (fun cells h =>
           exists cell n,
             cells !! c = Some cell /\ int_of_string cell = Ok n /\
             raw_CPUs h = Z.max n min_cpu /\
             cells !! r = Some (raw_RAM h) /\ cells !! v = Some (raw_VM h) /\
             cells !! o = Some (raw_OS h))
        rows hosts.
Proof.
  intros title_row rows min_cpu hosts. unfold load_host_records_from_csv.
  destruct (get_csv_column_title title_row ["CPUs"]) as [c|]; [|discriminate].
  destruct (get_csv_column_title title_row ["Max"]) as [r|]; [|discriminate].
  destruct (get_csv_column_title title_row ["VM"]) as [v|]; [|discriminate].
  destruct (get_csv_column_title title_row ["OS according to the configuration file"])
    as [o|]; [|discriminate].
  cbn [bind]. intros H. exists c, r, v, o. repeat split.
  apply for_each_Forall2 in H.
  eapply Forall2_impl; [exact H|]. intros cells h Hh. now apply load_host_record_inv.
Qed.

Lemma host_records_follow_the_rows_witness :
  exists c r v o,
    get_csv_column_title ["VM"; "CPUs"; "Max"; "OS according to the configuration file"]
      ["CPUs"] = Ok c /\
    get_csv_column_title ["VM"; "CPUs"; "Max"; "OS according to the configuration file"]
      ["Max"] = Ok r /\
    get_csv_column_title ["VM"; "CPUs"; "Max"; "OS according to the configuration file"]
      ["VM"] = Ok v /\
    get_csv_column_title ["VM"; "CPUs"; "Max"; "OS according to the configuration file"]
      ["OS according to the configuration file"] = Ok o /\
    Forall2
      (fun cells h =>
         exists cell n,
           cells !! c = Some cell /\ int_of_string cell = Ok n /\
           raw_CPUs h = Z.max n 2 /\
           cells !! r = Some (raw_RAM h) /\ cells !! v = Some (raw_VM h) /\
           cells !! o = Some (raw_OS h))
      [ ["vm1"; "1"; "2,048"; "CentOS"]; ["vm2"; "3"; "5,000"; "Windows"] ]
      [ {| raw_CPUs := 2; raw_RAM := "2,048"; raw_VM := "vm1"; raw_OS := "CentOS" |};
        {| raw_CPUs := 3; raw_RAM := "5,000"; raw_VM := "vm2"; raw_OS := "Windows" |} ].
Proof.
  apply (host_records_follow_the_rows
           ["VM"; "CPUs"; "Max"; "OS according to the configuration file"]
           [ ["vm1"; "1"; "2,048"; "CentOS"]; ["vm2"; "3"; "5,000"; "Windows"] ] 2).
  reflexivity.
Defined.

Lemma set_minimum_ram_size_for_instance_inv (ram : string) (min_ram gig : Q) :
  set_minimum_ram_size_for_instance ram min_ram = Ok gig ->
  exists n,
    int_of_string ram = Ok n /\
    (gig = min_ram \/ gig = inject_Z (round (inject_Z n / 1000))) /\
    (min_ram <= gig)%Q /\ (inject_Z (round (inject_Z n / 1000)) <= gig)%Q.
Proof.
  unfold set_minimum_ram_size_for_instance. intros H.
  destruct (int_of_string ram) as [n|]; [|discriminate]. cbn [bind] in H.
  injection H as <-. exists n. split; [reflexivity|].
  destruct (Qltb min_ram _) eqn:Hlt.
  - split; [now right|]. split; [now apply Qltb_le | apply Qle_refl].
  - split; [now left|]. split; [apply Qle_refl | now apply Qltb_ge].
Qed.

(** X16. [process_host_ram] keeps the CPUs, VM and OS of every record and
    turns its RAM text, an integer number of MB once the commas are
    removed, into a number of GB: the larger of the minimum given and of
    the MB over 1000 rounded to a whole number, which is within one half of
    the MB over 1000. *)
Theorem process_host_ram_normalizes :
  forall (raw : list raw_host) (min_ram : Q) (hosts : list host),
    process_host_ram raw min_ram = Ok hosts ->
    Forall2
      (fun rh h =>
         host_CPUs h = raw_CPUs rh /\ host_VM h = raw_VM rh /\ host_OS h = raw_OS rh /\
         exists n,
           int_of_string (remove_commas (raw_RAM rh)) = Ok n /\
           let gb := inject_Z (round (inject_Z n / 1000)) in
           (host_RAM h = min_ram \/ host_RAM h = gb) /\
           (min_ram <= host_RAM h)%Q /\ (gb <= host_RAM h)%Q /\
           (gb - (1 # 2) <= inject_Z n / 1000 <= gb + (1 # 2))%Q)
      raw hosts.
Proof.
  intros raw min_ram hosts H. unfold process_host_ram in H.
  apply for_each_Forall2 in H.
  eapply Forall2_impl; [exact H|]. intros rh h Hh.
  unfold process_one_host_ram in Hh.
  destruct (set_minimum_ram_size_for_instance _ min_ram) as [gig|] eqn:Hg; [|discriminate].
  cbn [bind] in Hh. injection Hh as <-. cbn.
  destruct (set_minimum_ram_size_for_instance_inv _ _ _ Hg) as (n & Hn & Hor & Hmin & Hgb).
  repeat split. exists n. split; [exact Hn|]. cbv zeta.
  repeat split; auto; apply round_close.
Qed.

Lemma process_host_ram_normalizes_witness :
  Forall2
    (fun rh h =>
       host_CPUs h = raw_CPUs rh /\ host_VM h = raw_VM rh /\ host_OS h = raw_OS rh /\
       exists n,
         int_of_string (remove_commas (raw_RAM rh)) = Ok n /\
         let gb := inject_Z (round (inject_Z n / 1000)) in
         (host_RAM h = 1%Q \/ host_RAM h = gb) /\
         (1 <= host_RAM h)%Q /\ (gb <= host_RAM h)%Q /\
         (gb - (1 # 2) <= inject_Z n / 1000 <= gb + (1 # 2))%Q)
    [ {| raw_CPUs := 2; raw_RAM := "2,500"; raw_VM := "vm1"; raw_OS := "CentOS" |};
      {| raw_CPUs := 4; raw_RAM := "512"; raw_VM := "vm2"; raw_OS := "SUSE" |} ]
    [ {| host_CPUs := 2; host_RAM := 2; host_VM := "vm1"; host_OS := "CentOS" |};
      {| host_CPUs := 4; host_RAM := 1; host_VM := "vm2"; host_OS := "SUSE" |} ].
Proof.
  apply (process_host_ram_normalizes
           [ {| raw_CPUs := 2; raw_RAM := "2,500"; raw_VM := "vm1"; raw_OS := "CentOS" |};
             {| raw_CPUs := 4; raw_RAM := "512"; raw_VM := "vm2"; raw_OS := "SUSE" |} ] 1).
  reflexivity.
Defined.

(** ** One bad cell *)

Lemma Forall2_In_l {A B : Type} (P : A -> B -> Prop) (l : list A) (k : list B) (x : A) :
  Forall2 P l k -> In x l -> exists y, In y k /\ P x y.
Proof.
  induction 1 as [|a b l k Hab _ IH]; [intros []|].
  intros [->|Hin]; [exists b; split; [now left | exact Hab]|].
  destruct (IH Hin) as (y & Hy & Hp). exists y. split; [now right | exact Hp].
Qed.

Lemma main_load_raises (get_price : string -> string -> pricing_model -> Q)
    (get_storage_cost : result Q) (cpu_csv disk_csv : list row)
    (types : list instance_type) :
  (forall min_cpu min_ram hosts,
      load_host_records_from_csv cpu_csv min_cpu = Ok hosts ->
      exists e, process_host_ram hosts min_ram = Raise e) ->
  main get_price get_storage_cost cpu_csv disk_csv types = Some Exit_1.
Proof.
  intros Hload. unfold main.
  destruct (get_minimum_cpu_size types) as [min_cpu|]; [|reflexivity]. cbn [bind].
  destruct (get_minimum_ram_size types) as [min_ram|]; [|reflexivity]. cbn [bind].
  destruct (load_host_records_from_csv cpu_csv min_cpu) as [raw|] eqn:Hraw; [|reflexivity].
  cbn [bind]. destruct (Hload min_cpu min_ram raw Hraw) as [e ->]. reflexivity.
Qed.

(** X17. One data row whose CPU cell or whose RAM cell is missing or holds
    no integer ends the whole run with exit status 1: no machine of the
    table is priced. *)
Theorem one_bad_cell_ends_the_run :
  forall (get_price : string -> string -> pricing_model -> Q) (get_storage_cost : result Q)
         (title_row : row) (rows : list row) (disk_csv : list row)
         (types : list instance_type) (cells : row),
    In cells rows ->
    (exists c, get_csv_column_title title_row ["CPUs"] = Ok c /\
               forall cell, cells !! c = Some cell -> int_of_string cell = Raise ValueError) \/
    (exists r, get_csv_column_title title_row ["Max"] = Ok r /\
               forall cell, cells !! r = Some cell ->
                            int_of_string (remove_commas cell) = Raise ValueError) ->
    main get_price get_storage_cost (title_row :: rows) disk_csv types = Some Exit_1.
Proof.
  intros gp gsc title_row rows disk_csv types cells Hin Hbad.
  apply main_load_raises. intros min_cpu min_ram hosts Hload.
  destruct (host_records_cells title_row rows min_cpu hosts Hload)
    as (c & r & Hc & Hr & Hrows).
  destruct (Forall2_In_l _ _ _ cells Hrows Hin) as (rh & Hrh & cell & n & Hcell & Hn & Hram).
  destruct Hbad as [(c' & Hc' & Hcells)|(r' & Hr' & Hcells)].
  - rewrite Hc in Hc'. injection Hc' as <-.
    rewrite (Hcells cell Hcell) in Hn. discriminate.
  - rewrite Hr in Hr'. injection Hr' as <-.
    apply (for_each_raises (process_one_host_ram min_ram) hosts rh Hrh).
    intros h Hh. unfold process_one_host_ram in Hh.
    destruct (set_minimum_ram_size_for_instance _ min_ram) as [gig|] eqn:Hg; [|discriminate].
    destruct (set_minimum_ram_size_for_instance_inv _ _ _ Hg) as (k & Hk & _).
    rewrite (Hcells _ Hram) in Hk. discriminate.
Qed.

Lemma one_bad_cell_ends_the_run_witness :
  main two_prices (Ok (1 # 10)) cpu_csv_with_bad_cell sample_disk_csv scenario_catalog
    = Some Exit_1.
Proof.
  apply (one_bad_cell_ends_the_run two_prices (Ok (1 # 10))
           ["VM"; "CPUs"; "Max"; "OS according to the configuration file"]
           [ ["vm1"; "2"; "4,096"; "CentOS"]; ["vm2"; "4.0"; "8,192"; "Windows"] ]
           sample_disk_csv scenario_catalog ["vm2"; "4.0"; "8,192"; "Windows"]).
  - right. left. reflexivity.
  - left. exists 1%nat. split; [reflexivity|].
    intros cell H. injection H as <-. reflexivity.
Defined.

(** ** The records of a run and the report *)

Section Run.
Variable get_price : string -> string -> pricing_model -> Q.
Variable get_storage_cost : result Q.

(** A record that [find_aws_instance] yields again when it is handed back. *)
Let recomputed (disks : list disk) (types : list instance_type)
    (r : host_with_cost_details) : Prop :=
  find_aws_instance get_price get_storage_cost (host_of_record r) disks types
    = Some (Ok (Some r)).

Lemma find_aws_instance_recomputed (h : host) (disks : list disk)
    (types : list instance_type) (r : host_with_cost_details) :
  find_aws_instance get_price get_storage_cost h disks types = Some (Ok (Some r)) ->
  host_of_record r = h /\ recomputed disks types r.
Proof.
  intros H.
  destruct (find_aws_instance_inv get_price get_storage_cost h disks types r H)
    as (_ & _ & _ & _ & Hh & _).
  unfold recomputed, host_of_record. rewrite Hh. now split.
Qed.

Lemma collect_records (hosts : list host) (disks : list disk) (types : list instance_type)
    (records : list host_with_cost_details) :
  collect get_price get_storage_cost hosts disks types = Some records ->
  sublist (map host_of_record records) hosts /\
  Forall (recomputed disks types) records /\
  forall h r, In h hosts ->
              find_aws_instance get_price get_storage_cost h disks types = Some (Ok (Some r)) ->
              In r records.
Proof.
  revert records. induction hosts as [|h hosts IH]; simpl; intros records H.
  - injection H as <-. repeat split; [constructor | constructor | intros h r []].
  - unfold process_host in H.
    destruct (find_aws_instance get_price get_storage_cost h disks types)
      as [outcome|] eqn:Hh; [|discriminate].
    destruct (collect get_price get_storage_cost hosts disks types) as [records0|];
      [|discriminate].
    destruct (IH records0 eq_refl) as (Hsub & Hall & Hcomplete).
    injection H as <-.
    destruct outcome as [[r|]|e].
    + destruct (find_aws_instance_recomputed h disks types r Hh) as [Hhost Hre].
      repeat split.
      * simpl. rewrite Hhost. now constructor.
      * now constructor.
      * intros h' r' [<-|Hin] Hr'; [left; congruence | right; eauto].
    + repeat split; [now constructor | exact Hall |].
      intros h' r' [<-|Hin] Hr'; [congruence | eauto].
    + repeat split; [now constructor | exact Hall |].
      intros h' r' [<-|Hin] Hr'; [congruence | eauto].
Qed.

Lemma report_loop_recomputed (records : list host_with_cost_details) (disks : list disk)
    (types : list instance_type) (rows : list report_row) (totals : report_totals) :
  Forall (recomputed disks types) records ->
  report_loop get_price get_storage_cost records disks types rows totals =
    Some (Ok (rows ++ map report_row_of records,
              fold_left add_to_totals (map report_row_of records) totals)).
Proof.
  intros H. revert rows totals.
  induction H as [|r records Hr _ IH]; intros rows totals; simpl.
  - now rewrite app_nil_r.
  - unfold recomputed in Hr. rewrite Hr, IH, <- app_assoc. reflexivity.
Qed.

Lemma fold_totals (rows : list report_row) (totals : report_totals) :
  let t := fold_left add_to_totals rows totals in
  total_on_demand t = total_on_demand totals + sum_Z (map (fun r => or_zero (row_onDemand_Cost r)) rows) /\
  total_one_year t = total_one_year totals + sum_Z (map (fun r => or_zero (row_1_Year_Reserved r)) rows) /\
  (total_three_year t == total_three_year totals + sum_Q (map row_Total_Cost rows))%Q.
Proof.
  revert totals. induction rows as [|r rows IH]; intros totals; simpl.
  - repeat split; try lia. unfold sum_Q. simpl. ring.
  - destruct (IH (add_to_totals totals r)) as (H1 & H2 & H3). cbv zeta in *.
    rewrite H1, H2, H3. unfold sum_Z, sum_Q. simpl. repeat split; try lia. ring.
Qed.
End Run.

(** X18. The records that [main] hands to the reports are those of the
    hosts it loaded, at most one per host and in whatever order the pool
    delivers them: a record is among them exactly when [find_aws_instance]
    returns it for a loaded host, a host for which it raises or returns
    nothing being left out. *)
Theorem processed_records_follow_the_hosts :
  forall (get_price : string -> string -> pricing_model -> Q) (get_storage_cost : result Q)
         (cpu_csv disk_csv : list row) (types : list instance_type)
         (records : list host_with_cost_details) (tally : Counter),
    main get_price get_storage_cost cpu_csv disk_csv types = Some (Processed records tally) ->
    exists min_cpu min_ram raw hosts disks,
      get_minimum_cpu_size types = Ok min_cpu /\
      get_minimum_ram_size types = Ok min_ram /\
      load_host_records_from_csv cpu_csv min_cpu = Ok raw /\
      process_host_ram raw min_ram = Ok hosts /\
      load_storage_records_from_csv disk_csv = Ok disks /\
      disks <> [] /\
      forall delivered : list host_with_cost_details,
        delivered ≡ₚ records ->
        (length delivered <= length hosts)%nat /\
        map host_of_record delivered ⊆+ hosts /\
        forall r, In r delivered <->
                  exists h, In h hosts /\
                            find_aws_instance get_price get_storage_cost h disks types
                              = Some (Ok (Some r)).
Proof.
  intros gp gsc cpu_csv disk_csv types records tally. unfold main.
  destruct (get_minimum_cpu_size types) as [min_cpu|] eqn:E1; [|discriminate]. cbn [bind].
  destruct (get_minimum_ram_size types) as [min_ram|] eqn:E2; [|discriminate]. cbn [bind].
  destruct (load_host_records_from_csv cpu_csv min_cpu) as [raw|] eqn:E3; [|discriminate].
  cbn [bind].
  destruct (process_host_ram raw min_ram) as [hosts|] eqn:E4; [|discriminate]. cbn [bind].
  destruct (load_storage_records_from_csv disk_csv) as [disks|] eqn:E5; [|discriminate].
  cbn [bind].
  destruct (is_nil hosts || is_nil disks) eqn:Hnil; [discriminate|].
  destruct (collect gp gsc hosts disks types) as [records0|] eqn:Hc; [|discriminate].
  intros H. injection H as <- _.
  destruct (collect_records gp gsc hosts disks types records0 Hc) as (Hsub & Hall & Hcomplete).
  exists min_cpu, min_ram, raw, hosts, disks.
  do 5 (split; [first [reflexivity | assumption]|]).
  split; [intros ->; now rewrite orb_true_r in Hnil|].
  intros delivered Hperm.
  assert (Hmset : map host_of_record delivered ⊆+ hosts).
  { transitivity (map host_of_record records0).
    - apply Permutation_submseteq, Permutation_map, Hperm.
    - apply sublist_submseteq, Hsub. }
  split; [|split; [exact Hmset|]].
  - apply submseteq_length in Hmset. now rewrite length_map in Hmset.
  - intros r. split.
    + intros Hr. apply (Permutation_in _ Hperm) in Hr.
      rewrite List.Forall_forall in Hall. specialize (Hall r Hr).
      exists (host_of_record r). split; [|exact Hall].
      apply list_elem_of_In. eapply elem_of_sublist; [|exact Hsub].
      apply list_elem_of_In, in_map, Hr.
    + intros (h & Hh & Hr). apply (Permutation_in _ (Permutation_sym Hperm)). eauto.
Qed.

Lemma processed_records_follow_the_hosts_witness :
  exists records min_cpu min_ram raw hosts disks,
    get_minimum_cpu_size scenario_catalog = Ok min_cpu /\
    get_minimum_ram_size scenario_catalog = Ok min_ram /\
    load_host_records_from_csv sample_cpu_csv min_cpu = Ok raw /\
    process_host_ram raw min_ram = Ok hosts /\
    load_storage_records_from_csv sample_disk_csv = Ok disks /\
    disks <> [] /\
    forall delivered : list host_with_cost_details,
      delivered ≡ₚ records ->
      (length delivered <= length hosts)%nat /\
      map host_of_record delivered ⊆+ hosts /\
      forall r, In r delivered <->
                exists h, In h hosts /\
                          find_aws_instance two_prices (Ok (1 # 10)) h disks scenario_catalog
                            = Some (Ok (Some r)).
Proof.
  eexists.
  apply (processed_records_follow_the_hosts two_prices (Ok (1 # 10)) sample_cpu_csv
           sample_disk_csv scenario_catalog _ ∅).
  vm_compute. reflexivity.
Defined.

Lemma round_to_cents_whole (dollars cents : Z) :
  (round_to_cents (inject_Z dollars + float_of_2f cents)
   == inject_Z dollars + float_of_2f cents)%Q.
Proof.
  assert (H : (inject_Z dollars + float_of_2f cents == float_of_2f (100 * dollars + cents))%Q).
  { unfold float_of_2f. rewrite inject_Z_plus, inject_Z_mult. field. }
  rewrite H. rewrite <- float_of_format_2f, format_2f_float_of_2f. reflexivity.
Qed.



Lemma report_loop_assert (get_price : string -> string -> pricing_model -> Q)
    (get_storage_cost : result Q) (records : list host_with_cost_details)
    (disks : list disk) (types : list instance_type) :
  (records = [] \/ disks = [] ->
   write_report_file_to_csv get_price get_storage_cost records disks types
     = Some (Raise AssertionError)) /\
  (records <> [] -> disks <> [] ->
   Forall (fun r => find_aws_instance get_price get_storage_cost (host_of_record r)
                      disks types = Some (Ok (Some r))) records ->
   exists out,
     write_report_file_to_csv get_price get_storage_cost records disks types
       = Some (Ok out)).
Proof.
  unfold write_report_file_to_csv. split.
  - intros [-> | ->]; [reflexivity|]. destruct records; reflexivity.
  - intros Hr Hd Hall.
    destruct records as [|r0 records0]; [contradiction|].
    destruct disks as [|d0 disks0]; [contradiction|].
    cbn [is_nil negb andb assert].
    rewrite (report_loop_recomputed get_price get_storage_cost _ _ _ [] _ Hall). eauto.
Qed.

(** X20. [write_report_file_to_csv] asserts that it is given hosts and
    disks. Given records that [find_aws_instance] yields again, it writes
    one row per record, in their order, and returns as totals the sum of
    the on-demand costs, the sum of the one-year costs, and for three years
    the sum of the totals of the records, storage included; a cost that is
    missing counts for 0. *)
Theorem report_rows_and_totals :
  forall (get_price : string -> string -> pricing_model -> Q) (get_storage_cost : result Q)
         (records : list host_with_cost_details) (disks : list disk)
         (types : list instance_type),
    (records = [] \/ disks = [] ->
     write_report_file_to_csv get_price get_storage_cost records disks types
       = Some (Raise AssertionError)) /\
    (records <> [] -> disks <> [] ->
     Forall (fun r => find_aws_instance get_price get_storage_cost (host_of_record r)
                        disks types = Some (Ok (Some r))) records ->
     exists totals,
       write_report_file_to_csv get_price get_storage_cost records disks types
         = Some (Ok (map report_row_of records, totals)) /\
       total_on_demand totals =
         sum_Z (map (fun r => or_zero (Instance_Cost (cd_onDemand (hc_Cost_Details r))))
                  records) /\
       total_one_year totals =
         sum_Z (map (fun r => or_zero (Instance_Cost (cd_one_year (hc_Cost_Details r))))
                  records) /\
       (total_three_year totals == sum_Q (map hc_Total records))%Q).
Proof.
  intros gp gsc records disks types. unfold write_report_file_to_csv. split.
  - intros [-> | ->]; [reflexivity|]. destruct records; reflexivity.
  - intros Hr Hd Hall.
    destruct records as [|r0 records0]; [contradiction|].
    destruct disks as [|d0 disks0]; [contradiction|].
    cbn [is_nil negb andb assert].
    rewrite (report_loop_recomputed gp gsc _ _ _ [] _ Hall).
    eexists. split; [reflexivity|].
    match goal with
    | |- context [fold_left add_to_totals ?rows ?t0] =>
        destruct (fold_totals rows t0) as (H1 & H2 & H3)
    end.
    cbv zeta in H1, H2, H3. rewrite H1, H2, H3. cbn [total_on_demand total_one_year total_three_year].
    rewrite !map_map. cbn [report_row_of row_onDemand_Cost row_1_Year_Reserved row_Total_Cost].
    repeat split; try reflexivity. apply Qplus_0_l.
Qed.

Lemma report_rows_and_totals_witness :
  exists totals,
    write_report_file_to_csv three_prices (Ok (1 # 10)) sample_records sample_disks
      scenario_catalog = Some (Ok (map report_row_of sample_records, totals)) /\
    total_on_demand totals =
      sum_Z (map (fun r => or_zero (Instance_Cost (cd_onDemand (hc_Cost_Details r))))
               sample_records) /\
    total_one_year totals =
      sum_Z (map (fun r => or_zero (Instance_Cost (cd_one_year (hc_Cost_Details r))))
               sample_records) /\
    (total_three_year totals == sum_Q (map hc_Total sample_records))%Q.
Proof.
  apply (proj2 (report_rows_and_totals three_prices (Ok (1 # 10)) sample_records
                  sample_disks scenario_catalog)).
  - discriminate.
  - discriminate.
  - constructor; [reflexivity|]. constructor; [reflexivity|]. constructor.
Defined.

(** X21. The run always ends, with exit status 0 or 1; the status is 0
    exactly when [main] gets as far as the reports with at least one
    record. With no record at all, every host having failed, the CSV
    report raises on its assertion and the status is 1. *)
Theorem exit_status_is_zero_iff_a_host_was_priced :
  forall (get_price : string -> string -> pricing_model -> Q) (get_storage_cost : result Q)
         (cpu_csv disk_csv : list row) (types : list instance_type),
    exists status,
      main_exit_status get_price get_storage_cost cpu_csv disk_csv types = Some status /\
      (status = 0 \/ status = 1) /\
      (status = 0 <->
       exists records tally,
         main get_price get_storage_cost cpu_csv disk_csv types
           = Some (Processed records tally) /\ records <> []).
Proof.
  intros gp gsc cpu_csv disk_csv types. unfold main_exit_status, main.
  assert (Hno : forall A (x : A), ~ (exists (records : list host_with_cost_details)
                                            (tally : Counter),
                                        Some Exit_1 = Some (Processed records tally) /\
                                        records <> [])).
  { intros A x (records & tally & H & _). discriminate. }
  destruct (let* min_cpu := get_minimum_cpu_size types in _) as [[min_cpu min_ram]|].
  2:{ exists 1. repeat split; auto; [discriminate | intros H; destruct (Hno _ tt H)]. }
  destruct (let* hosts := load_host_records_from_csv cpu_csv min_cpu in _)
    as [[hosts disks]|].
  2:{ exists 1. repeat split; auto; [discriminate | intros H; destruct (Hno _ tt H)]. }
  destruct (is_nil hosts || is_nil disks) eqn:Hnil.
  { exists 1. repeat split; auto; [discriminate | intros H; destruct (Hno _ tt H)]. }
  destruct (collect_total gp gsc hosts disks types) as [records Hc]. rewrite Hc.
  destruct (collect_records gp gsc hosts disks types records Hc) as (_ & Hall & _).
  assert (Hd : disks <> []) by (intros ->; now rewrite orb_true_r in Hnil).
  destruct records as [|r records].
  - rewrite (proj1 (report_loop_assert gp gsc [] disks types)) by now left.
    exists 1. repeat split; auto; [discriminate|].
    intros (records & tally & H & Hne). injection H as <- _. contradiction.
  - destruct (proj2 (report_loop_assert gp gsc (r :: records) disks types)
                ltac:(discriminate) Hd Hall) as [out ->].
    exists 0. repeat split; auto. intros _. exists (r :: records), ∅. split; [reflexivity|discriminate].
Qed.

(** ** The operating system categories *)

(** X22. The category under which [get_price] asks for a price is
    "Windows" exactly when the operating system string contains "Windows"
    and neither "CentOS" nor "Red Hat", which come first in [os_map]; then
    [get_aws_os_type] answers "Windows" too. *)
Theorem windows_category :
  forall (os : string),
    (get_price_os_type os = "Windows" <->
       contains "Windows" os = true /\ contains "CentOS" os = false /\
       contains "Red Hat" os = false) /\
    (get_price_os_type os = "Windows" -> get_aws_os_type os = Ok "Windows").
Proof.
  intros os.
  assert (Hiff : get_price_os_type os = "Windows" <->
                 contains "Windows" os = true /\ contains "CentOS" os = false /\
                 contains "Red Hat" os = false).
  { unfold get_price_os_type, os_map, first_os_type.
    destruct (contains "CentOS" os), (contains "Red Hat" os), (contains "Windows" os),
      (contains "SUSE" os); split; intros H; try discriminate;
      try (destruct H as (? & ? & ?); discriminate); auto. }
  split; [exact Hiff|]. intros H. apply Hiff in H as (Hw & _).
  unfold get_aws_os_type. rewrite Hw.
  destruct os; [discriminate Hw | reflexivity].
Qed.

Lemma windows_category_witness :
  get_aws_os_type "Microsoft Windows Server 2019 (64-bit)" = Ok "Windows".
Proof.
  apply (proj2 (windows_category "Microsoft Windows Server 2019 (64-bit)")).
  reflexivity.
Defined.

(** ** The storage records *)

(** X23. When [load_storage_records_from_csv] returns, either the header
    lacks the capacity column or the VM column and no record is returned,
    or both columns were found and there is one record per data row, in
    the order of the rows, made of the two cells as they are. *)
Theorem storage_records_follow_the_rows :
  forall (title_row : row) (rows : list row) (disks : list disk),
    load_storage_records_from_csv (title_row :: rows) = Ok disks ->
    (disks = [] /\
     (get_csv_column_title title_row ["Capacity MB"; "Capacity MiB"; "Capacity"]
        = Raise ValueError \/
      get_csv_column_title title_row ["VM"] = Raise ValueError)) \/
    (exists c v,
        get_csv_column_title title_row ["Capacity MB"; "Capacity MiB"; "Capacity"] = Ok c /\
        get_csv_column_title title_row ["VM"] = Ok v /\
        Forall2 (fun cells d => cells !! c = Some (disk_Capacity d) /\
                                cells !! v = Some (disk_VM d)) rows disks).
Proof.
  intros title_row rows disks. unfold load_storage_records_from_csv, storage_columns.
  destruct (get_csv_column_title title_row ["Capacity MB"; "Capacity MiB"; "Capacity"])
    as [c|e]; cbn [bind].
  - destruct (get_csv_column_title title_row ["VM"]) as [v|e]; cbn [bind].
    + intros H. right. exists c, v. split; [reflexivity|]. split; [reflexivity|].
      apply for_each_Forall2 in H.
      eapply Forall2_impl; [exact H|]. intros cells d Hd. unfold load_storage_record in Hd.
      destruct (getitem cells c) as [capacity|] eqn:Hc; [|discriminate]. cbn [bind] in Hd.
      destruct (getitem cells v) as [vm|] eqn:Hv; [|discriminate]. cbn [bind] in Hd.
      injection Hd as <-. cbn. split; now apply getitem_ok.
    + destruct e; cbn [bind]; try discriminate.
      intros H. injection H as <-. left. split; [reflexivity | now right].
  - destruct e; cbn [bind]; try discriminate.
    intros H. injection H as <-. left. split; [reflexivity | now left].
Qed.

Lemma storage_records_follow_the_rows_witness :
  (sample_disks = [] /\
   (get_csv_column_title ["VM"; "Capacity MB"] ["Capacity MB"; "Capacity MiB"; "Capacity"]
      = Raise ValueError \/
    get_csv_column_title ["VM"; "Capacity MB"] ["VM"] = Raise ValueError)) \/
  (exists c v,
      get_csv_column_title ["VM"; "Capacity MB"] ["Capacity MB"; "Capacity MiB"; "Capacity"]
        = Ok c /\
      get_csv_column_title ["VM"; "Capacity MB"] ["VM"] = Ok v /\
      Forall2 (fun cells d => cells !! c = Some (disk_Capacity d) /\
                              cells !! v = Some (disk_VM d))
        [ ["vm1"; "1,000"]; ["vm1"; "2,000"] ] sample_disks).
Proof.
  apply (storage_records_follow_the_rows ["VM"; "Capacity MB"]
           [ ["vm1"; "1,000"]; ["vm1"; "2,000"] ] sample_disks).
  reflexivity.
Defined.

(** ** The record of one host *)

Lemma size_loop_nonempty (fuel : nat) (types : list instance_type) (sizes : list Q)
    (min_cpu : Z) (min_ram : Q) (found : list string) :
  size_loop fuel types sizes min_cpu min_ram = Some (Ok found) -> found <> [].
Proof.
  revert min_ram. induction fuel as [|fuel IH]; intros min_ram; [discriminate|].
  cbn [size_loop].
  destruct (lookup_type min_cpu min_ram types) as [found0|]; [|discriminate].
  destruct (let* next := get_next_ram_size sizes min_ram in _) as [min_ram'|]; [|discriminate].
  destruct found0 as [|id found0]; cbn [is_nil]; [apply IH|].
  intros H. injection H as <-. discriminate.
Qed.

Lemma get_correct_instance_size_nonempty (cpu : Z) (ram : Q) (types : list instance_type)
    (found : list string) :
  get_correct_instance_size cpu ram types = Some (Ok found) -> found <> [].
Proof.
  unfold get_correct_instance_size.
  destruct (assert _); [|discriminate].
  destruct (find_greater_than_or_equal Z.ltb truthy_Z _ cpu); [|discriminate].
  destruct (find_greater_than_or_equal Qltb truthy_Q _ ram); [|discriminate].
  apply size_loop_nonempty.
Qed.

(** X24. [find_aws_instance] never returns [None] for a host record: a
    size resolution that returns gives at least one offering. A record is
    returned only when the size resolution and the storage computation
    both return; it is returned whenever they do and none of the offerings
    found has a price, so that no missing price keeps a host from its
    record; an exception that the price service lets through for the first
    offering found, however, ends the processing of the host. *)
Theorem find_aws_instance_returns_a_record :
  forall (get_price : string -> string -> pricing_model -> result float)
         (get_storage_cost : result float)
         (h : host) (disks : list disk) (types : list instance_type),
    Binary64.find_aws_instance get_price get_storage_cost h disks types <> Some (Ok None) /\
    (forall r,
        Binary64.find_aws_instance get_price get_storage_cost h disks types
          = Some (Ok (Some r)) ->
        (exists found, get_correct_instance_size (host_CPUs h) (host_RAM h) types
                         = Some (Ok found) /\ found <> []) /\
        (exists sc, Binary64.get_three_year_storage_cost get_storage_cost h disks = Ok sc)) /\
    (forall found sc,
        get_correct_instance_size (host_CPUs h) (host_RAM h) types = Some (Ok found) ->
        Binary64.get_three_year_storage_cost get_storage_cost h disks = Ok sc ->
        (forall instance model,
            In instance found ->
            exists price, get_price instance (host_OS h) model = Ok price /\
                          (price =? 0)%float = true) ->
        exists r, Binary64.find_aws_instance get_price get_storage_cost h disks types
                    = Some (Ok (Some r))) /\
    (forall instance found e,
        get_correct_instance_size (host_CPUs h) (host_RAM h) types
          = Some (Ok (instance :: found)) ->
        host_OS h <> "" ->
        get_price instance (host_OS h) onDemand = Raise e ->
        Binary64.find_aws_instance get_price get_storage_cost h disks types
          = Some (Raise e)).
Proof.
  intros gp gsc h disks types. split; [|split; [|split]].
  - unfold Binary64.find_aws_instance.
    destruct (get_correct_instance_size (host_CPUs h) (host_RAM h) types)
      as [[found|e]|] eqn:Hsize; try discriminate.
    pose proof (get_correct_instance_size_nonempty _ _ _ _ Hsize) as Hne.
    destruct found as [|id found]; [contradiction|]. cbn [is_nil].
    intros H. injection H as H.
    repeat match type of H with
           | bind ?c _ = _ => destruct c as [[[? ?] ?]|?]; cbn [bind] in H; [|discriminate]
           end.
    destruct (Binary64.get_three_year_storage_cost gsc h disks); cbn [bind] in H;
      [|discriminate].
    match type of H with
    | bind ?c _ = _ => destruct c; cbn [bind] in H; discriminate
    end.
  - intros r Hr.
    destruct (binary64_find_aws_instance_inv gp gsc h disks types r Hr)
      as (instances & c1 & c2 & c3 & i1 & i2 & i3 & n1 & n2 & n3 & sc
          & Hsize & Hne & _ & _ & _ & Hsc & _).
    split; [now exists instances | now exists sc].
  - intros found sc Hsize Hsc Hnone.
    pose proof (get_correct_instance_size_nonempty _ _ _ _ Hsize) as Hne.
    unfold Binary64.find_aws_instance. rewrite Hsize.
    destruct found as [|id found]; [contradiction|]. cbn [is_nil].
    destruct (least_expensive_unavailable gp (id :: found) (host_OS h) onDemand ∅
                (fun i Hi => Hnone i onDemand Hi)) as (i1 & n1 & ->). cbn [bind].
    destruct (least_expensive_unavailable gp (id :: found) (host_OS h) one_year_Reserved n1
                (fun i Hi => Hnone i one_year_Reserved Hi)) as (i2 & n2 & ->). cbn [bind].
    destruct (least_expensive_unavailable gp (id :: found) (host_OS h) three_year_Reserved n2
                (fun i Hi => Hnone i three_year_Reserved Hi)) as (i3 & n3 & ->). cbn [bind].
    rewrite Hsc. cbn [bind]. eexists. reflexivity.
  - intros instance found e Hsize Hos Hraise.
    unfold Binary64.find_aws_instance. rewrite Hsize. cbn [is_nil].
    unfold Binary64.get_least_expensive_option at 1. cbn [is_nil].
    destruct (String.eqb_spec (host_OS h) ""); [contradiction|].
    cbn [Binary64.price_loop]. rewrite Hraise. reflexivity.
Qed.

Lemma find_aws_instance_returns_a_record_witness :
  exists r, Binary64.find_aws_instance unpriced (Ok storage_price) sample_host sample_disks
              scenario_catalog = Some (Ok (Some r)).
Proof.
  eapply (proj1 (proj2 (proj2 (find_aws_instance_returns_a_record unpriced (Ok storage_price)
                                 sample_host sample_disks scenario_catalog)))).
  - vm_compute. reflexivity.
  - vm_compute. reflexivity.
  - intros instance model _. exists 0%float. split; reflexivity.
Defined.
